(** * socket_chat: the wire codec, the registry and the broadcast engine

    A shallow embedding of [src/server.py] (class [ChatServer]) and of the
    framing half of [src/client.py] (class [ChatClient]).

    - [Text]   Python [str] and [bytes], [str.strip], UTF-8.
    - [Json]   the values [json.dumps] / [json.loads] exchange, with the
               default settings the program uses (ASCII-only output,
               separators [", "] and [": "]).
    - [Server] the handler code, written in a small state-and-exception
               monad over the server's world: registry, lock, sockets,
               the log of bytes written, the clock.
    - [Client] the client's frame reader and writer. *)

From Stdlib Require Import ZArith List Bool Lia String Ascii.
From Stdlib Require DecimalFacts DecimalPos DecimalN DecimalZ.
Import ListNotations.
Local Open Scope Z_scope.

(* ================================================================== *)
(** * Text: code points, bytes, whitespace, UTF-8 *)
(* ================================================================== *)

Module Text.

(** A Python [str] is a sequence of Unicode code points, a [bytes] object a
    sequence of octets. *)
Definition str := list Z.
Definition bytes := list Z.

(** String literals of the source, as code points. *)
Definition lit (s : string) : str :=
  map (fun a => Z.of_N (N_of_ascii a)) (list_ascii_of_string s).

Fixpoint str_eqb (a b : str) : bool :=
  match a, b with
  | [], [] => true
  | x :: a', y :: b' => (x =? y) && str_eqb a' b'
  | _, _ => false
  end.

(** ['\n' in buffer] and friends. *)
Definition mem (c : Z) (s : str) : bool := existsb (Z.eqb c) s.

(** [s.split(sep, 1)] for a one-character separator that occurs in [s]:
    the text before the first occurrence and the text after it. *)
Fixpoint split_first (sep : Z) (s : str) : str * str :=
  match s with
  | [] => ([], [])
  | c :: r =>
      if c =? sep then ([], r)
      else let (a, b) := split_first sep r in (c :: a, b)
  end.

(** [str.isspace] on one code point: the characters [str.strip()] removes. *)
Definition isspace (c : Z) : bool :=
  ((0x09 <=? c) && (c <=? 0x0D)) || ((0x1C <=? c) && (c <=? 0x20))
  || (c =? 0x85) || (c =? 0xA0) || (c =? 0x1680)
  || ((0x2000 <=? c) && (c <=? 0x200A))
  || (c =? 0x2028) || (c =? 0x2029) || (c =? 0x202F) || (c =? 0x205F)
  || (c =? 0x3000).

Fixpoint lstrip (s : str) : str :=
  match s with
  | c :: r => if isspace c then lstrip r else s
  | [] => []
  end.

Definition rstrip (s : str) : str := rev (lstrip (rev s)).

(** [s.strip()] *)
Definition strip (s : str) : str := rstrip (lstrip s).

(** ** UTF-8 *)

Definition is_surrogate (c : Z) : bool := (0xD800 <=? c) && (c <=? 0xDFFF).

(** [chr(c).encode('utf-8')]; surrogates and values outside the code space
    raise [UnicodeEncodeError]. *)
Definition utf8_char (c : Z) : option bytes :=
  if c <? 0 then None
  else if c <? 0x80 then Some [c]
  else if c <? 0x800 then
    Some [Z.lor 0xC0 (Z.shiftr c 6); Z.lor 0x80 (Z.land c 0x3F)]
  else if is_surrogate c then None
  else if c <? 0x10000 then
    Some [Z.lor 0xE0 (Z.shiftr c 12);
          Z.lor 0x80 (Z.land (Z.shiftr c 6) 0x3F);
          Z.lor 0x80 (Z.land c 0x3F)]
  else if c <? 0x110000 then
    Some [Z.lor 0xF0 (Z.shiftr c 18);
          Z.lor 0x80 (Z.land (Z.shiftr c 12) 0x3F);
          Z.lor 0x80 (Z.land (Z.shiftr c 6) 0x3F);
          Z.lor 0x80 (Z.land c 0x3F)]
  else None.

(** [s.encode('utf-8')] *)
Fixpoint encode_utf8 (s : str) : option bytes :=
  match s with
  | [] => Some []
  | c :: r =>
      match utf8_char c, encode_utf8 r with
      | Some bs, Some rest => Some (bs ++ rest)
      | _, _ => None
      end
  end.

Definition is_cont (b : Z) : bool := (0x80 <=? b) && (b <=? 0xBF).
Definition low6 (b : Z) : Z := Z.land b 0x3F.

(** [bs.decode('utf-8')], strict: [None] stands for [UnicodeDecodeError]
    (a stray or missing continuation byte, an overlong form, an encoded
    surrogate, a value past U+10FFFF, a sequence cut by the end of [bs]). *)
Fixpoint decode_utf8 (bs : bytes) : option str :=
  match bs with
  | [] => Some []
  | b0 :: r0 =>
      if (0 <=? b0) && (b0 <? 0x80) then
        option_map (cons b0) (decode_utf8 r0)
      else if (0xC2 <=? b0) && (b0 <=? 0xDF) then
        match r0 with
        | b1 :: r1 =>
            if is_cont b1 then
              option_map
                (cons (Z.lor (Z.shiftl (Z.land b0 0x1F) 6) (low6 b1)))
                (decode_utf8 r1)
            else None
        | _ => None
        end
      else if (0xE0 <=? b0) && (b0 <=? 0xEF) then
        match r0 with
        | b1 :: b2 :: r2 =>
            if ((if b0 =? 0xE0 then 0xA0 else 0x80) <=? b1)
               && (b1 <=? (if b0 =? 0xED then 0x9F else 0xBF))
               && is_cont b2 then
              option_map
                (cons (Z.lor (Z.shiftl (Z.land b0 0x0F) 12)
                         (Z.lor (Z.shiftl (low6 b1) 6) (low6 b2))))
                (decode_utf8 r2)
            else None
        | _ => None
        end
      else if (0xF0 <=? b0) && (b0 <=? 0xF4) then
        match r0 with
        | b1 :: b2 :: b3 :: r3 =>
            if ((if b0 =? 0xF0 then 0x90 else 0x80) <=? b1)
               && (b1 <=? (if b0 =? 0xF4 then 0x8F else 0xBF))
               && is_cont b2 && is_cont b3 then
              option_map
                (cons (Z.lor (Z.shiftl (Z.land b0 0x07) 18)
                         (Z.lor (Z.shiftl (low6 b1) 12)
                            (Z.lor (Z.shiftl (low6 b2) 6) (low6 b3)))))
                (decode_utf8 r3)
            else None
        | _ => None
        end
      else None
  end.

(** Text that [json.dumps] writes: printable ASCII only. *)
Definition ascii_only (s : str) : Prop := Forall (fun c => 0 <= c < 0x80) s.

End Text.

(* ================================================================== *)
(** * Python dictionaries *)
(* ================================================================== *)

(** A [dict] keeps its keys in insertion order; [self.clients] is iterated
    ([keys()], [values()]) and JSON objects are printed in that order, so a
    dictionary is an association list in which a key occurs once. *)
Module Dict.
Section Ops.
Context {K V : Type} (eqb : K -> K -> bool).

(** [d.get(k)] *)
Fixpoint get (k : K) (d : list (K * V)) : option V :=
  match d with
  | [] => None
  | (k', v) :: r => if eqb k k' then Some v else get k r
  end.

(** [k in d] *)
Definition has (k : K) (d : list (K * V)) : bool :=
  match get k d with Some _ => true | None => false end.

(** [d[k] = v]: a present key keeps its position, a new one goes last. *)
Fixpoint set (k : K) (v : V) (d : list (K * V)) : list (K * V) :=
  match d with
  | [] => [(k, v)]
  | (k', v') :: r => if eqb k k' then (k', v) :: r else (k', v') :: set k v r
  end.

(** [del d[k]] (the callers test [k in d] first). *)
Fixpoint del (k : K) (d : list (K * V)) : list (K * V) :=
  match d with
  | [] => []
  | (k', v') :: r => if eqb k k' then r else (k', v') :: del k r
  end.

(** [dict(pairs)] *)
Definition of_pairs (ps : list (K * V)) : list (K * V) :=
  fold_left (fun d kv => set (fst kv) (snd kv) d) ps [].
End Ops.

(** [list(d.keys())], [list(d.values())] *)
Definition keys {K V : Type} (d : list (K * V)) : list K := map fst d.
Definition values {K V : Type} (d : list (K * V)) : list V := map snd d.
End Dict.

(* ================================================================== *)
(** * Json: what [json.dumps] writes and [json.loads] reads *)
(* ================================================================== *)

Module Json.
Import Text.

(** A Python [float] is carried as the decimal literal that denotes it (no
    floating-point arithmetic is done anywhere in the program: the server
    only stamps messages with [time.time()] and prints the stamp).  The
    one thing the handlers ask of a float they received is whether it is
    zero, and there the rounding of the literal to a double counts: see
    [rounds_to_zero]. *)
Inductive pyfloat : Type :=
| Finite (d : Decimal.decimal)
| PosInf
| NegInf
| NaN.

#[local] Unset Elimination Schemes.
Inductive json : Type :=
| JNull
| JBool (b : bool)
| JInt (z : Z)
| JFloat (f : pyfloat)
| JStr (s : str)
| JList (l : list json)
| JDict (d : list (str * json)).
#[local] Set Elimination Schemes.

(** ** Numbers *)

Fixpoint uint_chars (u : Decimal.uint) : str :=
  match u with
  | Decimal.Nil => []
  | Decimal.D0 r => 48 :: uint_chars r
  | Decimal.D1 r => 49 :: uint_chars r
  | Decimal.D2 r => 50 :: uint_chars r
  | Decimal.D3 r => 51 :: uint_chars r
  | Decimal.D4 r => 52 :: uint_chars r
  | Decimal.D5 r => 53 :: uint_chars r
  | Decimal.D6 r => 54 :: uint_chars r
  | Decimal.D7 r => 55 :: uint_chars r
  | Decimal.D8 r => 56 :: uint_chars r
  | Decimal.D9 r => 57 :: uint_chars r
  end.

Definition int_chars (i : Decimal.int) : str :=
  match i with
  | Decimal.Pos u => uint_chars u
  | Decimal.Neg u => 45 :: uint_chars u
  end.

(** The exponent as [float.__repr__] writes it: [e+16], [e-07]. *)
Definition exp_chars (e : Decimal.int) : str :=
  match e with
  | Decimal.Pos u => 101 :: 43 :: uint_chars u
  | Decimal.Neg u => 101 :: 45 :: uint_chars u
  end.

Definition frac_chars (f : Decimal.uint) : str :=
  match f with
  | Decimal.Nil => []
  | _ => 46 :: uint_chars f
  end.

Definition float_chars (f : pyfloat) : str :=
  match f with
  | Finite (Decimal.Decimal i fr) => int_chars i ++ frac_chars fr
  | Finite (Decimal.DecimalExp i fr e) => int_chars i ++ frac_chars fr ++ exp_chars e
  | PosInf => lit "Infinity"
  | NegInf => lit "-Infinity"
  | NaN => lit "NaN"
  end.

Definition digit_of (c : Z) : option (Decimal.uint -> Decimal.uint) :=
  if c =? 48 then Some Decimal.D0 else if c =? 49 then Some Decimal.D1
  else if c =? 50 then Some Decimal.D2 else if c =? 51 then Some Decimal.D3
  else if c =? 52 then Some Decimal.D4 else if c =? 53 then Some Decimal.D5
  else if c =? 54 then Some Decimal.D6 else if c =? 55 then Some Decimal.D7
  else if c =? 56 then Some Decimal.D8 else if c =? 57 then Some Decimal.D9
  else None.

(** The longest run of decimal digits at the head of [s]. *)
Fixpoint take_digits (s : str) : Decimal.uint * str :=
  match s with
  | [] => (Decimal.Nil, [])
  | c :: r =>
      match digit_of c with
      | Some D => let (u, r') := take_digits r in (D u, r')
      | None => (Decimal.Nil, s)
      end
  end.

Definition is_nil (u : Decimal.uint) : bool :=
  match u with Decimal.Nil => true | _ => false end.

(** The decoder's number pattern, matched at the head of [s]: an optional
    minus sign, an integer part that is [0] or starts with a non-zero
    digit, an optional fraction (a point and at least one digit) and an
    optional exponent ([e] or [E], an optional sign, at least one digit).
    The three functions below return the integer part, the fraction
    digits ([Nil]: no fraction) and the exponent, each with the text after
    it. *)
Definition scan_int_part (s : str) : option (Decimal.uint * str) :=
  match s with
  | [] => None
  | c :: r =>
      if c =? 48 then Some (Decimal.D0 Decimal.Nil, r)
      else let (u, r') := take_digits s in
           if is_nil u then None else Some (u, r')
  end.

Definition scan_frac (s : str) : Decimal.uint * str :=
  match s with
  | c :: r =>
      if c =? 46 then
        let (u, r') := take_digits r in
        if is_nil u then (Decimal.Nil, s) else (u, r')
      else (Decimal.Nil, s)
  | [] => (Decimal.Nil, s)
  end.

Definition scan_exp (s : str) : option Decimal.int * str :=
  match s with
  | c :: r =>
      if (c =? 101) || (c =? 69) then
        match r with
        | sg :: r1 =>
            if sg =? 45 then
              let (u, r') := take_digits r1 in
              if is_nil u then (None, s) else (Some (Decimal.Neg u), r')
            else
              let (u, r') := take_digits (if sg =? 43 then r1 else r) in
              if is_nil u then (None, s) else (Some (Decimal.Pos u), r')
        | [] => (None, s)
        end
      else (None, s)
  | [] => (None, s)
  end.

(** [match_number]: a number with a fraction or an exponent is a float,
    another one an [int]. *)
Definition match_number (s : str) : option (json * str) :=
  let (neg, s1) :=
    match s with
    | c :: r => if c =? 45 then (true, r) else (false, s)
    | [] => (false, s)
    end in
  match scan_int_part s1 with
  | None => None
  | Some (u, s2) =>
      let i := if neg then Decimal.Neg u else Decimal.Pos u in
      let (fr, s3) := scan_frac s2 in
      let (ex, s4) := scan_exp s3 in
      match ex with
      | Some e => Some (JFloat (Finite (Decimal.DecimalExp i fr e)), s4)
      | None =>
          if is_nil fr then Some (JInt (Z.of_int i), s4)
          else Some (JFloat (Finite (Decimal.Decimal i fr)), s4)
      end
  end.

(** ** Strings *)

Definition hex_digit (n : Z) : Z := if n <? 10 then 48 + n else 87 + n.

(** ['{0:04x}'.format(n)] for [n < 0x10000]. *)
Definition hex4 (n : Z) : str :=
  [hex_digit (n / 4096 mod 16); hex_digit (n / 256 mod 16);
   hex_digit (n / 16 mod 16); hex_digit (n mod 16)].

Definition u_escape (n : Z) : str := 92 :: 117 :: hex4 n.

(** One character of [encode_basestring_ascii]: the short escapes, the
    printable ASCII range as it is, [\uXXXX] for the rest, a surrogate pair
    above the basic plane. *)
Definition escape_char (c : Z) : str :=
  if c =? 34 then [92; 34]
  else if c =? 92 then [92; 92]
  else if c =? 10 then [92; 110]
  else if c =? 13 then [92; 114]
  else if c =? 9 then [92; 116]
  else if c =? 8 then [92; 98]
  else if c =? 12 then [92; 102]
  else if (32 <=? c) && (c <=? 126) then [c]
  else if c <? 0x10000 then u_escape c
  else
    let n := c - 0x10000 in
    u_escape (Z.lor 0xD800 (Z.land (Z.shiftr n 10) 0x3FF))
    ++ u_escape (Z.lor 0xDC00 (Z.land n 0x3FF)).

Definition quote (s : str) : str := 34 :: flat_map escape_char s ++ [34].

Definition hexval (c : Z) : option Z :=
  if (48 <=? c) && (c <=? 57) then Some (c - 48)
  else if (97 <=? c) && (c <=? 102) then Some (c - 87)
  else if (65 <=? c) && (c <=? 70) then Some (c - 55)
  else None.

Definition hex4val (a b c d : Z) : option Z :=
  match hexval a, hexval b, hexval c, hexval d with
  | Some x, Some y, Some z, Some t => Some (4096 * x + 256 * y + 16 * z + t)
  | _, _, _, _ => None
  end.

(** The decoder's table of one-letter escapes. *)
Definition backslash (e : Z) : option Z :=
  if e =? 34 then Some 34 else if e =? 92 then Some 92
  else if e =? 47 then Some 47 else if e =? 98 then Some 8
  else if e =? 102 then Some 12 else if e =? 110 then Some 10
  else if e =? 114 then Some 13 else if e =? 116 then Some 9
  else None.

Definition push {A : Type} (a : A) (r : option (list A * str)) :
  option (list A * str) :=
  match r with Some (l, s) => Some (a :: l, s) | None => None end.

(** The body of a string literal up to its closing quote, as code units;
    a unit is marked when a [\uXXXX] escape wrote it.  In strict mode a raw
    control character ends the decoding with an error, and so does an
    unknown escape or the end of the text. *)
Fixpoint lex_string (s : str) : option (list (Z * bool) * str) :=
  match s with
  | [] => None
  | c :: r =>
      if c =? 34 then Some ([], r)
      else if c =? 92 then
        match r with
        | [] => None
        | e :: r1 =>
            if e =? 117 then
              match r1 with
              | h1 :: h2 :: h3 :: h4 :: r2 =>
                  match hex4val h1 h2 h3 h4 with
                  | Some u => push (u, true) (lex_string r2)
                  | None => None
                  end
              | _ => None
              end
            else
              match backslash e with
              | Some v => push (v, false) (lex_string r1)
              | None => None
              end
        end
      else if c <? 32 then None
      else push (c, false) (lex_string r)
  end.

Definition is_high (u : Z) : bool := (0xD800 <=? u) && (u <=? 0xDBFF).
Definition is_low (u : Z) : bool := (0xDC00 <=? u) && (u <=? 0xDFFF).

(** An escaped high surrogate directly followed by an escaped low one is
    one character. *)
Fixpoint join_surrogates (us : list (Z * bool)) : str :=
  match us with
  | [] => []
  | (u, esc) :: tl =>
      match tl with
      | (u2, true) :: tl2 =>
          if esc && is_high u && is_low u2 then
            (0x10000 + Z.lor (Z.shiftl (u - 0xD800) 10) (u2 - 0xDC00))
              :: join_surrogates tl2
          else u :: join_surrogates tl
      | _ => u :: join_surrogates tl
      end
  end.

(** [scanstring], entered after the opening quote. *)
Definition scanstring (s : str) : option (str * str) :=
  match lex_string s with
  | Some (us, r) => Some (join_surrogates us, r)
  | None => None
  end.

(** ** [json.dumps] *)

(** [sep.join(parts)] *)
Fixpoint join (sep : str) (parts : list str) : str :=
  match parts with
  | [] => []
  | [p] => p
  | p :: rest => p ++ sep ++ join sep rest
  end.

(** [json.dumps(data)] with the defaults: [ensure_ascii], item separator
    [", "], key separator [": "], keys in dictionary order. *)
Fixpoint dumps (j : json) : str :=
  match j with
  | JNull => lit "null"
  | JBool true => lit "true"
  | JBool false => lit "false"
  | JInt z => int_chars (Z.to_int z)
  | JFloat f => float_chars f
  | JStr s => quote s
  | JList l => 91 :: join (lit ", ") (map dumps l) ++ [93]
  | JDict d =>
      123 :: join (lit ", ")
               (map (fun kv => quote (fst kv) ++ lit ": " ++ dumps (snd kv)) d)
          ++ [125]
  end.

(** ** [json.loads] *)

(** [WHITESPACE.match]: blanks, tabs, line feeds, carriage returns. *)
Definition is_ws (c : Z) : bool :=
  (c =? 32) || (c =? 9) || (c =? 10) || (c =? 13).

Fixpoint skip_ws (s : str) : str :=
  match s with
  | c :: r => if is_ws c then skip_ws r else s
  | [] => []
  end.

(** [s[idx:idx+len(p)] == p], with the text after [p]. *)
Fixpoint strip_prefix (p s : str) : option str :=
  match p, s with
  | [], _ => Some s
  | a :: p', b :: s' => if a =? b then strip_prefix p' s' else None
  | _ :: _, [] => None
  end.

(** What [scan_once] does when the next character opens no string, array
    or object. *)
Definition scan_atom (s : str) : option (json * str) :=
  match strip_prefix (lit "null") s with
  | Some r => Some (JNull, r)
  | None =>
  match strip_prefix (lit "true") s with
  | Some r => Some (JBool true, r)
  | None =>
  match strip_prefix (lit "false") s with
  | Some r => Some (JBool false, r)
  | None =>
  match match_number s with
  | Some res => Some res
  | None =>
  match strip_prefix (lit "NaN") s with
  | Some r => Some (JFloat NaN, r)
  | None =>
  match strip_prefix (lit "Infinity") s with
  | Some r => Some (JFloat PosInf, r)
  | None =>
  match strip_prefix (lit "-Infinity") s with
  | Some r => Some (JFloat NegInf, r)
  | None => None
  end end end end end end end.

(** The recursive-descent decoder: [scan_once] reads one value,
    [array_items] the elements of an array from its first element on,
    [object_items] the members of an object from just after the opening
    quote of a key.  [None] is [JSONDecodeError].  The recursion of the
    decoder follows the nesting of the text; here it is bounded by [fuel],
    which [loads] sets from the length of the text. *)
Fixpoint scan_once (fuel : nat) (s : str) {struct fuel} : option (json * str) :=
  match fuel with
  | O => None
  | S n =>
      match s with
      | [] => None
      | c :: r =>
          if c =? 34 then
            match scanstring r with
            | Some (k, r') => Some (JStr k, r')
            | None => None
            end
          else if c =? 123 then
            match skip_ws r with
            | c' :: r' =>
                if c' =? 125 then Some (JDict [], r')
                else if c' =? 34 then
                  match object_items n r' with
                  | Some (ps, r'') => Some (JDict (Dict.of_pairs str_eqb ps), r'')
                  | None => None
                  end
                else None
            | [] => None
            end
          else if c =? 91 then
            match skip_ws r with
            | c' :: r' =>
                if c' =? 93 then Some (JList [], r')
                else
                  match array_items n (c' :: r') with
                  | Some (vs, r'') => Some (JList vs, r'')
                  | None => None
                  end
            | [] => None
            end
          else scan_atom s
      end
  end
with array_items (fuel : nat) (s : str) {struct fuel} : option (list json * str) :=
  match fuel with
  | O => None
  | S n =>
      match scan_once n s with
      | None => None
      | Some (v, r) =>
          match skip_ws r with
          | c :: r' =>
              if c =? 93 then Some ([v], r')
              else if c =? 44 then
                match array_items n (skip_ws r') with
                | Some (vs, r'') => Some (v :: vs, r'')
                | None => None
                end
              else None
          | [] => None
          end
      end
  end
with object_items (fuel : nat) (s : str) {struct fuel} :
  option (list (str * json) * str) :=
  match fuel with
  | O => None
  | S n =>
      match scanstring s with
      | None => None
      | Some (k, r) =>
          match skip_ws r with
          | c :: r1 =>
              if c =? 58 then
                match scan_once n (skip_ws r1) with
                | None => None
                | Some (v, r2) =>
                    match skip_ws r2 with
                    | c' :: r3 =>
                        if c' =? 125 then Some ([(k, v)], r3)
                        else if c' =? 44 then
                          match skip_ws r3 with
                          | q :: r4 =>
                              if q =? 34 then
                                match object_items n r4 with
                                | Some (ps, r5) => Some ((k, v) :: ps, r5)
                                | None => None
                                end
                              else None
                          | [] => None
                          end
                        else None
                    | [] => None
                    end
                end
              else None
          | [] => None
          end
      end
  end.

(** [s.startswith('\ufeff')] *)
Definition has_bom (s : str) : bool :=
  match s with
  | c :: _ => c =? 0xFEFF
  | [] => false
  end.

(** [json.loads(s)]: no byte-order mark, one value, nothing but white
    space after it. *)
Definition loads (s : str) : option json :=
  if has_bom s then None
  else
    match scan_once (2 * S (List.length s)) (skip_ws s) with
    | Some (v, r) =>
        match skip_ws r with
        | [] => Some v
        | _ :: _ => None
        end
    | None => None
    end.

(** ** Truth values and attribute access, as the handlers use them *)

(** [float(literal)] is the double nearest to the number the literal
    denotes, ties to even: it is [0.0] exactly when the magnitude is at most
    [2^-1075], half of the smallest positive double.  The digits of the
    integer part and of the fraction, read as one number [m], and the
    exponent less the number of fraction digits, [x], give the magnitude
    [m * 10^x]. *)
Definition rounds_to_zero (d : Decimal.decimal) : bool :=
  let '(i, fr, e) :=
    match d with
    | Decimal.Decimal i fr => (i, fr, 0)
    | Decimal.DecimalExp i fr e => (i, fr, Z.of_int e)
    end in
  let m := Z.of_uint (Decimal.app (Decimal.abs i) fr) in
  let x := e - Z.of_nat (Decimal.nb_digits fr) in
  (m =? 0) || ((x <? 0) && (m * 2 ^ 1075 <=? 10 ^ (- x))).

(** [bool(f)]: false for a zero only; an infinity and a NaN are true. *)
Definition float_truthy (f : pyfloat) : bool :=
  match f with
  | Finite d => negb (rounds_to_zero d)
  | _ => true
  end.

(** [bool(x)]: what [if not message_data] tests. *)
Definition truthy (j : json) : bool :=
  match j with
  | JNull => false
  | JBool b => b
  | JInt z => negb (z =? 0)
  | JFloat f => float_truthy f
  | JStr s => negb (str_eqb s [])
  | JList l => match l with [] => false | _ => true end
  | JDict d => match d with [] => false | _ => true end
  end.

(** ** Well-formed message values

    Code points are in the Unicode range and no high surrogate is directly
    followed by a low one (text that came through UTF-8 or through
    [json.loads] never has such a pair: the two would be one character). *)
Fixpoint wf_str (s : str) : Prop :=
  match s with
  | [] => True
  | c :: r =>
      0 <= c <= 0x10FFFF /\
      match r with
      | c' :: _ => ~ (is_high c = true /\ is_low c' = true)
      | [] => True
      end /\ wf_str r
  end.

Definition canonical (u : Decimal.uint) : Prop := Decimal.unorm u = u.

(** A finite float prints as a number with a fraction or an exponent whose
    integer part has no leading zero; [NaN] differs from itself, so a
    message that holds it is not equal to anything. *)
Definition wf_float (f : pyfloat) : Prop :=
  match f with
  | Finite (Decimal.Decimal i fr) =>
      canonical (Decimal.abs i) /\ fr <> Decimal.Nil
  | Finite (Decimal.DecimalExp i fr (Decimal.Pos e))
  | Finite (Decimal.DecimalExp i fr (Decimal.Neg e)) =>
      canonical (Decimal.abs i) /\ e <> Decimal.Nil
  | PosInf | NegInf => True
  | NaN => False
  end.

(** Keys of a dictionary are distinct. *)
Fixpoint wf (j : json) : Prop :=
  match j with
  | JNull | JBool _ | JInt _ => True
  | JFloat f => wf_float f
  | JStr s => wf_str s
  | JList l => (fix all (l : list json) : Prop :=
                  match l with
                  | [] => True
                  | x :: r => wf x /\ all r
                  end) l
  | JDict d => NoDup (map fst d) /\
               (fix all (d : list (str * json)) : Prop :=
                  match d with
                  | [] => True
                  | kv :: r => (wf_str (fst kv) /\ wf (snd kv)) /\ all r
                  end) d
  end.

(** ** Frames *)

(** [json.dumps(data) + '\n'], the text both [send_message] methods build. *)
Definition frame (data : json) : str := dumps data ++ [10].

(** [(json.dumps(data) + '\n').encode('utf-8')] *)
Definition encode (data : json) : option bytes := encode_utf8 (frame data).

End Json.

(* ================================================================== *)
(** * Server: [ChatServer] *)
(* ================================================================== *)

Module Server.
Import Text Json.

(** ** The world the handlers run in *)

(** A connection is known by its socket handle. *)
Definition sock := nat.

(** What one [recv(1024)] call on a socket yields: some bytes (none at all
    when the peer has closed), [socket.timeout], or a reset.  The socket's
    timeouts ([settimeout(30)], [settimeout(1.0)]) are not a separate
    state: a wait that runs out is a [TimedOut] event, and so is a queue
    with nothing left in it. *)
Inductive recv_event : Type :=
| Data (bs : bytes)
| TimedOut
| PeerReset.

Record conn : Type := mkConn {
  incoming : list recv_event;  (* what the peer will have sent *)
  broken : bool;               (* [send] raises: the peer is gone *)
  closed : bool                (* [close()] was called on the socket *)
}.

Record world : Type := mkWorld {
  clients : list (sock * str);  (* [self.clients]: socket -> username *)
  lock_held : bool;             (* [self.clients_lock] *)
  running : bool;               (* [self.running] *)
  net : sock -> conn;
  sent : list (sock * bytes);   (* every successful [socket.send], in order *)
  clock : nat -> pyfloat;       (* what the successive calls of [time.time()]
                                   return: the first, the second, ... *)
  ticks : nat                   (* how many calls were made so far *)
}.

Definition set_clients (c : list (sock * str)) (w : world) : world :=
  mkWorld c (lock_held w) (running w) (net w) (sent w) (clock w) (ticks w).
Definition set_lock (b : bool) (w : world) : world :=
  mkWorld (clients w) b (running w) (net w) (sent w) (clock w) (ticks w).
Definition set_conn (s : sock) (c : conn) (w : world) : world :=
  mkWorld (clients w) (lock_held w) (running w)
          (fun s' => if Nat.eqb s' s then c else net w s') (sent w) (clock w)
          (ticks w).
Definition log_send (s : sock) (bs : bytes) (w : world) : world :=
  mkWorld (clients w) (lock_held w) (running w) (net w)
          (sent w ++ [(s, bs)]) (clock w) (ticks w).
Definition tick (w : world) : world :=
  mkWorld (clients w) (lock_held w) (running w) (net w) (sent w) (clock w)
          (S (ticks w)).

(** ** Exceptions and the handler monad *)

Inductive exn : Type :=
| SocketTimeout          (* [socket.timeout] *)
| ConnectionResetError   (* and [ConnectionAbortedError] *)
| OSError
| UnicodeError
| JSONDecodeError
| AttributeError.

(** A handler returns, raises, or waits for ever on a lock that is never
    released ([threading.Lock] is not re-entrant). *)
Inductive outcome (A : Type) : Type :=
| Ok (a : A) (w : world)
| Raised (e : exn) (w : world)
| Blocked (w : world).
Arguments Ok {A} a w.
Arguments Raised {A} e w.
Arguments Blocked {A} w.

Definition M (A : Type) : Type := world -> outcome A.

Definition ret {A : Type} (a : A) : M A := fun w => Ok a w.

Definition bind {A B : Type} (m : M A) (f : A -> M B) : M B :=
  fun w =>
    match m w with
    | Ok a w' => f a w'
    | Raised e w' => Raised e w'
    | Blocked w' => Blocked w'
    end.

Definition raise {A : Type} (e : exn) : M A := fun w => Raised e w.

(** [try: m  except Exception as e: h e] *)
Definition try_except {A : Type} (m : M A) (h : exn -> M A) : M A :=
  fun w =>
    match m w with
    | Raised e w' => h e w'
    | o => o
    end.

Definition gets {A : Type} (f : world -> A) : M A := fun w => Ok (f w) w.
Definition modify (f : world -> world) : M unit := fun w => Ok tt (f w).

Declare Scope handler_scope.
Delimit Scope handler_scope with handler.
Notation "x <- m ;; k" := (bind m (fun x => k))
  (at level 61, m at next level, right associativity) : handler_scope.
Notation "m ;; k" := (bind m (fun _ => k))
  (at level 61, right associativity) : handler_scope.
Local Open Scope handler_scope.

(** [with self.clients_lock: body] *)
Definition with_lock {A : Type} (body : M A) : M A :=
  fun w =>
    if lock_held w then Blocked w
    else
      match body (set_lock true w) with
      | Ok a w' => Ok a (set_lock false w')
      | Raised e w' => Raised e (set_lock false w')
      | Blocked w' => Blocked w'
      end.

(** ** Sockets and the clock *)

(** A socket that takes what is written to it. *)
Definition live (w : world) (s : sock) : bool :=
  negb (closed (net w s)) && negb (broken (net w s)).

(** [client_socket.send(bs)] *)
Definition sock_send (s : sock) (bs : bytes) : M unit :=
  fun w =>
    if closed (net w s) then Raised OSError w
    else if broken (net w s) then Raised ConnectionResetError w
    else Ok tt (log_send s bs w).

(** [client_socket.close()] *)
Definition sock_close (s : sock) : M unit :=
  modify (fun w =>
    set_conn s (mkConn (incoming (net w s)) (broken (net w s)) true) w).

(** [time.time()]: the next reading of the clock; no two calls need
    return the same. *)
Definition time_time : M pyfloat :=
  fun w => Ok (clock w (ticks w)) (tick w).

(** ** [send_message] (server.py 169-175) *)

Definition send_message (s : sock) (data : json) : M unit :=
  try_except
    (match encode data with
     | Some bs => sock_send s bs
     | None => raise UnicodeError
     end)
    (fun _ => ret tt).

(** ** [receive_message] (server.py 177-200) *)

Inductive read_result : Type :=
| Line (buffer : str)   (* the loop ended: the buffer holds a line feed *)
| Eof                   (* an empty chunk: [return None] *)
| Failed (e : exn).     (* [recv] or [decode] raised *)

(** The loop [while '\n' not in buffer], over the events that the
    successive calls of [recv(1024)] meet; with the result, the events
    that are still to come. *)
Fixpoint read_loop (buffer : str) (evs : list recv_event) :
  read_result * list recv_event :=
  if mem 10 buffer then (Line buffer, evs)
  else
    match evs with
    | [] => (Failed SocketTimeout, [])
    | TimedOut :: r => (Failed SocketTimeout, r)
    | PeerReset :: r => (Failed ConnectionResetError, r)
    | Data bs :: r =>
        match decode_utf8 bs with
        | None => (Failed UnicodeError, r)
        | Some [] => (Eof, r)
        | Some chunk => read_loop (buffer ++ chunk) r
        end
    end.

(** The body of the [try]: the buffer is a local variable, and what follows
    the first line feed in it ([remaining]) is dropped when the function
    returns. *)
Definition receive_message_body (s : sock) : M (option json) :=
  fun w =>
    if closed (net w s) then Raised OSError w
    else
      let (res, rest) := read_loop [] (incoming (net w s)) in
      let w' := set_conn s (mkConn rest (broken (net w s)) (closed (net w s))) w in
      match res with
      | Failed e => Raised e w'
      | Eof => Ok None w'
      | Line buffer =>
          let (message, remaining) := split_first 10 buffer in
          match loads message with
          | Some v => Ok (Some v) w'
          | None => Raised JSONDecodeError w'
          end
      end.

Definition receive_message (s : sock) : M (option json) :=
  try_except (receive_message_body s)
    (fun e =>
       match e with
       | JSONDecodeError => ret None
       | _ => ret None
       end).

(** ** Attribute access on decoded values *)

(** [data.get(k)]: only a [dict] has the method. *)
Definition py_get (data : json) (k : str) : M (option json) :=
  match data with
  | JDict d => ret (Dict.get str_eqb k d)
  | _ => raise AttributeError
  end.

(** [v.strip()]: only a [str] has the method. *)
Definition py_strip (v : json) : M str :=
  match v with
  | JStr s => ret (strip s)
  | _ => raise AttributeError
  end.

(** [v == 'text'] *)
Definition is_str (text : str) (v : option json) : bool :=
  match v with
  | Some (JStr s) => str_eqb s text
  | _ => false
  end.

Definition or_default (d : json) (v : option json) : json :=
  match v with Some x => x | None => d end.

(** ** The messages the server builds *)

Definition error_msg (text : str) : json :=
  JDict [(lit "type", JStr (lit "error")); (lit "message", JStr text)].

Definition user_joined_msg (username : str) (t : pyfloat) : json :=
  JDict [(lit "type", JStr (lit "user_joined"));
         (lit "username", JStr username);
         (lit "message", JStr (username ++ lit " joined the chat"));
         (lit "timestamp", JFloat t)].

Definition welcome_msg (username : str) (users : list str) (t : pyfloat) : json :=
  JDict [(lit "type", JStr (lit "welcome"));
         (lit "message", JStr (lit "Welcome to the chat, " ++ username ++ lit "!"));
         (lit "users", JList (map JStr users));
         (lit "timestamp", JFloat t)].

Definition chat_msg (username content : str) (t : pyfloat) : json :=
  JDict [(lit "type", JStr (lit "chat"));
         (lit "username", JStr username);
         (lit "message", JStr content);
         (lit "timestamp", JFloat t)].

Definition user_left_msg (username : str) (t : pyfloat) : json :=
  JDict [(lit "type", JStr (lit "user_left"));
         (lit "username", JStr username);
         (lit "message", JStr (username ++ lit " left the chat"));
         (lit "timestamp", JFloat t)].

Definition pong_msg : json := JDict [(lit "type", JStr (lit "pong"))].

(** ** [disconnect_client] and [broadcast_message] (server.py 202-238)

    The two call each other: the broadcast cleans up through
    [disconnect_client(..., notify=False)] and a disconnection with
    [notify] announces itself through the broadcast.  [disconnect_with]
    is [disconnect_client] with the broadcast it may call as a parameter. *)

(** [client_socket != exclude] *)
Definition differs (s : sock) (exclude : option sock) : bool :=
  match exclude with Some x => negb (Nat.eqb s x) | None => true end.

(** [if username], on a name that may be [None]. *)
Definition name_set (username : option str) : bool :=
  match username with Some (_ :: _) => true | _ => false end.

(** The function has no [return]: on every path the caller gets [None]. *)
Definition disconnect_with (broadcast : json -> option sock -> M unit)
  (s : sock) (username : option str) (notify : bool) : M (option str) :=
  try_except
    (with_lock
       (present <- gets (fun w => Dict.has Nat.eqb s (clients w)) ;;
        if present
        then modify (fun w => set_clients (Dict.del Nat.eqb s (clients w)) w)
        else ret tt) ;;
     sock_close s ;;
     match username with
     | Some name =>
         if name_set username && notify then
           t <- time_time ;;
           broadcast (user_left_msg name t) None ;;
           ret None
         else ret None
     | None => ret None
     end)
    (fun _ => ret None).

(** The first loop of [broadcast_message]: the sockets whose send raised. *)
Fixpoint broadcast_loop (data : json) (exclude : option sock)
  (socks : list sock) : M (list sock) :=
  match socks with
  | [] => ret []
  | s :: rest =>
      failed <- (if differs s exclude
                 then try_except (send_message s data ;; ret [])
                                 (fun _ => ret [s])
                 else ret []) ;;
      others <- broadcast_loop data exclude rest ;;
      ret (failed ++ others)
  end.

(** The second loop: [disconnect_client(client_socket, username,
    notify=False)] for each of them, the lock still held. *)
Fixpoint cleanup_loop (disconnected : list sock) : M unit :=
  match disconnected with
  | [] => ret tt
  | s :: rest =>
      username <- gets (fun w => Dict.get Nat.eqb s (clients w)) ;;
      disconnect_with (fun _ _ => ret tt) s username false ;;
      cleanup_loop rest
  end.

Definition broadcast_message (data : json) (exclude : option sock) : M unit :=
  with_lock
    (socks <- gets (fun w => Dict.keys (clients w)) ;;
     disconnected <- broadcast_loop data exclude socks ;;
     cleanup_loop disconnected).

Definition disconnect_client (s : sock) (username : option str)
  (notify : bool) : M (option str) :=
  disconnect_with broadcast_message s username notify.

(** ** [get_username] (server.py 117-146) *)

Definition invalid_username : json := error_msg (lit "Invalid username").
Definition username_taken : json := error_msg (lit "Username already taken").

(** [username in self.clients.values()] *)
Definition name_in_use (username : str) (w : world) : bool :=
  existsb (str_eqb username) (Dict.values (clients w)).

Definition get_username (s : sock) : M (option str) :=
  try_except
    (username_data <- receive_message s ;;
     is_join <- (match username_data with
                 | Some data =>
                     if truthy data
                     then ty <- py_get data (lit "type") ;;
                          ret (is_str (lit "join") ty)
                     else ret false
                 | None => ret false
                 end) ;;
     match username_data, is_join with
     | Some data, true =>
         v <- py_get data (lit "username") ;;
         username <- py_strip (or_default (JStr []) v) ;;
         if negb (str_eqb username []) && (Nat.leb (List.length username) 20)
         then
           taken <- with_lock
                      (used <- gets (name_in_use username) ;;
                       if used
                       then send_message s username_taken ;; ret true
                       else ret false) ;;
           if taken then ret None else ret (Some username)
         else send_message s invalid_username ;; ret None
     | _, _ => send_message s invalid_username ;; ret None
     end)
    (fun _ => ret None).

(** ** [process_message] (server.py 148-167) *)

Definition process_message (s : sock) (username : str) (message_data : json) :
  M unit :=
  message_type <- py_get message_data (lit "type") ;;
  if is_str (lit "chat") message_type then
    v <- py_get message_data (lit "message") ;;
    content <- py_strip (or_default (JStr []) v) ;;
    if negb (str_eqb content []) then
      t <- time_time ;;
      broadcast_message (chat_msg username content t) None
    else ret tt
  else if is_str (lit "ping") message_type then
    send_message s pong_msg
  else ret tt.

(** ** [handle_client] (server.py 64-115)

    The handler of one connection, cut where it takes or leaves the lock
    or waits for the peer, so that the handlers of several connections can
    be run one piece at a time. *)

Inductive pc : Type :=
| Connected                      (* before [get_username] *)
| Checked (username : str)       (* the name passed the check, line 70 *)
| Registered (username : str)    (* [self.clients[client_socket] = username] done *)
| Active (username : str)        (* in the message loop *)
| Closing (username : option str)(* at [finally] *)
| Closed.

(** Lines 75-76. *)
Definition register (s : sock) (username : str) : M unit :=
  with_lock
    (modify (fun w => set_clients (Dict.set Nat.eqb s username (clients w)) w)).

(** Lines 79-92: the notice to the others, then the welcome. *)
Definition announce (s : sock) (username : str) : M unit :=
  t <- time_time ;;
  broadcast_message (user_joined_msg username t) (Some s) ;;
  users <- gets (fun w => Dict.values (clients w)) ;;
  t' <- time_time ;;
  send_message s (welcome_msg username users t').

(** One turn of [while self.running] (lines 95-110): [true] to go on. *)
Definition loop_turn (s : sock) (username : str) : M bool :=
  try_except
    (message_data <- receive_message s ;;
     match message_data with
     | Some data =>
         if truthy data
         then process_message s username data ;; ret true
         else ret false
     | None => ret false
     end)
    (fun e =>
       match e with
       | SocketTimeout => ret true
       | _ => ret false
       end).

(** The next piece of the handler of connection [s]. *)
Definition thread_step (s : sock) (p : pc) : M pc :=
  match p with
  | Connected =>
      username <- get_username s ;;
      match username with
      | Some (c :: r) => ret (Checked (c :: r))
      | _ => ret (Closing username)
      end
  | Checked username =>
      try_except (register s username ;; ret (Registered username))
                 (fun _ => ret (Closing (Some username)))
  | Registered username =>
      try_except (announce s username ;; ret (Active username))
                 (fun _ => ret (Closing (Some username)))
  | Active username =>
      go <- gets running ;;
      if go then
        again <- loop_turn s username ;;
        ret (if again then Active username else Closing (Some username))
      else ret (Closing (Some username))
  | Closing username =>
      disconnect_client s username true ;; ret Closed
  | Closed => ret Closed
  end.

(** What follows an accepted name: lines 74-92. *)
Definition accept (s : sock) (username : str) : M unit :=
  register s username ;; announce s username.

(** The join as [handle_client] runs it when no other handler comes in
    between: lines 70-92. *)
Definition join (s : sock) : M (option str) :=
  username <- get_username s ;;
  match username with
  | Some (c :: r) => accept s (c :: r) ;; ret username
  | _ => ret None
  end.

(** [handle_client] from start to end, alone on the processor; [turns]
    bounds the pieces run. *)
Fixpoint run_thread (turns : nat) (s : sock) (p : pc) : M pc :=
  match turns with
  | O => ret p
  | S n =>
      match p with
      | Closed => ret Closed
      | _ => p' <- thread_step s p ;; run_thread n s p'
      end
  end.

Definition handle_client (turns : nat) (s : sock) : M pc :=
  run_thread turns s Connected.

(** ** Several handlers at once *)

(** The server with its handler threads: the world and where each handler
    stands.  A schedule names, piece after piece, the connection whose
    handler runs next. *)
Record system : Type := mkSystem {
  sys_world : world;
  sys_pc : sock -> pc
}.

Definition sched_step (sys : system) (s : sock) : system :=
  match thread_step s (sys_pc sys s) (sys_world sys) with
  | Ok p w =>
      mkSystem w (fun s' => if Nat.eqb s' s then p else sys_pc sys s')
  | Raised _ w | Blocked w => mkSystem w (sys_pc sys)
  end.

Definition run_schedule (schedule : list sock) (sys : system) : system :=
  fold_left sched_step schedule sys.

(** The registry invariant of the specification: no two sessions under one
    display name. *)
Definition unique_names (w : world) : Prop :=
  NoDup (Dict.values (clients w)).

End Server.

(** * Client: the framing half of [ChatClient] *)

Module Client.
Import Text Json.

Record client : Type := mkClient {
  socket : option Server.conn;   (* [self.socket], [None] when not connected *)
  outgoing : list bytes;         (* every successful [socket.send], in order *)
  running : bool
}.

(** The messages the client builds ([connect], [send_messages]). *)
Definition join_message (username : str) : json :=
  JDict [(lit "type", JStr (lit "join")); (lit "username", JStr username)].

Definition chat_message (user_input : str) : json :=
  JDict [(lit "type", JStr (lit "chat")); (lit "message", JStr user_input)].

Definition ping_message : json := JDict [(lit "type", JStr (lit "ping"))].

(** [send_message] (client.py 196-208) *)
Definition send_message (data : json) (c : client) : bool * client :=
  match socket c with
  | None => (false, c)
  | Some k =>
      match encode data with
      | None => (false, c)
      | Some bs =>
          if Server.closed k || Server.broken k then (false, c)
          else (true, mkClient (socket c) (outgoing c ++ [bs]) (running c))
      end
  end.

(** [receive_message] (client.py 210-243): the same loop as the server's,
    the same local buffer, and [None] on a timeout, on a closed
    connection and on text that does not parse. *)
Definition receive_message (c : client) : option json * client :=
  match socket c with
  | None => (None, c)
  | Some k =>
      if Server.closed k then (None, c)
      else
        let (res, rest) := Server.read_loop [] (Server.incoming k) in
        let c' := mkClient
                    (Some (Server.mkConn rest (Server.broken k) (Server.closed k)))
                    (outgoing c) (running c) in
        match res with
        | Server.Line buffer =>
            let (message, remaining) := split_first 10 buffer in
            (loads message, c')
        | _ => (None, c')
        end
  end.

End Client.


(* ================================================================== *)
(** * Notions used to state the codec lemmas *)
(* ================================================================== *)

Module JsonAux.
Import Text Json.

(** The two halves [encode_basestring_ascii] writes for a character above
    the basic plane. *)
Definition hi_surrogate (c : Z) : Z :=
  Z.lor 0xD800 (Z.land (Z.shiftr (c - 0x10000) 10) 0x3FF).
Definition lo_surrogate (c : Z) : Z :=
  Z.lor 0xDC00 (Z.land (c - 0x10000) 0x3FF).

Definition short_escape (c : Z) : bool :=
  (c =? 34) || (c =? 92) || (c =? 10) || (c =? 13) || (c =? 9) || (c =? 8)
  || (c =? 12).

(** The code units [lex_string] finds in the escaped form of [c]. *)
Definition units (c : Z) : list (Z * bool) :=
  if short_escape c || ((32 <=? c) && (c <=? 126)) then [(c, false)]
  else if c <? 0x10000 then [(c, true)]
  else [(hi_surrogate c, true); (lo_surrogate c, true)].

Definition push_all {A : Type} (l : list A) (r : option (list A * str)) :
  option (list A * str) :=
  match r with Some (l', s) => Some (l ++ l', s) | None => None end.

(** The units do not open with an escaped low surrogate. *)
Definition no_low_head (us : list (Z * bool)) : Prop :=
  match us with
  | (u, true) :: _ => is_low u = false
  | _ => True
  end.

(** The text does not go on with a digit. *)
Definition no_digit_head (s : str) : Prop :=
  match s with [] => True | c :: _ => digit_of c = None end.

(** The text cannot continue a number: it is empty or opens with something
    else than a digit, a point or an exponent mark. *)
Definition number_end (s : str) : Prop :=
  match s with
  | [] => True
  | c :: _ => digit_of c = None /\ c <> 46 /\ c <> 101 /\ c <> 69
  end.

(** The value [match_number] makes of the three parts of a number. *)
Definition number_value (i : Decimal.int) (fr : Decimal.uint)
  (ex : option Decimal.int) : json :=
  match ex with
  | Some e => JFloat (Finite (Decimal.DecimalExp i fr e))
  | None =>
      if is_nil fr then JInt (Z.of_int i)
      else JFloat (Finite (Decimal.Decimal i fr))
  end.

(** The characters a printed value can open with. *)
Definition value_start (c : Z) : bool :=
  (c =? 34) || (c =? 123) || (c =? 91) || (c =? 45)
  || ((48 <=? c) && (c <=? 57))
  || (c =? 110) || (c =? 116) || (c =? 102) || (c =? 73) || (c =? 78).

(** The text opens like a number: a minus sign or a digit. *)
Definition num_head (s : str) : Prop :=
  exists c r, s = c :: r /\ (c = 45 \/ 48 <= c <= 57).

(** [scan_once] reads [j] back from its printed form, whatever text
    follows, once it is given enough [fuel] for the length of the form. *)
Definition reads_back (j : json) : Prop :=
  forall fuel rest,
    (S (2 * List.length (dumps j)) <= fuel)%nat -> number_end rest ->
    scan_once fuel (dumps j ++ rest) = Some (j, rest).

Definition sep : str := lit ", ".

(** One member of a printed object, and the same from after the opening
    quote of its key. *)
Definition member (kv : str * json) : str :=
  quote (fst kv) ++ lit ": " ++ dumps (snd kv).
Definition member_body (kv : str * json) : str :=
  flat_map escape_char (fst kv) ++ 34 :: 58 :: 32 :: dumps (snd kv).

(** Printable ASCII: what a frame is made of before its terminator. *)
Definition printable (s : str) : Prop := Forall (fun c => 32 <= c <= 126) s.

(** A decoder call that succeeds with some fuel succeeds, with the same
    result, with any fuel of at least twice the number of characters it
    consumed. *)
Definition enough {A : Type} (f : nat -> str -> option (A * str)) (n : nat) : Prop :=
  forall s v r,
    f n s = Some (v, r) ->
    (List.length r < List.length s)%nat /\
    forall m, (2 * (List.length s - List.length r) <= m)%nat -> f m s = Some (v, r).

End JsonAux.

(* ================================================================== *)
(** * Notions used to state the server lemmas *)
(* ================================================================== *)

Module ServerAux.
Import Text Json Server.

(** The sockets a broadcast reaches: registered, not excluded, and live. *)
Definition recipients (w : world) (exclude : option sock) : list sock :=
  filter (fun s => differs s exclude && live w s) (Dict.keys (clients w)).

(** The world after the frame of [data] was written to each of [to]. *)
Definition deliver (data : json) (to : list sock) (w : world) : world :=
  mkWorld (clients w) (lock_held w) (running w) (net w)
          (sent w ++ map (fun s => (s, frame data)) to) (clock w) (ticks w).

(** The world after [disconnect_client] has dropped the entry of [s] and
    closed the socket. *)
Definition unregister (s : sock) (w : world) : world :=
  set_conn s (mkConn (incoming (net w s)) (broken (net w s)) true)
    (set_clients (Dict.del Nat.eqb s (clients w)) w).

(** What [receive_message] returns and the world it leaves. *)
Definition received (s : sock) (w : world) : option json * world :=
  if closed (net w s) then (None, w)
  else
    let (res, rest) := read_loop [] (incoming (net w s)) in
    let w' := set_conn s (mkConn rest (broken (net w s)) (closed (net w s))) w in
    match res with
    | Line buffer => (loads (fst (split_first 10 buffer)), w')
    | _ => (None, w')
    end.

(** What [get_username] makes of what it received. *)
Inductive verdict : Type :=
| Accepted (username : str)
| Taken        (* the reply is "Username already taken" *)
| Invalid      (* the reply is "Invalid username" *)
| Crashed.     (* an exception: [None] is returned and nothing is sent *)

Definition verdict_of (data : option json) (w : world) : verdict :=
  match data with
  | None => Invalid
  | Some (JDict d) =>
      if negb (truthy (JDict d)) then Invalid
      else if is_str (lit "join") (Dict.get str_eqb (lit "type") d) then
        match or_default (JStr []) (Dict.get str_eqb (lit "username") d) with
        | JStr u =>
            if negb (str_eqb (strip u) []) && Nat.leb (List.length (strip u)) 20
            then if name_in_use (strip u) w then Taken else Accepted (strip u)
            else Invalid
        | _ => Crashed
        end
      else Invalid
  | Some j => if truthy j then Crashed else Invalid
  end.

(** The world after a reply to [s]. *)
Definition reply (s : sock) (data : json) (w : world) : world :=
  if live w s then deliver data [s] w else w.

End ServerAux.

(* ================================================================== *)
(** * Scenarios and the properties the specification words *)
(* ================================================================== *)

(** Concrete worlds on which the handlers are run. *)
Module Scenario.
Import Text Json Server.

Definition alice : str := lit "alice".
Definition bob : str := lit "bob".
Definition carol : str := lit "carol".

(** A clock reading, [1700000000.5]. *)
Definition noon : pyfloat :=
  Finite (Decimal.Decimal
            (Decimal.Pos (Decimal.D1 (Decimal.D7 (Decimal.D0 (Decimal.D0
              (Decimal.D0 (Decimal.D0 (Decimal.D0 (Decimal.D0 (Decimal.D0
                (Decimal.D0 Decimal.Nil)))))))))))
            (Decimal.D5 Decimal.Nil)).

(** The clock of the scenarios: the call number [n] of [time.time()]
    returns [noon] and [n] seconds (and stays at nine seconds after the
    ninth). *)
Definition seconds (n : nat) : Decimal.uint :=
  match n with
  | 0%nat => Decimal.D0 Decimal.Nil
  | 1%nat => Decimal.D1 Decimal.Nil
  | 2%nat => Decimal.D2 Decimal.Nil
  | 3%nat => Decimal.D3 Decimal.Nil
  | 4%nat => Decimal.D4 Decimal.Nil
  | 5%nat => Decimal.D5 Decimal.Nil
  | 6%nat => Decimal.D6 Decimal.Nil
  | 7%nat => Decimal.D7 Decimal.Nil
  | 8%nat => Decimal.D8 Decimal.Nil
  | _ => Decimal.D9 Decimal.Nil
  end.

Definition readings (n : nat) : pyfloat :=
  Finite (Decimal.Decimal
            (Decimal.Pos (Decimal.D1 (Decimal.D7 (Decimal.D0 (Decimal.D0
              (Decimal.D0 (Decimal.D0 (Decimal.D0 (Decimal.D0 (Decimal.D0
                (seconds n)))))))))))
            (Decimal.D5 Decimal.Nil)).

Definition quiet : conn := mkConn [] false false.
Definition dead : conn := mkConn [] true false.

(** A connection whose peer has written the given frames, one per
    segment. *)
Definition sending (frames : list json) : conn :=
  mkConn (map (fun m => Data (frame m)) frames) false false.

(** A connection on which the peer's frames arrive in one segment. *)
Definition sending_at_once (frames : list json) : conn :=
  mkConn [Data (flat_map frame frames)] false false.

(** A running server with the given registry and connections. *)
Definition server (registry : list (sock * str)) (conns : list (sock * conn)) :
  world :=
  mkWorld registry false true
          (fun s => match Dict.get Nat.eqb s conns with
                    | Some c => c
                    | None => quiet
                    end)
          [] readings 0.

(** Two connections ask for the name alice at the same time. *)
Definition two_joiners : system :=
  mkSystem
    (server [] [(1%nat, sending [Client.join_message alice]);
                (2%nat, sending [Client.join_message alice])])
    (fun _ => Connected).

(** The handlers of the two run their pieces in alternation, or one after
    the other. *)
Definition racing : system := run_schedule [1; 2; 1; 2; 1; 2]%nat two_joiners.
Definition in_turn : system := run_schedule [1; 1; 1; 2; 2; 2]%nat two_joiners.

(** Alice and carol are reachable, bob's connection is gone. *)
Definition bob_gone : world :=
  server [(1%nat, alice); (2%nat, bob); (3%nat, carol)]
         [(1%nat, quiet); (2%nat, dead); (3%nat, quiet)].

Definition hello : json := chat_msg alice (lit "hello") noon.

(** A ping and a chat line reach the server in one segment. *)
Definition two_frames : world :=
  server [(1%nat, alice)]
         [(1%nat, sending_at_once [Client.ping_message;
                                   Client.chat_message (lit "hi")])].

(** The client's side of the same: the two frames are the server's. *)
Definition reader : Client.client :=
  Client.mkClient (Some (net two_frames 1%nat)) [] true.

(** A chat line with a line feed, an accent and a character above the
    basic plane, which reaches the server in two segments. *)
Definition greeting : json := Client.chat_message [104; 105; 10; 233; 0x1F600].

Definition in_two_pieces : world :=
  server [(1%nat, alice)]
         [(1%nat, mkConn [Data (firstn 9 (frame greeting));
                          Data (skipn 9 (frame greeting))] false false)].

(** The members of a chat message whose text has blanks around it. *)
Definition padded : list (str * json) :=
  [(lit "type", JStr (lit "chat")); (lit "message", JStr (lit "  hi  "))].

(** The members of the join message for [bob!]. *)
Definition bang_request : list (str * json) :=
  [(lit "type", JStr (lit "join")); (lit "username", JStr (lit "bob!"))].

(** A new connection asks for the name [bob!]. *)
Definition bang : world :=
  server [] [(1%nat, sending [Client.join_message (lit "bob!")])].

(** Bob is in, alice's name has just been accepted on connection 2. *)
Definition bob_inside : world :=
  server [(1%nat, bob)] [(1%nat, quiet); (2%nat, quiet)].

(** An evening: alice joins and later hangs up, bob joins and says hi, and
    a third connection asks for alice's name once she has left. *)
Definition evening : system :=
  mkSystem
    (server [] [(1%nat, mkConn [Data (frame (Client.join_message alice)); Data []]
                               false false);
                (2%nat, sending [Client.join_message bob;
                                 Client.chat_message (lit "hi")]);
                (3%nat, sending [Client.join_message alice])])
    (fun _ => Connected).

Definition evening_schedule : list sock :=
  [1; 1; 1; 2; 2; 2; 2; 1; 1; 3; 3; 3]%nat.

(** One visitor: joins as alice, says hi, hangs up. *)
Definition visit : world :=
  server [] [(1%nat, mkConn [Data (frame (Client.join_message alice));
                             Data (frame (Client.chat_message (lit "hi")));
                             Data []] false false)].

(** Alice alone. *)
Definition alice_inside : world :=
  server [(1%nat, alice)] [(1%nat, quiet)].

(** Alice and bob inside, both reachable. *)
Definition alice_and_bob : world :=
  server [(1%nat, alice); (2%nat, bob)] [(1%nat, quiet); (2%nat, quiet)].

(** A chat line of two lines of text: [hi], a line feed, [there]. *)
Definition two_lines : json :=
  Client.chat_message (lit "hi" ++ 10 :: lit "there").

End Scenario.

(** The sentences of the specification that the code does not bear out,
    as they are worded. *)
Module Stated.
Import Text Json Server.

(** "A send failure to one recipient must trigger that recipient's removal
    from the Registry plus a follow-up user-left notice to the remaining
    membership." *)
Definition failure_evicts_and_notifies (w : world) (data : json)
  (failed : sock) : Prop :=
  exists w',
    broadcast_message data None w = Ok tt w' /\
    Dict.has Nat.eqb failed (clients w') = false /\
    exists name t,
      forall r, In r (Dict.keys (clients w')) ->
                In (r, frame (user_left_msg name t)) (sent w').

(** "Letters, digits, hyphen, underscore only", 1 to 20 characters. *)
Definition allowed_char (c : Z) : bool :=
  ((48 <=? c) && (c <=? 57)) || ((65 <=? c) && (c <=? 90))
  || ((97 <=? c) && (c <=? 122)) || (c =? 45) || (c =? 95).

Definition spec_valid_name (name : str) : bool :=
  negb (str_eqb name []) && Nat.leb (List.length name) 20
  && forallb allowed_char name.

(** The join on connection [s] is turned down with "Invalid username". *)
Definition rejected_as_invalid (s : sock) (w : world) : Prop :=
  exists w',
    get_username s w = Ok None w' /\
    sent w' = sent w ++ [(s, frame invalid_username)].

(** "The server first sends the joining client a welcome and then
    broadcasts user_joined": the first frame written after the name was
    accepted is the welcome. *)
Definition welcome_comes_first (s : sock) (username : str) (w : world) : Prop :=
  exists w' users t rest,
    accept s username w = Ok tt w' /\
    sent w' = sent w ++ (s, frame (welcome_msg username users t)) :: rest.

(** "remove(session) returns the name that was removed." *)
Definition removal_returns_name (s : sock) (w : world) : Prop :=
  forall name,
    Dict.get Nat.eqb s (clients w) = Some name ->
    exists w', disconnect_client s (Some name) true w = Ok (Some name) w'.

(** "Consuming exactly one frame and retaining the remainder": after the
    first frame was read, the next call yields the second. *)
Definition remainder_is_retained (s : sock) (w : world) (second : json) : Prop :=
  exists first w1 w2,
    receive_message s w = Ok (Some first) w1 /\
    receive_message s w1 = Ok (Some second) w2.

End Stated.

(* ================================================================== *)
(** * More of the server and of the client *)
(* ================================================================== *)

(** [ChatServer.stop] and what is needed to follow a handler to its end. *)
Module Lifecycle.
Import Text Json Server.
Local Open Scope handler_scope.

Definition set_running (b : bool) (w : world) : world :=
  mkWorld (clients w) (lock_held w) b (net w) (sent w) (clock w) (ticks w).

(** The loop of [stop] over [list(self.clients.keys())]: each socket is
    closed, whatever the call raises is dropped. *)
Fixpoint close_all (socks : list sock) : M unit :=
  match socks with
  | [] => ret tt
  | s :: rest =>
      try_except (sock_close s) (fun _ => ret tt) ;;
      close_all rest
  end.

(** [stop] (server.py 240-261); [server_socket] is [self.server_socket],
    [None] before [start] has made it. *)
Definition stop (server_socket : option sock) : M unit :=
  modify (set_running false) ;;
  with_lock
    (socks <- gets (fun w => Dict.keys (clients w)) ;;
     close_all socks ;;
     modify (set_clients [])) ;;
  match server_socket with
  | Some l => try_except (sock_close l) (fun _ => ret tt)
  | None => ret tt
  end.

(** [receive_message] called [n] times in a row on one socket, as the
    message loop does; the results in order. *)
Fixpoint receive_many (n : nat) (s : sock) : M (list (option json)) :=
  match n with
  | O => ret []
  | S k =>
      r <- receive_message s ;;
      rs <- receive_many k s ;;
      ret (r :: rs)
  end.

(** What a handler that stands at [p] has at most left to run, in pieces,
    when [len] events are still to come on its socket. *)
Definition pieces_left (p : pc) (len : nat) : nat :=
  match p with
  | Connected => len + 5
  | Checked _ => len + 4
  | Registered _ => len + 3
  | Active _ => len + 2
  | Closing _ => 1
  | Closed => 0
  end.

(** The registry is a dictionary (a socket has one entry) and no handler
    is inside the critical section. *)
Definition settled (w : world) : Prop :=
  lock_held w = false /\ NoDup (Dict.keys (clients w)).

End Lifecycle.

(** The check of the name in the client's [main] (client.py 274-282). *)
Module ClientMain.
Import Text Json.

Section NameCheck.

(** What [str.isalnum] accepts for one character: a table of the Unicode
    database, taken as it is. *)
Variable isalnum_char : Z -> bool.

(** [s.replace(c, '')] for a one-character [c]. *)
Definition remove_char (c : Z) (s : str) : str :=
  filter (fun x => negb (x =? c)) s.

(** [s.isalnum()]: at least one character, all of them alphanumeric. *)
Definition isalnum (s : str) : bool :=
  negb (str_eqb s []) && forallb isalnum_char s.

Inductive name_check : Type :=
| NameOk (username : str)   (* goes on to [client.connect(username)] *)
| BadLength                 (* "Username must be 1-20 characters long" *)
| BadCharacters.            (* "Username can only contain letters, ..." *)

(** [raw] is what [input("Enter your username: ")] returned. *)
Definition check_username (raw : str) : name_check :=
  let username := strip raw in
  if str_eqb username [] || Nat.ltb 20 (List.length username) then BadLength
  else if negb (isalnum (remove_char 45 (remove_char 95 username)))
       then BadCharacters
  else NameOk username.

End NameCheck.

End ClientMain.

(** More worlds to run the handlers on. *)
Module Scenes.
Import Text Json Server Scenario.

(** Alice and bob inside, both reachable; alice's peer has sent the given
    events. *)
Definition pair (events : list recv_event) : world :=
  server [(1%nat, alice); (2%nat, bob)]
         [(1%nat, mkConn events false false); (2%nat, quiet)].

(** A new connection on which the given events arrive, alice inside. *)
Definition knock (events : list recv_event) : world :=
  server [(1%nat, alice)]
         [(1%nat, quiet); (2%nat, mkConn events false false)].

(** A new connection whose first segment is the frame of [m]. *)
Definition asks (m : json) : world := knock [Data (frame m)].

(** Alice's peer has written the frame of [m]. *)
Definition says (m : json) : world := pair [Data (frame m)].

(** Alice's peer has written a ping, which comes in two pieces, then a
    chat line, and is silent after that. *)
Definition ping_then_hi : world :=
  pair [Data (firstn 5 (frame Client.ping_message));
        Data (skipn 5 (frame Client.ping_message));
        Data (frame (Client.chat_message (lit "hi")));
        TimedOut].

(** The ASCII letters and digits, for running the client's name check. *)
Definition ascii_alnum (c : Z) : bool :=
  ((48 <=? c) && (c <=? 57)) || ((65 <=? c) && (c <=? 90))
  || ((97 <=? c) && (c <=? 122)).

End Scenes.
(* ================================================================== *)
(** * Facts about text *)
(* ================================================================== *)

Module TextFacts.
Import Text.

Lemma str_eqb_eq (a b : str) : str_eqb a b = true <-> a = b.
Proof.
  revert b; induction a as [|x a IH]; intros [|y b]; simpl;
    try (split; [discriminate | intros; congruence]); try tauto.
  rewrite andb_true_iff, Z.eqb_eq, IH.
  split; [intros [-> ->]; reflexivity | intros H; inversion H; auto].
Qed.

Lemma str_eqb_refl (a : str) : str_eqb a a = true.
Proof. apply str_eqb_eq; reflexivity. Qed.

Lemma str_eqb_neq (a b : str) : str_eqb a b = false <-> a <> b.
Proof.
  rewrite <- str_eqb_eq. destruct (str_eqb a b); split; congruence.
Qed.

Lemma mem_app (c : Z) (a b : str) : mem c (a ++ b) = mem c a || mem c b.
Proof. unfold mem; apply existsb_app. Qed.

Lemma mem_false (c : Z) (s : str) : mem c s = false <-> ~ In c s.
Proof.
  unfold mem; split.
  - intros H Hin.
    assert (existsb (Z.eqb c) s = true)
      by (apply existsb_exists; exists c; split; [exact Hin | apply Z.eqb_refl]).
    congruence.
  - intros H. destruct (existsb (Z.eqb c) s) eqn:E; [|reflexivity].
    apply existsb_exists in E. destruct E as [x [Hx Hc]].
    apply Z.eqb_eq in Hc; subst x. contradiction.
Qed.

(** Splitting at the first separator: nothing of the prefix is the
    separator, and the halves are the text around it. *)
Lemma split_first_app (sep : Z) (a b : str) :
  ~ In sep a -> split_first sep (a ++ sep :: b) = (a, b).
Proof.
  induction a as [|x a IH]; simpl; intros H.
  - rewrite Z.eqb_refl; reflexivity.
  - destruct (x =? sep) eqn:E.
    + apply Z.eqb_eq in E; subst; exfalso; apply H; left; reflexivity.
    + rewrite IH by (intros Hin; apply H; right; exact Hin). reflexivity.
Qed.

(** *** [strip] *)

Lemma lstrip_all_space (s : str) :
  lstrip s = [] <-> forallb isspace s = true.
Proof.
  induction s as [|c r IH]; simpl; [tauto|].
  destruct (isspace c); simpl; [exact IH|].
  split; discriminate.
Qed.

Lemma lstrip_head (s : str) (c : Z) (r : str) :
  lstrip s = c :: r -> isspace c = false.
Proof.
  induction s as [|x s IH]; simpl; [discriminate|].
  destruct (isspace x) eqn:E; [exact IH|].
  intros H; inversion H; subst; exact E.
Qed.

Lemma forallb_rev {A : Type} (f : A -> bool) (l : list A) :
  forallb f (rev l) = forallb f l.
Proof.
  induction l as [|x l IH]; simpl; [reflexivity|].
  rewrite forallb_app, IH; simpl. rewrite andb_true_r, andb_comm; reflexivity.
Qed.

Lemma rev_nil_iff {A : Type} (l : list A) : rev l = [] <-> l = [].
Proof.
  split; intros H; [|subst; reflexivity].
  destruct l as [|x l]; [reflexivity|].
  simpl in H. destruct (rev l); discriminate.
Qed.

Lemma lstrip_suffix (s : str) : exists p, s = p ++ lstrip s /\ forallb isspace p = true.
Proof.
  induction s as [|c r [p [Hp Hs]]]; simpl.
  - exists []; split; reflexivity.
  - destruct (isspace c) eqn:E.
    + exists (c :: p); simpl; rewrite E, Hs; split; [f_equal; exact Hp | reflexivity].
    + exists []; split; reflexivity.
Qed.

(** [strip] leaves nothing exactly when the text is all white space. *)
Lemma strip_empty_iff (s : str) :
  strip s = [] <-> forallb isspace s = true.
Proof.
  unfold strip, rstrip.
  destruct (lstrip_suffix s) as [p [Hp Hs]].
  split; intros H.
  - apply rev_nil_iff, lstrip_all_space in H. rewrite forallb_rev in H.
    rewrite Hp, forallb_app, Hs; exact H.
  - apply rev_nil_iff, lstrip_all_space. rewrite forallb_rev.
    rewrite Hp, forallb_app in H. apply andb_true_iff in H; tauto.
Qed.

(** *** UTF-8 on ASCII text *)

Lemma encode_utf8_ascii (s : str) : ascii_only s -> encode_utf8 s = Some s.
Proof.
  induction 1 as [|c r Hc _ IH]; simpl; [reflexivity|].
  unfold utf8_char.
  destruct (c <? 0) eqn:E0; [apply Z.ltb_lt in E0; lia|].
  destruct (c <? 128) eqn:E1; [|apply Z.ltb_ge in E1; lia].
  rewrite IH; reflexivity.
Qed.

Lemma decode_utf8_ascii (s : str) : ascii_only s -> decode_utf8 s = Some s.
Proof.
  induction 1 as [|c r Hc _ IH]; simpl; [reflexivity|].
  replace ((0 <=? c) && (c <? 128)) with true
    by (symmetry; apply andb_true_iff; split; [apply Z.leb_le | apply Z.ltb_lt]; lia).
  rewrite IH; reflexivity.
Qed.

Lemma ascii_only_app (a b : str) :
  ascii_only a -> ascii_only b -> ascii_only (a ++ b).
Proof. unfold ascii_only; intros; apply Forall_app; split; assumption. Qed.

Lemma ascii_only_app_inv (a b : str) :
  ascii_only (a ++ b) -> ascii_only a /\ ascii_only b.
Proof. unfold ascii_only; apply Forall_app. Qed.

End TextFacts.

(* ================================================================== *)
(** * Facts about the codec *)
(* ================================================================== *)

Module JsonFacts.
Import Text Json JsonAux TextFacts.

(** ** Strings *)

Lemma hexval_hex_digit n : 0 <= n < 16 -> hexval (hex_digit n) = Some n.
Proof.
  intros H. unfold hex_digit, hexval. destruct (n <? 10) eqn:E.
  - apply Z.ltb_lt in E.
    replace ((48 <=? 48 + n) && (48 + n <=? 57)) with true by lia.
    f_equal; lia.
  - apply Z.ltb_ge in E.
    replace ((48 <=? 87 + n) && (87 + n <=? 57)) with false by lia.
    replace ((97 <=? 87 + n) && (87 + n <=? 102)) with true by lia.
    f_equal; lia.
Qed.

Lemma hex4val_hex4 n r :
  0 <= n < 65536 ->
  match hex4 n ++ r with
  | a :: b :: c :: d :: r' => hex4val a b c d = Some n /\ r' = r
  | _ => False
  end.
Proof.
  intros H. unfold hex4; simpl. unfold hex4val.
  rewrite !hexval_hex_digit by (apply Z.mod_pos_bound; lia).
  split; [f_equal; Z.div_mod_to_equations; lia | reflexivity].
Qed.

Lemma land_disjoint (a b k : Z) :
  0 <= k -> 0 <= b < 2 ^ k -> Z.land (a * 2 ^ k) b = 0.
Proof.
  intros Hk Hb. apply Z.bits_inj'; intros i Hi.
  rewrite Z.land_spec, Z.bits_0.
  destruct (Z.lt_ge_cases i k) as [Hlt|Hge].
  - rewrite Z.mul_pow2_bits_low by lia; reflexivity.
  - destruct (Z.eq_dec b 0) as [->|Hnz].
    + rewrite Z.bits_0, andb_false_r; reflexivity.
    + assert (Z.log2 b < k) by (apply Z.log2_lt_pow2; lia).
      rewrite (Z.bits_above_log2 b i) by lia. apply andb_false_r.
Qed.

Lemma lor_disjoint (a b k : Z) :
  0 <= k -> 0 <= b < 2 ^ k -> Z.lor (a * 2 ^ k) b = a * 2 ^ k + b.
Proof.
  intros Hk Hb. pose proof (land_disjoint a b k Hk Hb) as H.
  rewrite <- Z.lxor_lor by exact H. symmetry; apply Z.add_nocarry_lxor; exact H.
Qed.

Lemma hi_surrogate_eq c : 0x10000 <= c <= 0x10FFFF ->
  hi_surrogate c = 0xD800 + (c - 0x10000) / 1024.
Proof.
  intros H. unfold hi_surrogate.
  change 0x3FF with (Z.ones 10). rewrite Z.land_ones by lia.
  rewrite Z.shiftr_div_pow2 by lia. change (2 ^ 10) with 1024.
  rewrite Z.mod_small by (Z.div_mod_to_equations; lia).
  change 0xD800 with (54 * 2 ^ 10). apply lor_disjoint; [lia|].
  change (2 ^ 10) with 1024. Z.div_mod_to_equations; lia.
Qed.

Lemma lo_surrogate_eq c : 0x10000 <= c <= 0x10FFFF ->
  lo_surrogate c = 0xDC00 + (c - 0x10000) mod 1024.
Proof.
  intros H. unfold lo_surrogate.
  change 0x3FF with (Z.ones 10). rewrite Z.land_ones by lia.
  change (2 ^ 10) with 1024.
  change 0xDC00 with (55 * 2 ^ 10). apply lor_disjoint; [lia|].
  change (2 ^ 10) with 1024. apply Z.mod_pos_bound; lia.
Qed.

Lemma surrogates_join c : 0x10000 <= c <= 0x10FFFF ->
  0x10000 + Z.lor (Z.shiftl (hi_surrogate c - 0xD800) 10) (lo_surrogate c - 0xDC00) = c.
Proof.
  intros H. rewrite hi_surrogate_eq, lo_surrogate_eq by exact H.
  replace (0xD800 + (c - 0x10000) / 1024 - 0xD800) with ((c - 0x10000) / 1024) by lia.
  replace (0xDC00 + (c - 0x10000) mod 1024 - 0xDC00) with ((c - 0x10000) mod 1024) by lia.
  rewrite Z.shiftl_mul_pow2 by lia.
  rewrite lor_disjoint by (try lia; change (2 ^ 10) with 1024; apply Z.mod_pos_bound; lia).
  change (2 ^ 10) with 1024. Z.div_mod_to_equations; lia.
Qed.

Lemma hi_surrogate_range c : 0x10000 <= c <= 0x10FFFF ->
  0xD800 <= hi_surrogate c <= 0xDBFF.
Proof. intros H; rewrite hi_surrogate_eq by exact H. Z.div_mod_to_equations; lia. Qed.

Lemma lo_surrogate_range c : 0x10000 <= c <= 0x10FFFF ->
  0xDC00 <= lo_surrogate c <= 0xDFFF.
Proof. intros H; rewrite lo_surrogate_eq by exact H. Z.div_mod_to_equations; lia. Qed.

Lemma lex_u_escape n s :
  0 <= n < 65536 -> lex_string (u_escape n ++ s) = push (n, true) (lex_string s).
Proof.
  intros H. unfold u_escape.
  change (lex_string ((92 :: 117 :: hex4 n) ++ s))
    with (match hex4 n ++ s with
          | h1 :: h2 :: h3 :: h4 :: r2 =>
              match hex4val h1 h2 h3 h4 with
              | Some u => push (u, true) (lex_string r2)
              | None => None
              end
          | _ => None
          end).
  pose proof (hex4val_hex4 n s H) as E.
  destruct (hex4 n ++ s) as [|a [|b [|c [|d r']]]]; try contradiction.
  destruct E as [-> ->]. reflexivity.
Qed.

Ltac split_eqb c k :=
  let E := fresh "E" in
  destruct (c =? k) eqn:E;
  [apply Z.eqb_eq in E; subst c | apply Z.eqb_neq in E].

Lemma lex_escape_char c s :
  0 <= c <= 0x10FFFF ->
  lex_string (escape_char c ++ s) = push_all (units c) (lex_string s).
Proof.
  intros H. unfold escape_char, units, short_escape.
  split_eqb c 34; [destruct (lex_string s) as [[? ?]|] eqn:Es; simpl; rewrite ?Es; reflexivity|].
  split_eqb c 92; [destruct (lex_string s) as [[? ?]|] eqn:Es; simpl; rewrite ?Es; reflexivity|].
  split_eqb c 10; [destruct (lex_string s) as [[? ?]|] eqn:Es; simpl; rewrite ?Es; reflexivity|].
  split_eqb c 13; [destruct (lex_string s) as [[? ?]|] eqn:Es; simpl; rewrite ?Es; reflexivity|].
  split_eqb c 9; [destruct (lex_string s) as [[? ?]|] eqn:Es; simpl; rewrite ?Es; reflexivity|].
  split_eqb c 8; [destruct (lex_string s) as [[? ?]|] eqn:Es; simpl; rewrite ?Es; reflexivity|].
  split_eqb c 12; [destruct (lex_string s) as [[? ?]|] eqn:Es; simpl; rewrite ?Es; reflexivity|].
  cbn [orb].
  destruct ((32 <=? c) && (c <=? 126)) eqn:Ep.
  - apply andb_true_iff in Ep. destruct Ep as [Ea Eb].
    apply Z.leb_le in Ea. apply Z.leb_le in Eb.
    cbn [app lex_string].
    replace (c =? 34) with false by (symmetry; apply Z.eqb_neq; lia).
    replace (c =? 92) with false by (symmetry; apply Z.eqb_neq; lia).
    replace (c <? 32) with false by (symmetry; apply Z.ltb_ge; lia).
    destruct (lex_string s) as [[? ?]|]; reflexivity.
  - destruct (c <? 65536) eqn:Eb.
    + apply Z.ltb_lt in Eb. rewrite lex_u_escape by lia.
      destruct (lex_string s) as [[? ?]|]; reflexivity.
    + apply Z.ltb_ge in Eb. rewrite <- app_assoc.
      fold (hi_surrogate c). fold (lo_surrogate c).
      pose proof (hi_surrogate_range c ltac:(lia)).
      pose proof (lo_surrogate_range c ltac:(lia)).
      rewrite !lex_u_escape by lia.
      destruct (lex_string s) as [[? ?]|]; reflexivity.
Qed.

Lemma lex_string_body s rest :
  Forall (fun c => 0 <= c <= 0x10FFFF) s ->
  lex_string (flat_map escape_char s ++ 34 :: rest) = Some (flat_map units s, rest).
Proof.
  induction 1 as [|c r Hc _ IH]; [reflexivity|].
  cbn [flat_map]. rewrite <- app_assoc, lex_escape_char by exact Hc.
  rewrite IH. reflexivity.
Qed.

Lemma join_units c us :
  0 <= c <= 0x10FFFF ->
  (is_high c = true -> no_low_head us) ->
  join_surrogates (units c ++ us) = c :: join_surrogates us.
Proof.
  intros Hc Hh. unfold units.
  destruct (short_escape c || ((32 <=? c) && (c <=? 126))).
  - destruct us as [|[u2 [|]] tl]; reflexivity.
  - destruct (c <? 65536) eqn:Eb.
    + destruct us as [|[u2 [|]] tl]; try reflexivity.
      cbn [app join_surrogates]. cbn [andb].
      destruct (is_high c) eqn:Eh; [|reflexivity].
      simpl in Hh. rewrite (Hh eq_refl). reflexivity.
    + apply Z.ltb_ge in Eb.
      pose proof (hi_surrogate_range c ltac:(lia)) as Hhi.
      pose proof (lo_surrogate_range c ltac:(lia)) as Hlo.
      cbn [app join_surrogates]. cbn [andb].
      replace (is_high (hi_surrogate c)) with true
        by (symmetry; apply andb_true_iff; split; apply Z.leb_le; lia).
      replace (is_low (lo_surrogate c)) with true
        by (symmetry; apply andb_true_iff; split; apply Z.leb_le; lia).
      rewrite surrogates_join by lia. reflexivity.
Qed.

Lemma units_head c us :
  0 <= c <= 0x10FFFF -> is_low c = false -> no_low_head (units c ++ us).
Proof.
  intros Hc Hl. unfold units.
  destruct (short_escape c || ((32 <=? c) && (c <=? 126))); [exact I|].
  destruct (c <? 65536) eqn:Eb; [exact Hl|].
  apply Z.ltb_ge in Eb. pose proof (hi_surrogate_range c ltac:(lia)) as Hhi.
  simpl. unfold is_low. apply andb_false_iff; left. apply Z.leb_gt; lia.
Qed.

Lemma wf_str_range s : wf_str s -> Forall (fun c => 0 <= c <= 0x10FFFF) s.
Proof.
  induction s as [|c r IH]; [constructor|].
  intros [Hc [_ Hr]]. constructor; [exact Hc | apply IH; exact Hr].
Qed.

Lemma join_surrogates_units s :
  wf_str s -> join_surrogates (flat_map units s) = s.
Proof.
  induction s as [|c r IH]; [reflexivity|].
  intros [Hc [Hn Hr]]. cbn [flat_map].
  rewrite join_units, IH; auto.
  intros Hh. destruct r as [|c' r']; [exact I|].
  cbn [flat_map]. destruct Hr as [Hc' _]. apply units_head; [exact Hc'|].
  destruct (is_low c') eqn:El; [|reflexivity].
  exfalso; apply Hn; split; [exact Hh | reflexivity].
Qed.

(** Reading back a string literal. *)
Lemma scanstring_quote s rest :
  wf_str s -> scanstring (flat_map escape_char s ++ 34 :: rest) = Some (s, rest).
Proof.
  intros H. unfold scanstring.
  rewrite lex_string_body by (apply wf_str_range; exact H).
  rewrite join_surrogates_units by exact H. reflexivity.
Qed.

(** ** Numbers *)

Lemma number_end_no_digit s : number_end s -> no_digit_head s.
Proof. destruct s; simpl; tauto. Qed.

Lemma take_digits_chars u rest :
  no_digit_head rest -> take_digits (uint_chars u ++ rest) = (u, rest).
Proof.
  intros H. induction u; simpl; try (rewrite IHu; reflexivity).
  destruct rest as [|c r]; [reflexivity|]. simpl in H |- *. rewrite H; reflexivity.
Qed.

Lemma uint_chars_head u :
  u <> Decimal.Nil -> exists c r, uint_chars u = c :: r /\ 48 <= c <= 57.
Proof.
  destruct u; intros H; try congruence; simpl; eexists; eexists; (split; [reflexivity | lia]).
Qed.

Lemma canonical_cases u :
  canonical u ->
  u = Decimal.D0 Decimal.Nil \/
  exists c r, uint_chars u = c :: r /\ 49 <= c <= 57.
Proof.
  unfold canonical. destruct u; intros H;
    try (right; simpl; eexists; eexists; (split; [reflexivity | lia])).
  - pose proof (DecimalFacts.unorm_nonnil Decimal.Nil) as N. congruence.
  - left. rewrite DecimalFacts.unorm_D0 in H. unfold Decimal.unorm in H.
    destruct (Decimal.nzhead u) eqn:E; try (exfalso; eapply DecimalFacts.nzhead_nonzero;
      rewrite E; exact H).
    inversion H; reflexivity.
Qed.

Lemma scan_int_part_chars u rest :
  canonical u -> no_digit_head rest ->
  scan_int_part (uint_chars u ++ rest) = Some (u, rest).
Proof.
  intros Hc Hr. destruct (canonical_cases u Hc) as [->|[c [r [E Hrange]]]].
  - reflexivity.
  - unfold scan_int_part. pose proof (take_digits_chars u rest Hr) as T.
    rewrite E in *. cbn [app] in *.
    replace (c =? 48) with false by (symmetry; apply Z.eqb_neq; lia).
    rewrite T. destruct u; simpl in E; try discriminate; reflexivity.
Qed.

Lemma scan_frac_none s : number_end s -> scan_frac s = (Decimal.Nil, s).
Proof.
  destruct s as [|c r]; [reflexivity|]. intros [_ [H _]]. simpl.
  replace (c =? 46) with false by (symmetry; apply Z.eqb_neq; exact H). reflexivity.
Qed.

Lemma scan_exp_none s :
  match s with [] => True | c :: _ => c <> 101 /\ c <> 69 end ->
  scan_exp s = (None, s).
Proof.
  destruct s as [|c r]; [reflexivity|]. intros [H1 H2]. simpl.
  replace (c =? 101) with false by (symmetry; apply Z.eqb_neq; exact H1).
  replace (c =? 69) with false by (symmetry; apply Z.eqb_neq; exact H2). reflexivity.
Qed.

Lemma scan_frac_chars fr rest :
  fr <> Decimal.Nil -> no_digit_head rest ->
  scan_frac (frac_chars fr ++ rest) = (fr, rest).
Proof.
  intros Hn Hr. unfold frac_chars.
  destruct fr; try congruence; cbn [app scan_frac]; change (46 =? 46) with true; cbn iota;
    rewrite take_digits_chars by exact Hr; reflexivity.
Qed.

Lemma scan_exp_chars e rest :
  Decimal.abs e <> Decimal.Nil -> no_digit_head rest ->
  scan_exp (exp_chars e ++ rest) = (Some e, rest).
Proof.
  intros Hn Hr. destruct e as [u|u]; simpl in Hn;
    unfold exp_chars; cbn [app scan_exp];
    change (101 =? 101) with true; cbn [orb]; cbn iota;
    [change (43 =? 45) with false; change (43 =? 43) with true
    |change (45 =? 45) with true]; cbn iota;
    rewrite take_digits_chars by exact Hr;
    destruct u; try congruence; reflexivity.
Qed.

Lemma to_uint_canonical p : canonical (Pos.to_uint p).
Proof.
  unfold canonical.
  rewrite <- (DecimalPos.Unsigned.to_of (Pos.to_uint p)).
  rewrite DecimalPos.Unsigned.of_to. reflexivity.
Qed.

Lemma to_int_canonical z : canonical (Decimal.abs (Z.to_int z)).
Proof.
  destruct z; simpl; [reflexivity | apply to_uint_canonical | apply to_uint_canonical].
Qed.

Lemma match_number_int_part i tail :
  canonical (Decimal.abs i) -> no_digit_head tail ->
  match_number (int_chars i ++ tail) =
  let (fr, s3) := scan_frac tail in
  let (ex, s4) := scan_exp s3 in
  Some (number_value i fr ex, s4).
Proof.
  intros Hc Ht. unfold match_number.
  destruct i as [u|u]; simpl in Hc; unfold int_chars.
  - destruct (canonical_cases u Hc) as [->|[c [r [E Hr]]]].
    + cbn [uint_chars app]. change (48 =? 45) with false. cbn iota.
      change (scan_int_part (48 :: tail)) with (Some (Decimal.D0 Decimal.Nil, tail)).
      cbn iota. destruct (scan_frac tail) as [fr s3]. destruct (scan_exp s3) as [[e|] s4];
        unfold number_value; try reflexivity. destruct (is_nil fr); reflexivity.
    + pose proof (scan_int_part_chars u tail Hc Ht) as S. rewrite E in *. cbn [app] in *.
      replace (c =? 45) with false by (symmetry; apply Z.eqb_neq; lia).
      rewrite S. destruct (scan_frac tail) as [fr s3]. destruct (scan_exp s3) as [[e|] s4];
        unfold number_value; try reflexivity. destruct (is_nil fr); reflexivity.
  - cbn [app]. change (45 =? 45) with true. cbn iota.
    rewrite (scan_int_part_chars u tail Hc Ht).
    destruct (scan_frac tail) as [fr s3]. destruct (scan_exp s3) as [[e|] s4];
      unfold number_value; try reflexivity. destruct (is_nil fr); reflexivity.
Qed.

Lemma number_end_exp s :
  number_end s -> match s with [] => True | c :: _ => c <> 101 /\ c <> 69 end.
Proof. destruct s; simpl; tauto. Qed.

Lemma match_number_int z rest :
  number_end rest ->
  match_number (int_chars (Z.to_int z) ++ rest) = Some (JInt z, rest).
Proof.
  intros H.
  rewrite match_number_int_part
    by (try apply to_int_canonical; apply number_end_no_digit; exact H).
  rewrite scan_frac_none by exact H.
  rewrite scan_exp_none by (apply number_end_exp; exact H).
  unfold number_value; simpl. rewrite DecimalZ.of_to. reflexivity.
Qed.

Lemma frac_chars_head fr tail :
  fr <> Decimal.Nil -> no_digit_head (frac_chars fr ++ tail).
Proof. destruct fr; intros H; try congruence; reflexivity. Qed.

Lemma exp_chars_head e tail : no_digit_head (exp_chars e ++ tail).
Proof. destruct e; reflexivity. Qed.

Lemma scan_frac_exp e tail :
  scan_frac (exp_chars e ++ tail) = (Decimal.Nil, exp_chars e ++ tail).
Proof. destruct e; reflexivity. Qed.

Lemma match_number_float d rest :
  wf_float (Finite d) -> number_end rest ->
  match_number (float_chars (Finite d) ++ rest) = Some (JFloat (Finite d), rest).
Proof.
  intros Hw Hr. destruct d as [i fr | i fr e]; cbn [float_chars].
  - destruct Hw as [Hc Hn]. rewrite <- app_assoc.
    rewrite match_number_int_part by (try exact Hc; apply frac_chars_head; exact Hn).
    rewrite scan_frac_chars by (try exact Hn; apply number_end_no_digit; exact Hr).
    rewrite scan_exp_none by (apply number_end_exp; exact Hr).
    unfold number_value. destruct fr; try congruence; reflexivity.
  - assert (Hw' : canonical (Decimal.abs i) /\ Decimal.abs e <> Decimal.Nil)
      by (destruct e; exact Hw).
    destruct Hw' as [Hc Hn]. rewrite <- !app_assoc.
    destruct (is_nil fr) eqn:En.
    + destruct fr; try discriminate. cbn [frac_chars app].
      rewrite match_number_int_part by (try exact Hc; apply exp_chars_head).
      rewrite scan_frac_exp.
      rewrite scan_exp_chars by (try exact Hn; apply number_end_no_digit; exact Hr).
      reflexivity.
    + assert (fr <> Decimal.Nil) by (intros ->; discriminate).
      rewrite match_number_int_part by (try exact Hc; apply frac_chars_head; assumption).
      rewrite scan_frac_chars by (try assumption; apply exp_chars_head).
      rewrite scan_exp_chars by (try exact Hn; apply number_end_no_digit; exact Hr).
      reflexivity.
Qed.

(** ** Atoms *)

Lemma int_chars_head i tail :
  canonical (Decimal.abs i) -> num_head (int_chars i ++ tail).
Proof.
  intros H. destruct i as [u|u]; simpl in H |- *.
  - destruct (uint_chars_head u) as [c [r [E Hc]]].
    { intros ->. pose proof (DecimalFacts.unorm_nonnil Decimal.Nil). congruence. }
    rewrite E. exists c, (r ++ tail). split; [reflexivity | right; exact Hc].
  - exists 45, (uint_chars u ++ tail). split; [reflexivity | left; reflexivity].
Qed.

Lemma strip_prefix_ne a p c s :
  a <> c -> strip_prefix (a :: p) (c :: s) = None.
Proof.
  intros H. cbn [strip_prefix].
  replace (a =? c) with false by (symmetry; apply Z.eqb_neq; exact H). reflexivity.
Qed.

Lemma scan_atom_number s res :
  num_head s -> match_number s = Some res -> scan_atom s = Some res.
Proof.
  intros [c [r [-> Hc]]] Hm. unfold scan_atom.
  assert (N1 : strip_prefix (lit "null") (c :: r) = None).
  { change (lit "null") with (110 :: lit "ull"). apply strip_prefix_ne; lia. }
  assert (N2 : strip_prefix (lit "true") (c :: r) = None).
  { change (lit "true") with (116 :: lit "rue"). apply strip_prefix_ne; lia. }
  assert (N3 : strip_prefix (lit "false") (c :: r) = None).
  { change (lit "false") with (102 :: lit "alse"). apply strip_prefix_ne; lia. }
  rewrite N1, N2, N3, Hm. reflexivity.
Qed.

Lemma scan_once_atom n c r :
  c <> 34 -> c <> 123 -> c <> 91 -> scan_once (S n) (c :: r) = scan_atom (c :: r).
Proof.
  intros H1 H2 H3. cbn [scan_once].
  replace (c =? 34) with false by (symmetry; apply Z.eqb_neq; exact H1).
  replace (c =? 123) with false by (symmetry; apply Z.eqb_neq; exact H2).
  replace (c =? 91) with false by (symmetry; apply Z.eqb_neq; exact H3).
  reflexivity.
Qed.

Lemma scan_once_number n s res :
  num_head s -> match_number s = Some res -> scan_once (S n) s = Some res.
Proof.
  intros Hh Hm. pose proof (scan_atom_number s res Hh Hm) as A.
  destruct Hh as [c [r [-> Hc]]]. rewrite scan_once_atom by lia. exact A.
Qed.

Lemma value_start_facts c :
  value_start c = true -> is_ws c = false /\ c <> 93 /\ c <> 125 /\ c <> 0xFEFF.
Proof.
  unfold value_start, is_ws. intros H.
  assert (R : c = 34 \/ c = 123 \/ c = 91 \/ c = 45 \/ 48 <= c <= 57 \/
              c = 110 \/ c = 116 \/ c = 102 \/ c = 73 \/ c = 78).
  { rewrite !orb_true_iff, andb_true_iff, !Z.eqb_eq, !Z.leb_le in H. tauto. }
  clear H. repeat split; lia.
Qed.

Lemma num_head_start s : num_head s -> exists c r, s = c :: r /\ value_start c = true.
Proof.
  intros [c [r [-> H]]]. exists c, r. split; [reflexivity|].
  unfold value_start. destruct H as [->|H]; [reflexivity|].
  replace ((48 <=? c) && (c <=? 57)) with true
    by (symmetry; apply andb_true_iff; split; apply Z.leb_le; lia).
  rewrite !orb_true_r. reflexivity.
Qed.

(** Every printed value opens with a character that is no white space and
    closes no array or object. *)
Lemma dumps_head j :
  wf j -> exists c r, dumps j = c :: r /\ value_start c = true.
Proof.
  destruct j as [|[|]|z|f|s|l|d]; intros H;
    try (eexists; eexists; split; [reflexivity | reflexivity]).
  - cbn [dumps]. rewrite <- (app_nil_r (int_chars _)).
    apply num_head_start, int_chars_head, to_int_canonical.
  - destruct f as [[i fr|i fr e]| | |];
      try (eexists; eexists; split; [reflexivity | reflexivity]);
      try contradiction.
    + cbn [dumps float_chars]. apply num_head_start, int_chars_head. apply H.
    + cbn [dumps float_chars]. apply num_head_start, int_chars_head.
      destruct e; apply H.
Qed.

Lemma skip_ws_head c r : is_ws c = false -> skip_ws (c :: r) = c :: r.
Proof. intros H; simpl; rewrite H; reflexivity. Qed.

Lemma skip_ws_dumps j tail : wf j -> skip_ws (dumps j ++ tail) = dumps j ++ tail.
Proof.
  intros H. destruct (dumps_head j H) as [c [r [E Hs]]]. rewrite E.
  apply skip_ws_head. apply value_start_facts; exact Hs.
Qed.

Lemma scan_once_float n f rest :
  wf_float f -> number_end rest ->
  scan_once (S n) (float_chars f ++ rest) = Some (JFloat f, rest).
Proof.
  intros Hw Hr. destruct f as [d| | |]; try contradiction; try reflexivity.
  apply scan_once_number; [|apply match_number_float; assumption].
  destruct d as [i fr|i fr e]; cbn [float_chars]; rewrite <- ?app_assoc;
    apply int_chars_head; [apply Hw | destruct e; apply Hw].
Qed.

(** ** Dictionaries built from pairs *)

Lemma set_fresh {V : Type} (k : str) (v : V) (d : list (str * V)) :
  ~ In k (map fst d) -> Dict.set str_eqb k v d = d ++ [(k, v)].
Proof.
  induction d as [|[k' v'] d IH]; simpl; intros H; [reflexivity|].
  destruct (str_eqb k k') eqn:E.
  - apply str_eqb_eq in E. exfalso; apply H; left; symmetry; exact E.
  - rewrite IH by (intros Hin; apply H; right; exact Hin). reflexivity.
Qed.

Lemma of_pairs_acc {V : Type} (ps acc : list (str * V)) :
  NoDup (map fst (acc ++ ps)) ->
  fold_left (fun d kv => Dict.set str_eqb (fst kv) (snd kv) d) ps acc = acc ++ ps.
Proof.
  revert acc; induction ps as [|[k v] ps IH]; intros acc H; simpl.
  - rewrite app_nil_r; reflexivity.
  - rewrite set_fresh.
    + rewrite IH; rewrite <- app_assoc; [reflexivity | exact H].
    + rewrite map_app in H. simpl in H. apply NoDup_remove_2 in H.
      intros Hin; apply H. apply in_or_app; left; exact Hin.
Qed.

Lemma of_pairs_nodup {V : Type} (d : list (str * V)) :
  NoDup (map fst d) -> Dict.of_pairs str_eqb d = d.
Proof. intros H. unfold Dict.of_pairs. rewrite of_pairs_acc; [reflexivity | exact H]. Qed.

(** ** Induction on values *)

Lemma json_induction (P : json -> Prop)
  (Hnull : P JNull) (Hbool : forall b, P (JBool b)) (Hint : forall z, P (JInt z))
  (Hfloat : forall f, P (JFloat f)) (Hstr : forall s, P (JStr s))
  (Hlist : forall l, Forall P l -> P (JList l))
  (Hdict : forall d, Forall (fun kv => P (snd kv)) d -> P (JDict d)) :
  forall j, P j.
Proof.
  fix IH 1. intros [|b|z|f|s|l|d];
    [apply Hnull | apply Hbool | apply Hint | apply Hfloat | apply Hstr | |].
  - apply Hlist. induction l as [|x l IHl]; constructor; [apply IH | exact IHl].
  - apply Hdict. induction d as [|[k v] d IHd]; constructor; [apply IH | exact IHd].
Qed.

Lemma wf_list l : wf (JList l) <-> Forall wf l.
Proof.
  induction l as [|x l IH]; simpl.
  - split; [constructor | exact (fun _ => I)].
  - split.
    + intros [Hx Hl]. constructor; [exact Hx | apply IH; exact Hl].
    + intros H. inversion H; subst. split; [assumption | apply IH; assumption].
Qed.

Lemma wf_dict d :
  wf (JDict d) <->
  NoDup (map fst d) /\ Forall (fun kv => wf_str (fst kv) /\ wf (snd kv)) d.
Proof.
  cbn [wf]. apply and_iff_compat_l.
  induction d as [|kv d IH].
  - split; [constructor | exact (fun _ => I)].
  - split.
    + intros [Hx Hl]. constructor; [exact Hx | apply IH; exact Hl].
    + intros H. inversion H; subst. split; [assumption | apply IH; assumption].
Qed.

(** ** Reading back what [dumps] wrote *)

Lemma join_cons2 (p q : str) (ps : list str) :
  join sep (p :: q :: ps) = p ++ sep ++ join sep (q :: ps).
Proof. reflexivity. Qed.

Lemma array_items_dumps l :
  l <> [] -> Forall wf l -> Forall reads_back l ->
  forall fuel rest,
    (2 + 2 * List.length (join sep (map dumps l)) <= fuel)%nat ->
    array_items fuel (join sep (map dumps l) ++ 93 :: rest) = Some (l, rest).
Proof.
  induction l as [|x l IH]; [congruence|].
  intros _ Hwf Hrb fuel rest Hfuel.
  inversion Hwf as [|? ? Hwx Hwl]; subst. inversion Hrb as [|? ? Hx Hl]; subst.
  destruct fuel as [|n]; [lia|].
  destruct l as [|y l].
  - cbn [map join] in *. cbn [array_items].
    rewrite Hx by (try lia; simpl; repeat split; (reflexivity || discriminate)).
    reflexivity.
  - change (join sep (map dumps (x :: y :: l)))
      with (dumps x ++ sep ++ join sep (map dumps (y :: l))) in *.
    rewrite <- !app_assoc.
    rewrite !length_app in Hfuel. change (List.length sep) with 2%nat in Hfuel.
    cbn [array_items].
    rewrite Hx by (try lia; simpl; repeat split; (reflexivity || discriminate)).
    change (sep ++ ?t) with (44 :: 32 :: t).
    cbn [skip_ws]. change (is_ws 44) with false. cbn iota.
    change (44 =? 93) with false. change (44 =? 44) with true. cbn iota.
    change (skip_ws (32 :: ?t)) with (skip_ws t).
    assert (Hs : skip_ws (join sep (map dumps (y :: l)) ++ 93 :: rest)
                 = join sep (map dumps (y :: l)) ++ 93 :: rest).
    { inversion Hwl; subst. destruct l as [|z l].
      - cbn [map join]. apply skip_ws_dumps; assumption.
      - change (join sep (map dumps (y :: z :: l)))
          with (dumps y ++ sep ++ join sep (map dumps (z :: l))).
        rewrite <- app_assoc. apply skip_ws_dumps; assumption. }
    rewrite Hs. rewrite IH; try assumption; try congruence; try reflexivity. lia.
Qed.

Lemma member_eq kv : member kv = 34 :: member_body kv.
Proof.
  unfold member, member_body, quote. cbn [app]. f_equal.
  rewrite <- app_assoc. reflexivity.
Qed.

Lemma member_length kv :
  (List.length (dumps (snd kv)) + 4 <= List.length (member kv))%nat.
Proof.
  unfold member, quote. cbn [app List.length]. rewrite !length_app.
  cbn [List.length]. change (List.length (lit ": ")) with 2%nat. lia.
Qed.

Lemma object_items_dumps d :
  d <> [] ->
  Forall (fun kv => wf_str (fst kv) /\ wf (snd kv)) d ->
  Forall (fun kv => reads_back (snd kv)) d ->
  forall fuel rest,
    (2 + 2 * List.length (join sep (map member d)) <= fuel)%nat ->
    exists body,
      join sep (map member d) ++ 125 :: rest = 34 :: body /\
      object_items fuel body = Some (d, rest).
Proof.
  induction d as [|[k v] d IH]; [congruence|].
  intros _ Hwf Hrb fuel rest Hfuel.
  inversion Hwf as [|? ? [Hk Hv] Hwd]; subst. inversion Hrb as [|? ? Hx Hd]; subst.
  cbn [fst snd] in Hk, Hv, Hx.
  destruct fuel as [|n]; [lia|].
  pose proof (member_length (k, v)) as Hlen. cbn [fst snd] in Hlen.
  set (kv := (k, v)) in *.
  destruct d as [|kv2 d].
  - cbn [map join] in *. rewrite member_eq. cbn [app]. eexists; split; [reflexivity|].
    unfold member_body, kv. cbn [fst snd]. rewrite <- app_assoc. cbn [app object_items].
    rewrite scanstring_quote by exact Hk.
    change (skip_ws (58 :: ?t)) with (58 :: t). cbn iota.
    change (58 =? 58) with true. cbn iota.
    change (skip_ws (32 :: ?t)) with (skip_ws t).
    rewrite skip_ws_dumps by exact Hv.
    rewrite Hx by (try lia; simpl; repeat split; (reflexivity || discriminate)).
    reflexivity.
  - change (join sep (map member (kv :: kv2 :: d)))
      with (member kv ++ sep ++ join sep (map member (kv2 :: d))) in *.
    rewrite !length_app in Hfuel. change (List.length sep) with 2%nat in Hfuel.
    destruct (IH ltac:(congruence) Hwd Hd n rest ltac:(lia))
      as [body2 [Ebody Hitems]].
    rewrite member_eq. cbn [app]. eexists; split; [reflexivity|].
    unfold member_body, kv. cbn [fst snd]. rewrite <- !app_assoc. cbn [app object_items].
    rewrite scanstring_quote by exact Hk.
    change (skip_ws (58 :: ?t)) with (58 :: t). cbn iota.
    change (58 =? 58) with true. cbn iota.
    change (skip_ws (32 :: ?t)) with (skip_ws t).
    rewrite skip_ws_dumps by exact Hv.
    rewrite Hx by (try lia; simpl; repeat split; (reflexivity || discriminate)).
    change (sep ++ ?t) with (44 :: 32 :: t).
    change (skip_ws (44 :: ?t)) with (44 :: t). cbn iota.
    change (44 =? 125) with false. change (44 =? 44) with true. cbn iota.
    change (skip_ws (32 :: ?t)) with (skip_ws t).
    rewrite Ebody. change (skip_ws (34 :: ?t)) with (34 :: t). cbn iota.
    change (34 =? 34) with true. cbn iota.
    rewrite Hitems. reflexivity.
Qed.

(** The decoder reads back every well-formed value that [dumps] wrote,
    whatever follows it (so long as that cannot continue a number). *)
Lemma scan_once_dumps j : wf j -> reads_back j.
Proof.
  induction j as [|b|z|f|s|l IHl|d IHd] using json_induction;
    intros Hwf fuel rest Hfuel Hrest; (destruct fuel as [|n]; [lia|]).
  - reflexivity.
  - destruct b; reflexivity.
  - cbn [dumps]. apply scan_once_number; [|apply match_number_int; exact Hrest].
    apply int_chars_head, to_int_canonical.
  - cbn [dumps]. apply scan_once_float; assumption.
  - cbn [dumps quote app scan_once]. change (34 =? 34) with true. cbn iota.
    rewrite <- app_assoc. cbn [app].
    rewrite scanstring_quote by exact Hwf. reflexivity.
  - apply wf_list in Hwf.
    assert (Hrb : Forall reads_back l).
    { clear Hfuel. induction IHl as [|x l Hx _ IH]; constructor.
      - apply Hx. inversion Hwf; assumption.
      - apply IH. inversion Hwf; assumption. }
    cbn [dumps] in *. fold sep in *. cbn [app scan_once].
    change (91 =? 34) with false. change (91 =? 123) with false.
    change (91 =? 91) with true. cbn iota.
    rewrite <- app_assoc. cbn [app].
    destruct l as [|x l].
    + reflexivity.
    + assert (Hs : skip_ws (join sep (map dumps (x :: l)) ++ 93 :: rest)
                   = join sep (map dumps (x :: l)) ++ 93 :: rest).
      { inversion Hwf; subst. destruct l as [|y l].
        - cbn [map join]. apply skip_ws_dumps; assumption.
        - change (join sep (map dumps (x :: y :: l)))
            with (dumps x ++ sep ++ join sep (map dumps (y :: l))).
          rewrite <- app_assoc. apply skip_ws_dumps; assumption. }
      rewrite Hs.
      assert (Hh : exists c r, join sep (map dumps (x :: l)) ++ 93 :: rest = c :: r
                               /\ c <> 93).
      { inversion Hwf; subst.
        destruct (dumps_head x ltac:(assumption)) as [c [r [E Hc]]].
        apply value_start_facts in Hc.
        destruct l as [|y l].
        - cbn [map join]. rewrite E. eexists; eexists; split; [reflexivity | tauto].
        - change (join sep (map dumps (x :: y :: l)))
            with (dumps x ++ sep ++ join sep (map dumps (y :: l))).
          rewrite E. eexists; eexists; split; [reflexivity | tauto]. }
      destruct Hh as [c [r [E Hc]]].
      pose proof (array_items_dumps (x :: l) ltac:(congruence) Hwf Hrb n rest) as A.
      rewrite E in *.
      replace (c =? 93) with false by (symmetry; apply Z.eqb_neq; exact Hc).
      rewrite A; [reflexivity|].
      cbn [List.length] in Hfuel. rewrite length_app in Hfuel.
      cbn [List.length] in Hfuel. lia.
  - apply wf_dict in Hwf. destruct Hwf as [Hnd Hwf].
    assert (Hrb : Forall (fun kv => reads_back (snd kv)) d).
    { clear Hfuel Hnd. induction IHd as [|x l Hx _ IH]; constructor.
      - apply Hx. inversion Hwf as [|? ? [_ ?] ?]; assumption.
      - apply IH. inversion Hwf; assumption. }
    cbn [dumps] in *. fold sep in *.
    change (map (fun kv => quote (fst kv) ++ lit ": " ++ dumps (snd kv)) d)
      with (map member d) in *.
    cbn [app scan_once].
    change (123 =? 34) with false. change (123 =? 123) with true. cbn iota.
    rewrite <- app_assoc. cbn [app].
    destruct d as [|kv d].
    + reflexivity.
    + destruct (object_items_dumps (kv :: d) ltac:(congruence) Hwf Hrb n rest)
        as [body [E Hitems]].
      { cbn [List.length] in Hfuel. rewrite length_app in Hfuel.
        cbn [List.length] in Hfuel. lia. }
      rewrite E. change (skip_ws (34 :: ?t)) with (34 :: t). cbn iota.
      change (34 =? 125) with false. change (34 =? 34) with true. cbn iota.
      rewrite Hitems. rewrite of_pairs_nodup by exact Hnd. reflexivity.
Qed.

(** [json.loads(json.dumps(m)) == m] *)
Theorem loads_dumps j : wf j -> loads (dumps j) = Some j.
Proof.
  intros H. unfold loads.
  destruct (dumps_head j H) as [c [r [E Hc]]].
  pose proof (value_start_facts c Hc) as [Hws [_ [_ Hbom]]].
  assert (Hb : has_bom (dumps j) = false).
  { rewrite E. simpl. apply Z.eqb_neq; exact Hbom. }
  rewrite Hb. rewrite <- (app_nil_r (dumps j)) at 2.
  rewrite skip_ws_dumps by exact H.
  rewrite (scan_once_dumps j H); [reflexivity | lia | exact I].
Qed.


(** ** What [dumps] writes is printable ASCII *)

Lemma printable_app a b : printable a -> printable b -> printable (a ++ b).
Proof. unfold printable; intros; apply Forall_app; split; assumption. Qed.

Lemma printable_cons c s : 32 <= c <= 126 -> printable s -> printable (c :: s).
Proof. intros; constructor; assumption. Qed.

Ltac printable_closed :=
  unfold printable; repeat (constructor; [split; discriminate|]); constructor.

Lemma hex_digit_printable n : 0 <= n < 16 -> 32 <= hex_digit n <= 126.
Proof. intros H. unfold hex_digit. destruct (n <? 10); lia. Qed.

Lemma u_escape_printable n : printable (u_escape n).
Proof.
  unfold u_escape, hex4.
  repeat (apply printable_cons;
          [try lia; apply hex_digit_printable; apply Z.mod_pos_bound; lia|]).
  constructor.
Qed.

Lemma escape_char_printable c : printable (escape_char c).
Proof.
  unfold escape_char.
  repeat match goal with
         | |- printable (if ?b =? ?k then _ else _) =>
             destruct (b =? k); [printable_closed|]
         end.
  destruct ((32 <=? c) && (c <=? 126)) eqn:E.
  - apply andb_true_iff in E. destruct E as [E1 E2].
    apply Z.leb_le in E1. apply Z.leb_le in E2.
    apply printable_cons; [lia | constructor].
  - destruct (c <? 65536); [apply u_escape_printable|].
    apply printable_app; apply u_escape_printable.
Qed.

Lemma quote_printable s : printable (quote s).
Proof.
  unfold quote. apply printable_cons; [lia|].
  apply printable_app; [|printable_closed].
  induction s as [|c r IH]; [constructor|].
  cbn [flat_map]. apply printable_app; [apply escape_char_printable | exact IH].
Qed.

Lemma uint_chars_printable u : printable (uint_chars u).
Proof. induction u; simpl; try (apply printable_cons; [lia | assumption]); constructor. Qed.

Lemma int_chars_printable i : printable (int_chars i).
Proof.
  destruct i; simpl; [|apply printable_cons; [lia|]]; apply uint_chars_printable.
Qed.

Lemma float_chars_printable f : printable (float_chars f).
Proof.
  assert (F : forall fr, printable (frac_chars fr)).
  { intros fr. unfold frac_chars. pose proof (uint_chars_printable fr) as H.
    destruct fr; try (apply printable_cons; [lia | exact H]). constructor. }
  assert (E : forall e, printable (exp_chars e)).
  { intros [u|u]; simpl; repeat (apply printable_cons; [lia|]);
      apply uint_chars_printable. }
  destruct f as [[i fr|i fr e]| | |]; cbn [float_chars];
    try printable_closed;
    repeat apply printable_app; auto using int_chars_printable.
Qed.

Lemma join_printable parts :
  Forall printable parts -> printable (join sep parts).
Proof.
  induction 1 as [|p ps Hp Hps IH]; [constructor|].
  destruct ps as [|q ps]; [exact Hp|].
  change (join sep (p :: q :: ps)) with (p ++ sep ++ join sep (q :: ps)).
  apply printable_app; [exact Hp|]. apply printable_app; [printable_closed | exact IH].
Qed.

Lemma dumps_printable j : printable (dumps j).
Proof.
  induction j as [|b|z|f|s|l IHl|d IHd] using json_induction; cbn [dumps].
  - printable_closed.
  - destruct b; printable_closed.
  - apply int_chars_printable.
  - apply float_chars_printable.
  - apply quote_printable.
  - apply printable_cons; [lia|]. apply printable_app; [|printable_closed].
    apply join_printable. apply Forall_map. exact IHl.
  - apply printable_cons; [lia|]. apply printable_app; [|printable_closed].
    apply join_printable. apply Forall_map.
    eapply Forall_impl; [|exact IHd]. intros [k v] H; cbn [fst snd] in *.
    apply printable_app; [apply quote_printable|].
    apply printable_app; [printable_closed | exact H].
Qed.

Lemma printable_no_newline s : printable s -> ~ In 10 s.
Proof.
  intros H Hin. unfold printable in H. rewrite Forall_forall in H.
  specialize (H 10 Hin). lia.
Qed.

Lemma printable_ascii s : printable s -> ascii_only s.
Proof. unfold printable, ascii_only. apply Forall_impl. intros; lia. Qed.

Lemma frame_ascii data : ascii_only (frame data).
Proof.
  unfold frame. apply ascii_only_app; [apply printable_ascii, dumps_printable|].
  repeat constructor; lia.
Qed.

(** The bytes of a frame are its characters. *)
Lemma encode_frame data : encode data = Some (frame data).
Proof. apply encode_utf8_ascii, frame_ascii. Qed.

Section Fuel.
Local Open Scope nat_scope.

(** ** The fuel of [loads] is never what makes it fail *)


Lemma skip_ws_length s : List.length (skip_ws s) <= List.length s.
Proof.
  induction s as [|c r IH]; simpl; [lia|]. destruct (is_ws c); simpl; lia.
Qed.

Lemma skip_ws_cons s c r : skip_ws s = c :: r -> List.length r < List.length s.
Proof. intros H. pose proof (skip_ws_length s) as L. rewrite H in L. simpl in L. lia. Qed.

Lemma strip_prefix_length p s r :
  strip_prefix p s = Some r -> List.length r + List.length p = List.length s.
Proof.
  revert s; induction p as [|a p IH]; intros [|b s] H; simpl in *;
    try discriminate; try (injection H as <-; simpl; lia).
  destruct (Z.eqb a b); [|discriminate]. apply IH in H. lia.
Qed.

Lemma take_digits_length s u r :
  take_digits s = (u, r) -> List.length r <= List.length s.
Proof.
  revert u r; induction s as [|c t IH]; intros u r H; simpl in H.
  - injection H as <- <-. lia.
  - destruct (digit_of c).
    + destruct (take_digits t) as [u' r'] eqn:E. injection H as <- <-.
      specialize (IH _ _ eq_refl). simpl; lia.
    + injection H as <- <-. lia.
Qed.

Lemma scan_int_part_length s u r :
  scan_int_part s = Some (u, r) -> List.length r < List.length s.
Proof.
  unfold scan_int_part. destruct s as [|c t]; [discriminate|].
  destruct (Z.eqb c 48).
  - intros H; injection H as <- <-. simpl; lia.
  - destruct (take_digits (c :: t)) as [u' r'] eqn:E.
    destruct (is_nil u') eqn:N; [discriminate|]. intros H; injection H as <- <-.
    simpl in E. destruct (digit_of c).
    + destruct (take_digits t) as [u2 r2] eqn:E2. injection E as <- <-.
      apply take_digits_length in E2. simpl; lia.
    + injection E as <- <-. discriminate.
Qed.

Lemma scan_frac_length s u r : scan_frac s = (u, r) -> List.length r <= List.length s.
Proof.
  unfold scan_frac. destruct s as [|c t]; [intros H; injection H as <- <-; lia|].
  destruct (Z.eqb c 46); [|intros H; injection H as <- <-; lia].
  destruct (take_digits t) as [u' r'] eqn:E. apply take_digits_length in E.
  destruct (is_nil u'); intros H; injection H as <- <-; simpl; lia.
Qed.

Lemma scan_exp_length s e r : scan_exp s = (e, r) -> List.length r <= List.length s.
Proof.
  unfold scan_exp. destruct s as [|c t]; [intros H; injection H as <- <-; lia|].
  destruct (Z.eqb c 101 || Z.eqb c 69); [|intros H; injection H as <- <-; lia].
  destruct t as [|sg t1]; [intros H; injection H as <- <-; lia|].
  destruct (Z.eqb sg 45).
  - destruct (take_digits t1) as [u' r'] eqn:E. apply take_digits_length in E.
    destruct (is_nil u'); intros H; injection H as <- <-; simpl; lia.
  - destruct (take_digits (if Z.eqb sg 43 then t1 else sg :: t1)) as [u' r'] eqn:E.
    apply take_digits_length in E.
    destruct (is_nil u'); intros H; injection H as <- <-; simpl; [lia|].
    destruct (Z.eqb sg 43); simpl in E; lia.
Qed.

Lemma match_number_length s v r :
  match_number s = Some (v, r) -> List.length r < List.length s.
Proof.
  unfold match_number.
  set (p := match s with
            | [] => (false, s)
            | c :: r0 => if Z.eqb c 45 then (true, r0) else (false, s)
            end).
  assert (Hp : List.length (snd p) <= List.length s).
  { unfold p. destruct s as [|c t]; simpl; [lia|]. destruct (Z.eqb c 45); simpl; lia. }
  destruct p as [neg s1]. cbn [snd] in Hp.
  destruct (scan_int_part s1) as [[u s2]|] eqn:E1; [|discriminate].
  apply scan_int_part_length in E1.
  destruct (scan_frac s2) as [fr s3] eqn:E2. apply scan_frac_length in E2.
  destruct (scan_exp s3) as [ex s4] eqn:E3. apply scan_exp_length in E3.
  destruct ex; [|destruct (is_nil fr)]; intros H; injection H as _ <-; lia.
Qed.

Lemma scan_atom_length s v r :
  scan_atom s = Some (v, r) -> List.length r < List.length s.
Proof.
  unfold scan_atom.
  repeat match goal with
         | |- context [match strip_prefix ?p s with _ => _ end] =>
             let E := fresh "E" in
             destruct (strip_prefix p s) eqn:E;
             [apply strip_prefix_length in E; cbn in E;
              intros H; injection H as _ <-; lia|]
         | |- context [match match_number s with _ => _ end] =>
             let E := fresh "E" in
             destruct (match_number s) as [[? ?]|] eqn:E;
             [apply match_number_length in E;
              intros H; injection H as _ <-; exact E|]
         end.
  discriminate.
Qed.

Lemma lex_string_length s us r :
  lex_string s = Some (us, r) -> List.length r < List.length s.
Proof.
  remember (List.length s) as n eqn:Hn. revert s us r Hn.
  induction n as [n IH] using lt_wf_ind. intros s us r Hn H.
  destruct s as [|c t]; [discriminate|]. cbn [lex_string] in H.
  assert (P : forall t' a, List.length t' < n ->
              push a (lex_string t') = Some (us, r) -> List.length r < List.length t').
  { intros t' a Ht Hp. unfold push in Hp.
    destruct (lex_string t') as [[l r']|] eqn:E; [|discriminate].
    injection Hp as _ <-. eapply IH; [exact Ht | reflexivity | exact E]. }
  subst n. simpl in *.
  destruct (Z.eqb c 34); [injection H as _ <-; lia|].
  destruct (Z.eqb c 92).
  - destruct t as [|e r1]; [discriminate|].
    destruct (Z.eqb e 117).
    + destruct r1 as [|h1 [|h2 [|h3 [|h4 r2]]]]; try discriminate.
      destruct (hex4val h1 h2 h3 h4); [|discriminate].
      apply P in H; simpl in *; lia.
    + destruct (backslash e); [|discriminate]. apply P in H; simpl in *; lia.
  - destruct (Z.ltb c 32); [discriminate|]. apply P in H; simpl in *; lia.
Qed.

Lemma scanstring_length s k r :
  scanstring s = Some (k, r) -> List.length r < List.length s.
Proof.
  unfold scanstring. destruct (lex_string s) as [[us r']|] eqn:E; [|discriminate].
  intros H; injection H as _ <-. eapply lex_string_length; exact E.
Qed.

Lemma fuel_enough n :
  enough scan_once n /\ enough array_items n /\ enough object_items n.
Proof.
  induction n as [|n [IHs [IHa IHo]]].
  - repeat split; discriminate.
  - split; [|split]; intros s v r H.
    + (* scan_once *)
      cbn [scan_once] in H. destruct s as [|c t]; [discriminate|].
      change (List.length (c :: t)) with (S (List.length t)).
      destruct (Z.eqb c 34) eqn:E34.
      { destruct (scanstring t) as [[k r']|] eqn:Es; [|discriminate].
        injection H as <- <-. apply scanstring_length in Es as Ls.
        split; [cbn [List.length] in *; lia|]. intros [|m] Hm; [cbn [List.length] in *; lia|].
        cbn [scan_once]. rewrite E34, Es. reflexivity. }
      destruct (Z.eqb c 123) eqn:E123.
      { destruct (skip_ws t) as [|c' r'] eqn:Ew; [discriminate|].
        apply skip_ws_cons in Ew as Lw.
        destruct (Z.eqb c' 125) eqn:E125.
        - injection H as <- <-. split; [cbn [List.length] in *; lia|].
          intros [|m] Hm; [cbn [List.length] in *; lia|].
          cbn [scan_once]. rewrite E34, E123, Ew, E125. reflexivity.
        - destruct (Z.eqb c' 34) eqn:Eq; [|discriminate].
          destruct (object_items n r') as [[ps r'']|] eqn:Eo; [|discriminate].
          injection H as <- <-. destruct (IHo _ _ _ Eo) as [Lo Ho].
          split; [cbn [List.length] in *; lia|]. intros [|m] Hm; [cbn [List.length] in *; lia|].
          cbn [scan_once]. rewrite E34, E123, Ew, E125, Eq.
          rewrite Ho by (cbn [List.length] in *; lia). reflexivity. }
      destruct (Z.eqb c 91) eqn:E91.
      { destruct (skip_ws t) as [|c' r'] eqn:Ew; [discriminate|].
        apply skip_ws_cons in Ew as Lw.
        destruct (Z.eqb c' 93) eqn:E93.
        - injection H as <- <-. split; [cbn [List.length] in *; lia|].
          intros [|m] Hm; [cbn [List.length] in *; lia|].
          cbn [scan_once]. rewrite E34, E123, E91, Ew, E93. reflexivity.
        - destruct (array_items n (c' :: r')) as [[vs r'']|] eqn:Ea; [|discriminate].
          injection H as <- <-. destruct (IHa _ _ _ Ea) as [La Ha].
          change (List.length (c' :: r')) with (S (List.length r')) in *.
          split; [cbn [List.length] in *; lia|]. intros [|m] Hm; [cbn [List.length] in *; lia|].
          cbn [scan_once]. rewrite E34, E123, E91, Ew, E93.
          rewrite Ha by (cbn [List.length] in *; lia). reflexivity. }
      apply scan_atom_length in H as La. split; [exact La|].
      intros [|m] Hm; [cbn [List.length] in *; lia|].
      cbn [scan_once]. rewrite E34, E123, E91. exact H.
    + (* array_items *)
      cbn [array_items] in H.
      destruct (scan_once n s) as [[x r1]|] eqn:Ex; [|discriminate].
      destruct (IHs _ _ _ Ex) as [Lx Hx].
      destruct (skip_ws r1) as [|c r'] eqn:Ew; [discriminate|].
      apply skip_ws_cons in Ew as Lw.
      destruct (Z.eqb c 93) eqn:E93.
      { injection H as <- <-. split; [lia|].
        intros [|m] Hm; [lia|]. cbn [array_items].
        rewrite Hx by lia. rewrite Ew, E93. reflexivity. }
      destruct (Z.eqb c 44) eqn:E44; [|discriminate].
      destruct (array_items n (skip_ws r')) as [[vs r'']|] eqn:Ea; [|discriminate].
      injection H as <- <-. destruct (IHa _ _ _ Ea) as [La Ha].
      pose proof (skip_ws_length r') as Lr.
      split; [lia|]. intros [|m] Hm; [lia|]. cbn [array_items].
      rewrite Hx by lia. rewrite Ew, E93, E44. rewrite Ha by lia. reflexivity.
    + (* object_items *)
      cbn [object_items] in H.
      destruct (scanstring s) as [[k r0]|] eqn:Ek; [|discriminate].
      apply scanstring_length in Ek as Lk.
      destruct (skip_ws r0) as [|c r1] eqn:Ew0; [discriminate|].
      apply skip_ws_cons in Ew0 as Lw0.
      destruct (Z.eqb c 58) eqn:E58; [|discriminate].
      destruct (scan_once n (skip_ws r1)) as [[x r2]|] eqn:Ex; [|discriminate].
      destruct (IHs _ _ _ Ex) as [Lx Hx]. pose proof (skip_ws_length r1) as L1.
      destruct (skip_ws r2) as [|c' r3] eqn:Ew2; [discriminate|].
      apply skip_ws_cons in Ew2 as Lw2.
      destruct (Z.eqb c' 125) eqn:E125.
      { injection H as <- <-. split; [lia|].
        intros [|m] Hm; [lia|]. cbn [object_items].
        rewrite Ek, Ew0, E58. rewrite Hx by lia. rewrite Ew2, E125. reflexivity. }
      destruct (Z.eqb c' 44) eqn:E44; [|discriminate].
      destruct (skip_ws r3) as [|q r4] eqn:Ew3; [discriminate|].
      apply skip_ws_cons in Ew3 as Lw3.
      destruct (Z.eqb q 34) eqn:Eq; [|discriminate].
      destruct (object_items n r4) as [[ps r5]|] eqn:Eo; [|discriminate].
      injection H as <- <-. destruct (IHo _ _ _ Eo) as [Lo Ho].
      split; [lia|]. intros [|m] Hm; [lia|]. cbn [object_items].
      rewrite Ek, Ew0, E58. rewrite Hx by lia. rewrite Ew2, E125, E44, Ew3, Eq.
      rewrite Ho by lia. reflexivity.
Qed.

(** [loads] fails on a text only when the decoder fails on it with every
    fuel: what it is given is always enough. *)
Lemma loads_fuel_is_enough (s r : str) (n : nat) (v : json) :
  has_bom s = false ->
  scan_once n (skip_ws s) = Some (v, r) ->
  loads s = match skip_ws r with [] => Some v | _ :: _ => None end.
Proof.
  intros Hb H. unfold loads. rewrite Hb.
  destruct (fuel_enough n) as [Hs _]. destruct (Hs _ _ _ H) as [_ Hm].
  rewrite Hm; [reflexivity|].
  pose proof (skip_ws_length s). simpl. lia.
Qed.

End Fuel.

(** ** One part of a joined text *)

Lemma join_around (sep : str) (before : list str) (x : str) (after : list str) :
  exists p q, join sep (before ++ x :: after) = p ++ x ++ q.
Proof.
  induction before as [|b before IH].
  - destruct after as [|a after].
    + exists [], []. cbn. rewrite app_nil_r. reflexivity.
    + exists [], (sep ++ join sep (a :: after)). reflexivity.
  - destruct IH as [p [q E]].
    exists (b ++ sep ++ p), q.
    change ((b :: before) ++ x :: after) with (b :: (before ++ x :: after)).
    destruct (before ++ x :: after) as [|y l] eqn:L.
    + destruct before; discriminate.
    + cbn [join]. cbn [join] in E. rewrite E, <- !app_assoc. reflexivity.
Qed.

(** ** Floats that round to zero *)

(** [1e-400] is below half the smallest double: it reads as [0.0], which
    is falsy; [5e-324], the smallest double, is truthy. *)
Lemma underflow_is_falsy :
  loads (lit "1e-400") =
  Some (JFloat (Finite (Decimal.DecimalExp
                          (Decimal.Pos (Decimal.D1 Decimal.Nil)) Decimal.Nil
                          (Decimal.Neg (Decimal.D4 (Decimal.D0 (Decimal.D0
                                                      Decimal.Nil))))))) /\
  truthy (JFloat (Finite (Decimal.DecimalExp
                            (Decimal.Pos (Decimal.D1 Decimal.Nil)) Decimal.Nil
                            (Decimal.Neg (Decimal.D4 (Decimal.D0 (Decimal.D0
                                                        Decimal.Nil)))))))
  = false /\
  truthy (JFloat (Finite (Decimal.DecimalExp
                            (Decimal.Pos (Decimal.D5 Decimal.Nil)) Decimal.Nil
                            (Decimal.Neg (Decimal.D3 (Decimal.D2 (Decimal.D4
                                                        Decimal.Nil)))))))
  = true.
Proof. repeat split; vm_compute; reflexivity. Qed.

End JsonFacts.

(* ================================================================== *)
(** * Facts about the server *)
(* ================================================================== *)

Module ServerFacts.
Import Text Json JsonAux TextFacts JsonFacts Server ServerAux.
Local Open Scope handler_scope.

Lemma world_eq (a b : world) :
  clients a = clients b -> lock_held a = lock_held b -> running a = running b ->
  net a = net b -> sent a = sent b -> clock a = clock b -> ticks a = ticks b ->
  a = b.
Proof. destruct a, b; simpl; intros; subst; reflexivity. Qed.

Lemma deliver_nil data w : deliver data [] w = w.
Proof. apply world_eq; simpl; auto using app_nil_r. Qed.

Lemma send_message_eq s data w :
  send_message s data w = Ok tt (if live w s then deliver data [s] w else w).
Proof.
  unfold send_message, try_except, sock_send, live. rewrite encode_frame.
  destruct (closed (net w s)); [reflexivity|].
  destruct (broken (net w s)); reflexivity.
Qed.

Lemma deliver_deliver data a b w :
  deliver data b (deliver data a w) = deliver data (a ++ b) w.
Proof. apply world_eq; simpl; auto. rewrite map_app, app_assoc; reflexivity. Qed.

Lemma broadcast_loop_eq data exclude socks w :
  broadcast_loop data exclude socks w =
  Ok [] (deliver data (filter (fun s => differs s exclude && live w s) socks) w).
Proof.
  revert w; induction socks as [|s socks IH]; intros w.
  - simpl. rewrite deliver_nil. reflexivity.
  - cbn [broadcast_loop filter]. unfold bind at 1.
    destruct (differs s exclude); cbn [andb].
    + unfold try_except, bind at 1. rewrite send_message_eq. unfold ret at 1.
      unfold bind. rewrite IH. unfold ret. cbn [app].
      destruct (live w s) eqn:L.
      * change (live (deliver data [s] w)) with (live w).
        rewrite deliver_deliver. reflexivity.
      * reflexivity.
    + unfold ret at 1. unfold bind. rewrite IH. reflexivity.
Qed.

Lemma cleanup_nil w : cleanup_loop [] w = Ok tt w.
Proof. reflexivity. Qed.

(** The broadcast writes the frame to every live recipient, in registry
    order, and does nothing else: no send fails past [send_message], so
    the list of disconnected sockets is empty. *)
Lemma broadcast_message_eq data exclude w :
  lock_held w = false ->
  broadcast_message data exclude w = Ok tt (deliver data (recipients w exclude) w).
Proof.
  intros L. unfold broadcast_message, with_lock. rewrite L.
  unfold bind, gets. rewrite broadcast_loop_eq. cbn [cleanup_loop]. unfold ret.
  f_equal. apply world_eq; simpl; auto.
Qed.

Lemma broadcast_message_blocked data exclude w :
  lock_held w = true -> broadcast_message data exclude w = Blocked w.
Proof. intros L. unfold broadcast_message, with_lock. rewrite L. reflexivity. Qed.

Lemma del_absent {V : Type} (s : sock) (d : list (sock * V)) :
  Dict.has Nat.eqb s d = false -> Dict.del Nat.eqb s d = d.
Proof.
  unfold Dict.has. induction d as [|[k v] d IH]; simpl; [reflexivity|].
  destruct (Nat.eqb s k); [discriminate|]. intros H. rewrite IH by exact H. reflexivity.
Qed.

Lemma disconnect_client_eq s username notify w :
  lock_held w = false ->
  disconnect_client s username notify w =
  Ok None
     (if name_set username && notify
      then deliver (user_left_msg (match username with Some n => n | None => [] end)
                      (clock w (ticks w)))
                   (recipients (unregister s w) None) (tick (unregister s w))
      else unregister s w).
Proof.
  intros L. unfold disconnect_client, disconnect_with, try_except.
  unfold bind at 1. unfold with_lock at 1. rewrite L.
  unfold bind at 1. unfold gets at 1.
  assert (E : forall w0,
             (if Dict.has Nat.eqb s (clients w0)
              then modify (fun w => set_clients (Dict.del Nat.eqb s (clients w)) w)
              else ret tt) w0
             = Ok tt (set_clients (Dict.del Nat.eqb s (clients w0)) w0)).
  { intros w0. destruct (Dict.has Nat.eqb s (clients w0)) eqn:H; [reflexivity|].
    unfold ret. f_equal. rewrite del_absent by exact H. destruct w0; reflexivity. }
  rewrite E. unfold bind at 1. unfold sock_close, modify.
  set (w1 := set_conn _ _ _).
  assert (W : w1 = unregister s w) by (apply world_eq; simpl; auto).
  rewrite W. clear w1 W E.
  destruct username as [name|]; [|reflexivity].
  destruct (name_set (Some name) && notify); [|reflexivity].
  unfold bind, time_time.
  rewrite broadcast_message_eq by (simpl; exact L). reflexivity.
Qed.

Lemma receive_message_eq s w :
  receive_message s w = Ok (fst (received s w)) (snd (received s w)).
Proof.
  unfold receive_message, try_except, receive_message_body, received.
  destruct (closed (net w s)); [reflexivity|].
  destruct (read_loop [] (incoming (net w s))) as [[buffer| |e] rest]; cbn [fst snd].
  - destruct (split_first 10 buffer) as [message remaining]. cbn [fst].
    destruct (loads message); reflexivity.
  - reflexivity.
  - destruct e; reflexivity.
Qed.

Lemma received_fields s w :
  let w' := snd (received s w) in
  clients w' = clients w /\ lock_held w' = lock_held w /\ running w' = running w /\
  sent w' = sent w /\ clock w' = clock w /\ (forall r, live w' r = live w r).
Proof.
  unfold received. destruct (closed (net w s)) eqn:C; cbn [snd].
  - repeat split; reflexivity.
  - destruct (read_loop [] (incoming (net w s))) as [res rest].
    assert (forall r, live (set_conn s (mkConn rest (broken (net w s)) (closed (net w s))) w) r
                      = live w r).
    { intros r. unfold live, set_conn; simpl. destruct (Nat.eqb r s) eqn:E; [|reflexivity].
      apply Nat.eqb_eq in E; subst; reflexivity. }
    rewrite C in H.
    destruct res; cbn [snd]; repeat split; try reflexivity; exact H.
Qed.

Lemma received_ticks s w : ticks (snd (received s w)) = ticks w.
Proof.
  unfold received. destruct (closed (net w s)); [reflexivity|].
  destruct (read_loop [] (incoming (net w s))) as [res rest].
  destruct res; reflexivity.
Qed.

Lemma register_eq s username w :
  lock_held w = false ->
  register s username w =
  Ok tt (set_clients (Dict.set Nat.eqb s username (clients w)) w).
Proof.
  intros L. unfold register, with_lock, modify. rewrite L. f_equal.
  apply world_eq; simpl; auto.
Qed.

Lemma announce_eq s username w :
  lock_held w = false ->
  announce s username w =
  Ok tt
     (let w1 := deliver (user_joined_msg username (clock w (ticks w)))
                        (recipients w (Some s)) (tick w) in
      if live w s
      then deliver (welcome_msg username (Dict.values (clients w))
                      (clock w (S (ticks w)))) [s] (tick w1)
      else tick w1).
Proof.
  intros L. unfold announce, bind, time_time, gets.
  rewrite broadcast_message_eq by exact L.
  rewrite send_message_eq. reflexivity.
Qed.

Lemma set_lock_deliver data to w :
  lock_held w = false ->
  set_lock false (deliver data to (set_lock true w)) = deliver data to w.
Proof. intros L. apply world_eq; simpl; auto. Qed.

Lemma set_lock_id w : lock_held w = false -> set_lock false (set_lock true w) = w.
Proof. intros L. apply world_eq; simpl; auto. Qed.

Lemma get_username_eq s w :
  lock_held w = false ->
  get_username s w =
  let w1 := snd (received s w) in
  match verdict_of (fst (received s w)) w1 with
  | Accepted n => Ok (Some n) w1
  | Taken => Ok None (reply s username_taken w1)
  | Invalid => Ok None (reply s invalid_username w1)
  | Crashed => Ok None w1
  end.
Proof.
  intros L. unfold get_username, try_except. unfold bind at 1.
  rewrite receive_message_eq.
  pose proof (received_fields s w) as F. cbv zeta in F.
  destruct (received s w) as [data w1]. cbn [fst snd] in *.
  destruct F as [_ [L1 _]]. rewrite L in L1.
  assert (R : forall msg, (send_message s msg ;; ret (@None str)) w1
                          = Ok None (reply s msg w1)).
  { intros msg. unfold bind. rewrite send_message_eq. reflexivity. }
  destruct data as [[|b|z|f|t|l|d]|]; cbn [verdict_of truthy negb].
  - unfold bind at 1. unfold ret at 1. rewrite R. reflexivity.
  - destruct b.
    + reflexivity.
    + unfold bind at 1. unfold ret at 1. rewrite R. reflexivity.
  - destruct (z =? 0); cbn [negb].
    + unfold bind at 1. unfold ret at 1. rewrite R. reflexivity.
    + reflexivity.
  - destruct (float_truthy f).
    + reflexivity.
    + unfold bind at 1. unfold ret at 1. rewrite R. reflexivity.
  - destruct (str_eqb t []); cbn [negb].
    + unfold bind at 1. unfold ret at 1. rewrite R. reflexivity.
    + reflexivity.
  - destruct l.
    + unfold bind at 1. unfold ret at 1. rewrite R. reflexivity.
    + reflexivity.
  - destruct d as [|kv d'].
    + unfold bind at 1. unfold ret at 1. rewrite R. reflexivity.
    + cbn [verdict_of truthy negb]. set (d := kv :: d').
      unfold bind at 1. unfold bind at 1.
      unfold py_get at 1. unfold ret at 1. unfold ret at 1.
      destruct (is_str (lit "join") (Dict.get str_eqb (lit "type") d)).
      * unfold bind at 1. unfold py_get at 1. unfold ret at 1.
        unfold bind at 1. unfold py_strip.
        destruct (or_default (JStr []) (Dict.get str_eqb (lit "username") d));
          try reflexivity.
        unfold ret at 1.
        destruct (negb (str_eqb (strip s0) []) && Nat.leb (List.length (strip s0)) 20).
        -- unfold bind at 1. unfold with_lock. rewrite L1.
           unfold bind at 1. unfold gets.
           change (name_in_use (strip s0) (set_lock true w1))
             with (name_in_use (strip s0) w1).
           destruct (name_in_use (strip s0) w1).
           ++ unfold bind. rewrite send_message_eq. unfold ret. f_equal.
              unfold reply. change (live (set_lock true w1) s) with (live w1 s).
              destruct (live w1 s); [apply set_lock_deliver | apply set_lock_id]; exact L1.
           ++ unfold ret. f_equal. apply set_lock_id; exact L1.
        -- rewrite R; reflexivity.
      * rewrite R; reflexivity.
  - unfold bind at 1. unfold ret at 1. rewrite R. reflexivity.
Qed.


(** ** Reading a frame that arrives in pieces *)

Lemma app_eq_snoc {A : Type} (a b p : list A) (x : A) :
  a ++ b = p ++ [x] -> b <> [] -> exists b', b = b' ++ [x] /\ p = a ++ b'.
Proof.
  intros E Hb. destruct (exists_last Hb) as [b' [y ->]].
  rewrite app_assoc in E. apply app_inj_tail in E. destruct E as [E ->].
  exists b'. split; [reflexivity | symmetry; exact E].
Qed.

Lemma read_loop_line buffer evs :
  mem 10 buffer = true -> read_loop buffer evs = (Line buffer, evs).
Proof. intros H. destruct evs; simpl; rewrite H; reflexivity. Qed.

Lemma read_loop_chunks chunks : forall buffer payload evs,
  Forall (fun c => c <> [] /\ ascii_only c) chunks ->
  buffer ++ List.concat chunks = payload ++ [10] ->
  ~ In 10 payload ->
  read_loop buffer (map Data chunks ++ evs) = (Line (payload ++ [10]), evs).
Proof.
  induction chunks as [|c cs IH]; intros buffer payload evs Hc E Hn.
  - simpl in E. rewrite app_nil_r in E. subst buffer.
    apply read_loop_line. rewrite mem_app. simpl. apply orb_true_r.
  - inversion Hc as [|? ? [Hne Hasc] Hcs]; subst.
    assert (Hb : mem 10 buffer = false).
    { apply mem_false. intros Hin. simpl in E.
      destruct (app_eq_snoc buffer (c ++ List.concat cs) payload 10 E) as [b' [_ Hp]].
      - destruct c; [congruence | discriminate].
      - apply Hn. rewrite Hp. apply in_or_app; left; exact Hin. }
    cbn [map app read_loop]. rewrite Hb.
    rewrite decode_utf8_ascii by exact Hasc.
    destruct c as [|x c']; [congruence|].
    apply IH; [exact Hcs | | exact Hn].
    rewrite <- app_assoc. exact E.
Qed.

Lemma read_loop_segment payload tail evs :
  ascii_only (payload ++ 10 :: tail) ->
  read_loop [] (Data (payload ++ 10 :: tail) :: evs)
  = (Line (payload ++ 10 :: tail), evs).
Proof.
  intros H. cbn [read_loop mem existsb]. rewrite decode_utf8_ascii by exact H.
  assert (M : mem 10 (payload ++ 10 :: tail) = true).
  { rewrite mem_app. simpl. apply orb_true_r. }
  destruct (payload ++ 10 :: tail) as [|x r] eqn:E.
  - destruct payload; discriminate.
  - cbn [app]. apply read_loop_line. exact M.
Qed.

(** ** Filters *)

Lemma filter_andb {A : Type} (f g : A -> bool) (l : list A) :
  filter (fun x => f x && g x) l = filter g (filter f l).
Proof.
  induction l as [|x l IH]; simpl; [reflexivity|].
  destruct (f x); simpl; [destruct (g x); rewrite IH; reflexivity | exact IH].
Qed.

Lemma filter_all {A : Type} (f : A -> bool) (l : list A) :
  (forall x, In x l -> f x = true) -> filter f l = l.
Proof.
  induction l as [|x l IH]; simpl; intros H; [reflexivity|].
  rewrite (H x) by (left; reflexivity). rewrite IH; [reflexivity|].
  intros y Hy; apply H; right; exact Hy.
Qed.

Lemma filter_one_out {A : Type} (f : A -> bool) (before after : list A) (x : A) :
  f x = false -> (forall y, In y (before ++ after) -> f y = true) ->
  filter f (before ++ x :: after) = before ++ after.
Proof.
  intros Hx H. rewrite filter_app. cbn [filter]. rewrite Hx.
  rewrite !filter_all; [reflexivity | |];
    intros y Hy; apply H; apply in_or_app; [right | left]; exact Hy.
Qed.

(** ** The registry as a dictionary *)

Lemma values_set_in (s : sock) (n : str) (d : list (sock * str)) :
  In n (Dict.values (Dict.set Nat.eqb s n d)).
Proof.
  induction d as [|[k v] d IH]; simpl; [left; reflexivity|].
  destruct (Nat.eqb s k); simpl; [left; reflexivity | right; exact IH].
Qed.

Lemma values_del_set (s : sock) (n x : str) (d : list (sock * str)) :
  In x (Dict.values (Dict.del Nat.eqb s (Dict.set Nat.eqb s n d))) ->
  In x (Dict.values d).
Proof.
  induction d as [|[k v] d IH]; simpl.
  - rewrite Nat.eqb_refl. simpl. tauto.
  - destruct (Nat.eqb s k) eqn:E; simpl; rewrite E; simpl.
    + intros H; right; exact H.
    + intros [H|H]; [left; exact H | right; apply IH; exact H].
Qed.

Lemma has_del (s : sock) (d : list (sock * str)) :
  NoDup (Dict.keys d) -> Dict.has Nat.eqb s (Dict.del Nat.eqb s d) = false.
Proof.
  unfold Dict.has. induction d as [|[k v] d IH]; simpl; intros H; [reflexivity|].
  inversion H as [|? ? Hk Hd]; subst.
  destruct (Nat.eqb s k) eqn:E.
  - apply Nat.eqb_eq in E; subst.
    destruct (Dict.get Nat.eqb k d) eqn:G; [|reflexivity].
    exfalso; apply Hk. clear -G. induction d as [|[k' v'] d IH]; simpl in *; [discriminate|].
    destruct (Nat.eqb k k') eqn:E; [left; apply Nat.eqb_eq in E; congruence|].
    right; apply IH; exact G.
  - simpl. rewrite E. apply IH; exact Hd.
Qed.

Lemma name_in_use_false (n : str) (w : world) :
  name_in_use n w = false <-> ~ In n (Dict.values (clients w)).
Proof.
  unfold name_in_use. split.
  - intros H Hin.
    assert (existsb (str_eqb n) (Dict.values (clients w)) = true).
    { apply existsb_exists. exists n. split; [exact Hin | apply str_eqb_refl]. }
    congruence.
  - intros H. destruct (existsb _ _) eqn:E; [|reflexivity].
    apply existsb_exists in E. destruct E as [x [Hx Hn]].
    apply str_eqb_eq in Hn; subst. contradiction.
Qed.

Lemma accept_eq s username w :
  lock_held w = false ->
  accept s username w =
  Ok tt
     (let w1 := set_clients (Dict.set Nat.eqb s username (clients w)) w in
      let w2 := deliver (user_joined_msg username (clock w (ticks w)))
                        (recipients w1 (Some s)) (tick w1) in
      if live w s
      then deliver (welcome_msg username (Dict.values (clients w1))
                      (clock w (S (ticks w)))) [s] (tick w2)
      else tick w2).
Proof.
  intros L. unfold accept, bind. rewrite register_eq by exact L.
  rewrite announce_eq by exact L. reflexivity.
Qed.

Lemma recipients_exclude w s : ~ In s (recipients w (Some s)).
Proof.
  unfold recipients. intros H. apply filter_In in H. destruct H as [_ H].
  unfold differs in H. rewrite Nat.eqb_refl in H. discriminate.
Qed.

Lemma process_chat s username d content w :
  Dict.get str_eqb (lit "type") d = Some (JStr (lit "chat")) ->
  or_default (JStr []) (Dict.get str_eqb (lit "message") d) = JStr content ->
  process_message s username (JDict d) w =
  if forallb isspace content then Ok tt w
  else broadcast_message (chat_msg username (strip content) (clock w (ticks w)))
         None (tick w).
Proof.
  intros Ht Hm. unfold process_message, bind at 1. unfold py_get at 1, ret at 1.
  rewrite Ht. change (is_str (lit "chat") (Some (JStr (lit "chat")))) with true. cbn iota.
  unfold bind at 1. unfold py_get at 1, ret at 1. rewrite Hm.
  unfold bind at 1. unfold py_strip, ret at 1.
  destruct (forallb isspace content) eqn:E.
  - apply strip_empty_iff in E. rewrite E. reflexivity.
  - assert (N : str_eqb (strip content) [] = false).
    { apply str_eqb_neq. intros H. apply strip_empty_iff in H. congruence. }
    rewrite N. reflexivity.
Qed.


(** The registry after a broadcast is the registry before it: the session
    whose send failed stays (the exception never leaves [send_message], so
    [disconnected_clients] stays empty). *)
Lemma broadcast_keeps_registry data exclude w w' :
  broadcast_message data exclude w = Ok tt w' -> clients w' = clients w.
Proof.
  destruct (lock_held w) eqn:L.
  - rewrite broadcast_message_blocked by exact L. discriminate.
  - rewrite broadcast_message_eq by exact L. intros H; injection H as <-. reflexivity.
Qed.


(** ** Names stay distinct when joins do not overlap *)

Lemma values_set_subset (s : sock) (n x : str) (d : list (sock * str)) :
  In x (Dict.values (Dict.set Nat.eqb s n d)) -> x = n \/ In x (Dict.values d).
Proof.
  induction d as [|[k v] d IH]; simpl.
  - intros [H|[]]; left; symmetry; exact H.
  - destruct (Nat.eqb s k); simpl.
    + intros [H|H]; [left; symmetry; exact H | right; right; exact H].
    + intros [H|H]; [right; left; exact H|].
      destruct (IH H) as [H'|H']; [left; exact H' | right; right; exact H'].
Qed.

Lemma values_set_nodup (s : sock) (n : str) (d : list (sock * str)) :
  NoDup (Dict.values d) -> ~ In n (Dict.values d) ->
  NoDup (Dict.values (Dict.set Nat.eqb s n d)).
Proof.
  induction d as [|[k v] d IH]; simpl; intros Hd Hn.
  - constructor; [intros [] | constructor].
  - inversion Hd as [|? ? Hv Hd']; subst.
    destruct (Nat.eqb s k); simpl.
    + constructor; [intros H; apply Hn; right; exact H | exact Hd'].
    + constructor.
      * intros H. apply values_set_subset in H. destruct H as [H|H].
        -- apply Hn; left; exact H.
        -- apply Hv; exact H.
      * apply IH; [exact Hd' | intros H; apply Hn; right; exact H].
Qed.

(** What an accepted name has been checked for. *)
Lemma get_username_accepted s w n w' :
  lock_held w = false ->
  get_username s w = Ok (Some n) w' ->
  name_in_use n w' = false /\ clients w' = clients w /\ sent w' = sent w /\
  lock_held w' = false /\ n <> [] /\ (List.length n <= 20)%nat.
Proof.
  intros L H. rewrite get_username_eq in H by exact L. cbv zeta in H.
  pose proof (received_fields s w) as F. cbv zeta in F.
  destruct (received s w) as [data w1]. cbn [fst snd] in *.
  destruct F as [Fc [Fl [_ [Fs _]]]].
  destruct (verdict_of data w1) eqn:V; try discriminate.
  injection H as <- <-. unfold verdict_of in V.
  destruct data as [[|b|z|f|t|l|d]|];
    repeat match type of V with
           | context [if ?c then _ else _] => destruct c eqn:?
           | context [match ?c with _ => _ end] => destruct c eqn:?
           end; try discriminate.
  injection V as <-.
  match goal with
  | E : _ && _ = true |- _ => apply andb_true_iff in E; destruct E as [E1 E2]
  end.
  apply negb_true_iff, str_eqb_neq in E1. apply Nat.leb_le in E2.
  repeat split; try assumption; congruence.
Qed.

(** A join that no other handler cuts into keeps the names distinct. *)
Lemma join_keeps_names_unique s w r w' :
  lock_held w = false -> unique_names w ->
  join s w = Ok r w' -> unique_names w'.
Proof.
  intros L U H. unfold join, bind in H.
  destruct (get_username s w) as [[[|c n]|] w1|e w1|w1] eqn:G; try discriminate.
  - pose proof (get_username_accepted s w [] w1 L G) as [_ [_ [_ [_ [N _]]]]]. congruence.
  - pose proof (get_username_accepted s w (c :: n) w1 L G) as [Hfree [Hc [_ [L1 _]]]].
    rewrite accept_eq in H by exact L1. injection H as _ <-.
    unfold unique_names in *. cbv zeta.
    assert (E : forall a b : world, clients (if live w1 s then a else b)
                                    = if live w1 s then clients a else clients b)
      by (intros; destruct (live w1 s); reflexivity).
    rewrite E. cbn [clients deliver set_clients].
    destruct (live w1 s); apply values_set_nodup;
      try (rewrite Hc; exact U); apply name_in_use_false; exact Hfree.
  - unfold ret in H. injection H as _ <-.
    rewrite get_username_eq in G by exact L. cbv zeta in G.
    pose proof (received_fields s w) as F. cbv zeta in F.
    destruct F as [Fc _]. unfold unique_names. 
    destruct (verdict_of _ _); try discriminate; injection G as <-; unfold reply;
      try destruct (live _ s); cbn [clients deliver]; rewrite Fc; exact U.
Qed.

Lemma frames_differ :
  frame invalid_username <> frame username_taken.
Proof. vm_compute. discriminate. Qed.


(** ** The handlers at work *)

(** The end-to-end scenario of the specification: who is written what,
    in order, and who is registered at the end. *)
Lemma evening_goes_as_told :
  let w := sys_world (run_schedule Scenario.evening_schedule Scenario.evening) in
  sent w =
  [(1, frame (welcome_msg Scenario.alice [Scenario.alice] (Scenario.readings 1)));
   (1, frame (user_joined_msg Scenario.bob (Scenario.readings 2)));
   (2, frame (welcome_msg Scenario.bob [Scenario.alice; Scenario.bob]
                (Scenario.readings 3)));
   (1, frame (chat_msg Scenario.bob (lit "hi") (Scenario.readings 4)));
   (2, frame (chat_msg Scenario.bob (lit "hi") (Scenario.readings 4)));
   (2, frame (user_left_msg Scenario.alice (Scenario.readings 5)));
   (2, frame (user_joined_msg Scenario.alice (Scenario.readings 6)));
   (3, frame (welcome_msg Scenario.alice [Scenario.bob; Scenario.alice]
                (Scenario.readings 7)))]%nat /\
  clients w = [(2, Scenario.bob); (3, Scenario.alice)]%nat.
Proof. vm_compute. split; reflexivity. Qed.

(** [handle_client] from the connection to the clean-up, for one visitor:
    she is welcomed, gets her own line back, and is gone from the registry
    when the handler ends. *)
Lemma visit_goes_as_told :
  exists w,
    handle_client 6 1%nat Scenario.visit = Ok Closed w /\
    sent w =
    [(1%nat, frame (welcome_msg Scenario.alice [Scenario.alice]
                      (Scenario.readings 1)));
     (1%nat, frame (chat_msg Scenario.alice (lit "hi") (Scenario.readings 2)))] /\
    clients w = [] /\ closed (net w 1%nat) = true.
Proof. eexists. split; [vm_compute; reflexivity|]. repeat split. Qed.

(** The client writes the same frame as the server. *)
Lemma client_send_message_eq data k out run :
  closed k = false -> broken k = false ->
  Client.send_message data (Client.mkClient (Some k) out run)
  = (true, Client.mkClient (Some k) (out ++ [frame data]) run).
Proof.
  intros Hc Hb. unfold Client.send_message; cbn [Client.socket].
  rewrite encode_frame, Hc, Hb. reflexivity.
Qed.

End ServerFacts.

(* ================================================================== *)
(** * More facts about the server *)
(* ================================================================== *)

Module MoreFacts.
Import Text Json JsonAux TextFacts JsonFacts Server ServerAux ServerFacts Lifecycle.
Local Open Scope handler_scope.

(** ** What the reader consumes *)

Lemma read_loop_shorter buffer evs :
  (List.length (snd (read_loop buffer evs)) <= List.length evs)%nat.
Proof.
  revert buffer; induction evs as [|e evs IH]; intros buffer; simpl.
  - destruct (mem 10 buffer); simpl; lia.
  - destruct (mem 10 buffer); [simpl; lia|].
    destruct e as [bs| |]; try (simpl; lia).
    destruct (decode_utf8 bs) as [[|c chunk]|]; try (simpl; lia).
    specialize (IH (buffer ++ c :: chunk)). lia.
Qed.

Lemma read_loop_line_consumes buffer evs line rest :
  mem 10 buffer = false ->
  read_loop buffer evs = (Line line, rest) ->
  (List.length rest < List.length evs)%nat.
Proof.
  intros Hb H. destruct evs as [|e evs]; simpl in H; rewrite Hb in H; [discriminate|].
  destruct e as [bs| |]; try discriminate.
  destruct (decode_utf8 bs) as [[|c chunk]|]; try discriminate.
  pose proof (read_loop_shorter (buffer ++ c :: chunk) evs) as L.
  rewrite H in L. simpl in *. lia.
Qed.

Lemma received_net s w r :
  net (snd (received s w)) r =
  if Nat.eqb r s
  then mkConn (if closed (net w s) then incoming (net w s)
               else snd (read_loop [] (incoming (net w s))))
              (broken (net w s)) (closed (net w s))
  else net w r.
Proof.
  unfold received. destruct (closed (net w s)) eqn:C; cbn [snd].
  - destruct (Nat.eqb r s) eqn:E; [|reflexivity].
    apply Nat.eqb_eq in E; subst. rewrite <- C. destruct (net w s); reflexivity.
  - destruct (read_loop [] (incoming (net w s))) as [res rest].
    destruct res; cbn [snd net set_conn]; destruct (Nat.eqb r s); reflexivity.
Qed.

Lemma received_shorter s w :
  (List.length (incoming (net (snd (received s w)) s))
   <= List.length (incoming (net w s)))%nat.
Proof.
  rewrite received_net, Nat.eqb_refl. cbn [incoming].
  destruct (closed (net w s)); [lia | apply read_loop_shorter].
Qed.

Lemma received_some_consumes s w data :
  fst (received s w) = Some data ->
  (List.length (incoming (net (snd (received s w)) s))
   < List.length (incoming (net w s)))%nat.
Proof.
  intros H. rewrite received_net, Nat.eqb_refl. cbn [incoming].
  unfold received in H. destruct (closed (net w s)); [discriminate|].
  destruct (read_loop [] (incoming (net w s))) as [res rest] eqn:E.
  destruct res as [line| |e]; try discriminate.
  cbn [snd]. apply (read_loop_line_consumes [] _ line rest); [reflexivity | exact E].
Qed.

(** ** What [process_message] can do *)

Lemma process_message_dict s username d w :
  process_message s username (JDict d) w =
  if is_str (lit "chat") (Dict.get str_eqb (lit "type") d) then
    match or_default (JStr []) (Dict.get str_eqb (lit "message") d) with
    | JStr content =>
        if negb (str_eqb (strip content) [])
        then broadcast_message
               (chat_msg username (strip content) (clock w (ticks w))) None (tick w)
        else Ok tt w
    | _ => Raised AttributeError w
    end
  else if is_str (lit "ping") (Dict.get str_eqb (lit "type") d)
       then send_message s pong_msg w
       else Ok tt w.
Proof.
  unfold process_message, bind, py_get, py_strip, time_time, gets, ret.
  destruct (is_str (lit "chat") (Dict.get str_eqb (lit "type") d)).
  - destruct (or_default (JStr []) (Dict.get str_eqb (lit "message") d));
      try reflexivity.
    destruct (negb (str_eqb (strip s0) [])); reflexivity.
  - destruct (is_str (lit "ping") (Dict.get str_eqb (lit "type") d)); reflexivity.
Qed.

Lemma process_message_other s username data w :
  (forall d, data <> JDict d) ->
  process_message s username data w = Raised AttributeError w.
Proof. intros H. destruct data; try reflexivity. exfalso; eapply H; reflexivity. Qed.

Lemma process_message_cases s username data w :
  lock_held w = false ->
  (exists to msg w0,
     (w0 = w \/ w0 = tick w) /\
     process_message s username data w = Ok tt (deliver msg to w0)) \/
  process_message s username data w = Raised AttributeError w.
Proof.
  intros L.
  assert (N : forall o, o = Ok tt w ->
              exists to msg w0,
                (w0 = w \/ w0 = tick w) /\ o = Ok tt (deliver msg to w0)).
  { intros o ->. exists [], JNull, w. rewrite deliver_nil.
    split; [left|]; reflexivity. }
  destruct data as [|b|z|f|t|l|d]; try (right; reflexivity).
  rewrite process_message_dict.
  destruct (is_str (lit "chat") (Dict.get str_eqb (lit "type") d)).
  - destruct (or_default (JStr []) (Dict.get str_eqb (lit "message") d))
      as [| | | |content| |]; try (right; reflexivity).
    destruct (negb (str_eqb (strip content) [])); [|left; apply N; reflexivity].
    left. rewrite broadcast_message_eq by exact L.
    eexists; eexists; exists (tick w). split; [right|]; reflexivity.
  - destruct (is_str (lit "ping") (Dict.get str_eqb (lit "type") d));
      [|left; apply N; reflexivity].
    left. rewrite send_message_eq. destruct (live w s); [|apply N; reflexivity].
    eexists; eexists; exists w. split; [left|]; reflexivity.
Qed.

(** ** The registry stays a dictionary *)

Lemma keys_set (s : sock) (n : str) (d : list (sock * str)) :
  Dict.keys (Dict.set Nat.eqb s n d) =
  if Dict.has Nat.eqb s d then Dict.keys d else Dict.keys d ++ [s].
Proof.
  unfold Dict.has. induction d as [|[k v] d IH]; simpl; [reflexivity|].
  destruct (Nat.eqb s k) eqn:E; simpl; [reflexivity|].
  rewrite IH. destruct (Dict.get Nat.eqb s d); reflexivity.
Qed.

Lemma has_in (s : sock) (d : list (sock * str)) :
  Dict.has Nat.eqb s d = true <-> In s (Dict.keys d).
Proof.
  unfold Dict.has. induction d as [|[k v] d IH]; simpl.
  - split; [discriminate | tauto].
  - destruct (Nat.eqb s k) eqn:E.
    + apply Nat.eqb_eq in E. split; [intros _; left; congruence | reflexivity].
    + apply Nat.eqb_neq in E. rewrite IH. split; [tauto | intros [H|H]; [congruence | exact H]].
Qed.

Lemma keys_set_nodup (s : sock) (n : str) (d : list (sock * str)) :
  NoDup (Dict.keys d) -> NoDup (Dict.keys (Dict.set Nat.eqb s n d)).
Proof.
  intros H. rewrite keys_set. destruct (Dict.has Nat.eqb s d) eqn:E; [exact H|].
  apply NoDup_app; [exact H | constructor; [intros [] | constructor] |].
  intros x Hx [Hs|[]]. subst x. apply has_in in Hx. congruence.
Qed.

Lemma keys_del_nodup (s : sock) (d : list (sock * str)) :
  NoDup (Dict.keys d) -> NoDup (Dict.keys (Dict.del Nat.eqb s d)).
Proof.
  induction d as [|[k v] d IH]; simpl; intros H; [constructor|].
  inversion H as [|? ? Hk Hd]; subst.
  destruct (Nat.eqb s k); [exact Hd|]. simpl. constructor; [|apply IH; exact Hd].
  intros Hin. apply Hk. clear -Hin.
  induction d as [|[k' v'] d IH]; simpl in *; [contradiction|].
  destruct (Nat.eqb s k'); [right; exact Hin|].
  destruct Hin as [Hin|Hin]; [left; exact Hin | right; apply IH; exact Hin].
Qed.

(** ** A handler runs to its end *)

Lemma settled_deliver msg to w : settled w -> settled (deliver msg to w).
Proof. intros H; exact H. Qed.

Lemma settled_reply s msg w : settled w -> settled (reply s msg w).
Proof. intros H. unfold reply. destruct (live w s); exact H. Qed.

Lemma net_reply s msg w : net (reply s msg w) = net w.
Proof. unfold reply. destruct (live w s); reflexivity. Qed.

Lemma settled_received s w : settled w -> settled (snd (received s w)).
Proof.
  intros [L K]. pose proof (received_fields s w) as F. cbv zeta in F.
  destruct F as [Fc [Fl _]]. split; [rewrite Fl; exact L | rewrite Fc; exact K].
Qed.

(** Each piece of a handler that has not ended returns, leaves the
    registry a dictionary and the lock free, and brings the handler nearer
    to its end; the last piece closes the socket and leaves no entry. *)
Lemma thread_step_progress s p w :
  settled w -> p <> Closed ->
  exists p' w',
    thread_step s p w = Ok p' w' /\
    settled w' /\
    (pieces_left p' (List.length (incoming (net w' s)))
     < pieces_left p (List.length (incoming (net w s))))%nat /\
    (p' = Closed ->
     closed (net w' s) = true /\ Dict.has Nat.eqb s (clients w') = false).
Proof.
  intros S Hp. pose proof S as [L K].
  destruct p as [|n|n|n|u|]; [| | | | |congruence]; cbn [thread_step].
  - (* Connected *)
    unfold bind. rewrite get_username_eq by exact L. cbv zeta.
    pose proof (settled_received s w S) as S1.
    pose proof (received_shorter s w) as Len.
    set (w1 := snd (received s w)) in *.
    destruct (verdict_of (fst (received s w)) w1) as [n| | |].
    + destruct n as [|c r]; eexists; eexists; (split; [reflexivity|]);
        (split; [exact S1|]); (split; [cbn [pieces_left]; lia | discriminate]).
    + eexists; eexists; split; [reflexivity|]. split; [apply settled_reply; exact S1|].
      split; [cbn [pieces_left]; lia | discriminate].
    + eexists; eexists; split; [reflexivity|]. split; [apply settled_reply; exact S1|].
      split; [cbn [pieces_left]; lia | discriminate].
    + eexists; eexists; split; [reflexivity|]. split; [exact S1|].
      split; [cbn [pieces_left]; lia | discriminate].
  - (* Checked *)
    unfold try_except, bind. rewrite register_eq by exact L.
    eexists; eexists; split; [reflexivity|]. split.
    + split; [exact L | apply keys_set_nodup; exact K].
    + split; [cbn [pieces_left net set_clients]; lia | discriminate].
  - (* Registered *)
    unfold try_except, bind. rewrite announce_eq by exact L. cbv zeta.
    eexists; eexists; split; [reflexivity|]. split.
    + destruct (live w s); exact S.
    + split; [|discriminate]. cbn [pieces_left].
      destruct (live w s); cbn [net deliver tick]; lia.
  - (* Active *)
    unfold bind at 1. unfold gets at 1. destruct (running w).
    2:{ eexists; eexists; split; [reflexivity|]. split; [exact S|].
        split; [cbn [pieces_left]; lia | discriminate]. }
    unfold bind, loop_turn, try_except. unfold bind. rewrite receive_message_eq.
    pose proof (settled_received s w S) as S1.
    pose proof (received_shorter s w) as Len.
    pose proof (received_some_consumes s w) as Cons.
    set (w1 := snd (received s w)) in *.
    destruct (fst (received s w)) as [data|].
    2:{ eexists; eexists; split; [reflexivity|]. split; [exact S1|].
        split; [cbn [pieces_left]; lia | discriminate]. }
    specialize (Cons data eq_refl).
    destruct (truthy data).
    2:{ eexists; eexists; split; [reflexivity|]. split; [exact S1|].
        split; [cbn [pieces_left]; lia | discriminate]. }
    destruct (process_message_cases s n data w1 (proj1 S1))
      as [[to [msg [w0 [[-> | ->] E]]]]|E]; rewrite E.
    + eexists; eexists; split; [reflexivity|]. split; [exact S1|].
      split; [cbn [pieces_left net deliver]; lia | discriminate].
    + eexists; eexists; split; [reflexivity|]. split; [exact S1|].
      split; [cbn [pieces_left net deliver tick]; lia | discriminate].
    + eexists; eexists; split; [reflexivity|]. split; [exact S1|].
      split; [cbn [pieces_left]; lia | discriminate].
  - (* Closing *)
    unfold bind. rewrite disconnect_client_eq by exact L.
    eexists; eexists; split; [reflexivity|].
    assert (U : settled (unregister s w)).
    { split; [exact L | apply keys_del_nodup; exact K]. }
    assert (C : closed (net (unregister s w) s) = true).
    { unfold unregister, set_conn; cbn [net]. rewrite Nat.eqb_refl. reflexivity. }
    assert (A : Dict.has Nat.eqb s (clients (unregister s w)) = false).
    { apply has_del; exact K. }
    destruct (name_set u && true).
    + split; [exact U|]. split; [cbn [pieces_left]; lia|]. intros _. split; assumption.
    + split; [exact U|]. split; [cbn [pieces_left]; lia|]. intros _. split; assumption.
Qed.

Lemma run_thread_closed turns s w : run_thread turns s Closed w = Ok Closed w.
Proof. destruct turns; reflexivity. Qed.

Lemma run_thread_ends s turns : forall p w,
  settled w -> p <> Closed ->
  (pieces_left p (List.length (incoming (net w s))) <= turns)%nat ->
  exists w',
    run_thread turns s p w = Ok Closed w' /\
    settled w' /\
    closed (net w' s) = true /\ Dict.has Nat.eqb s (clients w') = false.
Proof.
  induction turns as [|turns IH]; intros p w S Hp Hn.
  - destruct p; cbn [pieces_left] in Hn; try lia. congruence.
  - destruct (thread_step_progress s p w S Hp) as [p' [w' [E [S' [Hlt Hc]]]]].
    assert (R : run_thread (Datatypes.S turns) s p w = run_thread turns s p' w').
    { destruct p; try congruence; cbn [run_thread]; unfold bind at 1;
        rewrite E; reflexivity. }
    rewrite R. destruct p' as [|n|n|n|u|];
      try (apply IH; [exact S' | discriminate | lia]).
    rewrite run_thread_closed. exists w'. destruct (Hc eq_refl) as [C A].
    split; [reflexivity|]. split; [exact S'|]. split; assumption.
Qed.

(** ** [strip] twice *)

Lemma lstrip_fixed c r : isspace c = false -> lstrip (c :: r) = c :: r.
Proof. intros H. simpl. rewrite H. reflexivity. Qed.

Lemma lstrip_idem s : lstrip (lstrip s) = lstrip s.
Proof.
  destruct (lstrip s) as [|c r] eqn:E; [reflexivity|].
  apply lstrip_fixed. eapply lstrip_head; exact E.
Qed.

Lemma lstrip_snoc x c :
  isspace c = false -> exists q, lstrip (x ++ [c]) = q ++ [c].
Proof.
  intros H. induction x as [|y x [q IH]]; simpl.
  - rewrite H. exists []. reflexivity.
  - destruct (isspace y); [exists q; exact IH | exists (y :: x); reflexivity].
Qed.

Lemma lstrip_rstrip a : lstrip a = a -> lstrip (rstrip a) = rstrip a.
Proof.
  intros Ha. unfold rstrip. destruct a as [|c t]; [reflexivity|].
  assert (Hc : isspace c = false) by (eapply lstrip_head; exact Ha).
  cbn [rev]. destruct (lstrip_snoc (rev t) c Hc) as [q Hq]. rewrite Hq.
  rewrite rev_app_distr. cbn [rev app]. apply lstrip_fixed. exact Hc.
Qed.

Lemma rstrip_idem a : rstrip (rstrip a) = rstrip a.
Proof. unfold rstrip. rewrite rev_involutive, lstrip_idem. reflexivity. Qed.

Lemma strip_idem s : strip (strip s) = strip s.
Proof.
  unfold strip. rewrite lstrip_rstrip by apply lstrip_idem. apply rstrip_idem.
Qed.

Lemma strip_length s : (List.length (strip s) <= List.length s)%nat.
Proof.
  assert (L : forall x, (List.length (lstrip x) <= List.length x)%nat).
  { induction x as [|c r IH]; simpl; [lia|]. destruct (isspace c); simpl; lia. }
  unfold strip, rstrip. rewrite length_rev.
  etransitivity; [apply L|]. rewrite length_rev. apply L.
Qed.

(** ** Lookups in the registry *)

Lemma get_set_same (s : sock) (n : str) (d : list (sock * str)) :
  Dict.get Nat.eqb s (Dict.set Nat.eqb s n d) = Some n.
Proof.
  induction d as [|[k v] d IH]; simpl.
  - rewrite Nat.eqb_refl. reflexivity.
  - destruct (Nat.eqb s k) eqn:E; simpl; rewrite E; [reflexivity | exact IH].
Qed.

Lemma is_str_false text v : is_str text v = false <-> v <> Some (JStr text).
Proof.
  unfold is_str. destruct v as [[| | | |t| |]|]; try (split; [discriminate | reflexivity]).
  rewrite str_eqb_neq. split; intros H; congruence.
Qed.

Lemma is_str_true text v : is_str text v = true <-> v = Some (JStr text).
Proof.
  unfold is_str. destruct v as [[| | | |t| |]|]; try (split; discriminate).
  rewrite str_eqb_eq. split; intros H; congruence.
Qed.

(** ** The message loop *)

Lemma loop_turn_eq s username w :
  loop_turn s username w =
  match fst (received s w) with
  | Some data =>
      if truthy data
      then match process_message s username data (snd (received s w)) with
           | Ok _ w' => Ok true w'
           | Raised e w' =>
               Ok (match e with SocketTimeout => true | _ => false end) w'
           | Blocked w' => Blocked w'
           end
      else Ok false (snd (received s w))
  | None => Ok false (snd (received s w))
  end.
Proof.
  unfold loop_turn, try_except. unfold bind at 1. rewrite receive_message_eq.
  destruct (fst (received s w)) as [data|]; [|reflexivity].
  destruct (truthy data); [|reflexivity].
  unfold bind.
  destruct (process_message s username data (snd (received s w))) as [[] v|e v|v];
    try reflexivity.
  destruct e; reflexivity.
Qed.

Lemma receive_message_inv s w r w1 :
  receive_message s w = Ok r w1 -> fst (received s w) = r /\ snd (received s w) = w1.
Proof. rewrite receive_message_eq. intros H. inversion H. split; reflexivity. Qed.

(** ** The handshake and the registry *)

Lemma get_username_returns s w :
  lock_held w = false ->
  exists r w1,
    get_username s w = Ok r w1 /\ clients w1 = clients w /\ lock_held w1 = false.
Proof.
  intros Hl. rewrite get_username_eq by exact Hl. cbv zeta.
  pose proof (received_fields s w) as F. cbv zeta in F.
  destruct F as [Fc [Fl _]].
  destruct (verdict_of _ _); eexists; eexists; (split; [reflexivity|]);
    unfold reply; try destruct (live _ s); cbn [clients lock_held deliver];
    split; congruence.
Qed.

Lemma keys_del_filter (s : sock) (d : list (sock * str)) :
  NoDup (Dict.keys d) ->
  Dict.keys (Dict.del Nat.eqb s d) = filter (fun r => negb (Nat.eqb r s)) (Dict.keys d).
Proof.
  induction d as [|[k v] d IH]; intros Hn; [reflexivity|].
  cbn in Hn. inversion Hn as [|? ? Hk Hd]; subst.
  cbn [Dict.del Dict.keys map fst filter].
  destruct (Nat.eqb s k) eqn:E.
  - apply Nat.eqb_eq in E. subst k. rewrite Nat.eqb_refl. cbn [negb].
    symmetry. apply filter_all. intros x Hx.
    apply negb_true_iff, Nat.eqb_neq. intros ->. exact (Hk Hx).
  - rewrite Nat.eqb_sym, E. cbn [negb Dict.keys map fst].
    f_equal. apply IH, Hd.
Qed.

Lemma live_unregister s w r :
  live (unregister s w) r = negb (Nat.eqb r s) && live w r.
Proof.
  unfold live, unregister. cbn. destruct (Nat.eqb r s) eqn:E; [|reflexivity].
  reflexivity.
Qed.

Lemma recipients_unregister s w :
  NoDup (Dict.keys (clients w)) ->
  recipients (unregister s w) None =
  filter (fun r => negb (Nat.eqb r s) && live w r) (Dict.keys (clients w)).
Proof.
  intros Hn. unfold recipients. cbn [differs andb].
  replace (clients (unregister s w)) with (Dict.del Nat.eqb s (clients w))
    by reflexivity.
  rewrite keys_del_filter by exact Hn.
  rewrite (filter_andb (fun r => negb (Nat.eqb r s)) (live w)).
  apply filter_ext_in. intros r Hr. apply filter_In in Hr.
  rewrite live_unregister. destruct Hr as [_ ->]. reflexivity.
Qed.

(** ** Shutting down *)

Lemma close_all_effect socks : forall w,
  exists w',
    close_all socks w = Ok tt w' /\
    clients w' = clients w /\ lock_held w' = lock_held w /\
    running w' = running w /\ sent w' = sent w /\ clock w' = clock w /\
    forall r,
      incoming (net w' r) = incoming (net w r) /\
      broken (net w' r) = broken (net w r) /\
      closed (net w' r) = closed (net w r) || existsb (Nat.eqb r) socks.
Proof.
  induction socks as [|s socks IH]; intros w.
  - exists w. repeat split; try reflexivity. cbn. symmetry. apply orb_false_r.
  - cbn [close_all]. unfold bind at 1.
    unfold try_except, sock_close, modify.
    destruct (IH (set_conn s (mkConn (incoming (net w s)) (broken (net w s)) true) w))
      as [w' [H [Hc [Hl [Hr [Hs [Hk Hn]]]]]]].
    exists w'. cbv beta iota. rewrite H. split; [reflexivity|].
    repeat (split; [assumption|]).
    intros r. destruct (Hn r) as [Hi [Hb Hcl]]. repeat split.
    + rewrite Hi. cbn. destruct (Nat.eqb r s) eqn:E; [|reflexivity].
      apply Nat.eqb_eq in E. subst r. reflexivity.
    + rewrite Hb. cbn. destruct (Nat.eqb r s) eqn:E; [|reflexivity].
      apply Nat.eqb_eq in E. subst r. reflexivity.
    + rewrite Hcl. cbn. destruct (Nat.eqb r s) eqn:E.
      * cbn. symmetry. apply orb_true_r.
      * reflexivity.
Qed.

Lemma existsb_eqb_in (r : sock) (l : list sock) :
  existsb (Nat.eqb r) l = true <-> In r l.
Proof.
  rewrite existsb_exists. split.
  - intros [x [Hx E]]. apply Nat.eqb_eq in E. subst x. exact Hx.
  - intros H. exists r. split; [exact H | apply Nat.eqb_refl].
Qed.

Lemma stop_effect server_socket w :
  lock_held w = false ->
  exists w',
    stop server_socket w = Ok tt w' /\
    running w' = false /\ clients w' = [] /\ lock_held w' = false /\
    sent w' = sent w.
Proof.
  intros Hl. unfold stop. unfold bind at 1. unfold modify at 1.
  unfold bind at 1. unfold with_lock.
  cbn [lock_held set_running]. rewrite Hl.
  unfold bind at 1. unfold gets at 1. unfold bind at 1.
  destruct (close_all_effect (Dict.keys (clients w))
              (set_lock true (set_running false w)))
    as [v [H [Hc [Hlk [Hr [Hs [Hk Hn]]]]]]].
  cbn [clients set_lock set_running] in H. cbn [clients set_lock set_running].
  rewrite H. unfold modify.
  destruct server_socket as [l|].
  - unfold try_except, sock_close, modify. eexists. split; [reflexivity|].
    cbn. repeat split; assumption.
  - unfold ret. eexists. split; [reflexivity|].
    cbn. repeat split; assumption.
Qed.

(** ** Frames cut into chunks *)

Lemma read_loop_frame (m : json) (chunks : list bytes) (evs : list recv_event) :
  Forall (fun c => c <> []) chunks ->
  List.concat chunks = frame m ->
  read_loop [] (map Data chunks ++ evs) = (Line (frame m), evs).
Proof.
  intros Hne Hcat.
  pose proof (printable_no_newline _ (dumps_printable m)) as N.
  assert (Hasc : Forall (fun c => c <> [] /\ ascii_only c) chunks).
  { pose proof (frame_ascii m) as A. rewrite <- Hcat in A. clear -A Hne.
    induction Hne as [|c cs Hc _ IH]; [constructor|].
    cbn [List.concat] in A. apply ascii_only_app_inv in A. destruct A as [A1 A2].
    constructor; [split; assumption | apply IH; exact A2]. }
  exact (read_loop_chunks chunks [] (dumps m) evs Hasc Hcat N).
Qed.

Lemma loads_frame (m : json) :
  wf m -> loads (fst (split_first 10 (frame m))) = Some m.
Proof.
  intros Hwf. unfold frame.
  rewrite split_first_app by (apply printable_no_newline, dumps_printable).
  cbn [fst]. apply loads_dumps, Hwf.
Qed.

(** ** The client's name check *)

Lemma check_username_accepted (isalnum_char : Z -> bool) (raw u : str) :
  ClientMain.check_username isalnum_char raw = ClientMain.NameOk u ->
  u = strip raw /\ u <> [] /\ (List.length u <= 20)%nat.
Proof.
  unfold ClientMain.check_username. cbv zeta.
  destruct (str_eqb (strip raw) [] || Nat.ltb 20 (List.length (strip raw))) eqn:E;
    [discriminate|].
  apply orb_false_iff in E. destruct E as [E1 E2].
  apply str_eqb_neq in E1. apply Nat.ltb_ge in E2.
  destruct (negb _); [discriminate|].
  intros H. inversion H; subst u. repeat split; assumption.
Qed.

End MoreFacts.

(* ================================================================== *)
(** * The claims of the specification *)
(* ================================================================== *)

Module Claims.
Import Text Json JsonAux TextFacts JsonFacts Server ServerAux ServerFacts.
Local Open Scope handler_scope.

(** ** The registry under concurrent joins *)

(** C1. Two connections ask for the free name alice; the handlers run
    their check one after the other, then their insertion: both are
    accepted and welcomed, and the registry maps two live sessions to the
    same name.  (Each handler run to its welcome before the other starts
    keeps the names distinct.) *)
Theorem two_sessions_one_name :
  unique_names (sys_world Scenario.two_joiners) /\
  clients (sys_world Scenario.racing)
  = [(1%nat, Scenario.alice); (2%nat, Scenario.alice)] /\
  sys_pc Scenario.racing 1%nat = Active Scenario.alice /\
  sys_pc Scenario.racing 2%nat = Active Scenario.alice /\
  ~ unique_names (sys_world Scenario.racing) /\
  clients (sys_world Scenario.in_turn) = [(1%nat, Scenario.alice)] /\
  sys_pc Scenario.in_turn 2%nat = Closed.
Proof.
  split; [constructor|].
  split; [vm_compute; reflexivity|]. split; [vm_compute; reflexivity|].
  split; [vm_compute; reflexivity|]. split.
  - unfold unique_names.
    replace (Dict.values (clients (sys_world Scenario.racing)))
      with [Scenario.alice; Scenario.alice] by (vm_compute; reflexivity).
    intros H. inversion H as [|? ? Hn _]; subst. apply Hn. left; reflexivity.
  - split; vm_compute; reflexivity.
Qed.

(** ** The broadcast when a recipient is gone *)

(** C2, as the code has it.  When the send to exactly one of the [N]
    recipients of a broadcast fails, the frame is still written to the
    [N-1] others, in registry order, and the broadcast writes nothing
    else: no user_left notice follows (the clean-up of a broadcast is
    called with [notify=False]). *)
Theorem broadcast_outlives_one_failure (data : json) (exclude : option sock)
  (before after : list sock) (failed : sock) (w : world) :
  lock_held w = false ->
  filter (fun s => differs s exclude) (Dict.keys (clients w))
  = before ++ failed :: after ->
  live w failed = false ->
  (forall r, In r (before ++ after) -> live w r = true) ->
  exists w',
    broadcast_message data exclude w = Ok tt w' /\
    sent w' = sent w ++ map (fun r => (r, frame data)) (before ++ after).
Proof.
  intros L Hk Hf Ho. rewrite broadcast_message_eq by exact L.
  eexists; split; [reflexivity|]. unfold deliver, recipients; cbn [sent].
  rewrite filter_andb, Hk, filter_one_out by assumption. reflexivity.
Qed.

Lemma broadcast_outlives_one_failure_witness :
  lock_held Scenario.bob_gone = false /\
  live Scenario.bob_gone 2%nat = false /\
  exists w',
    broadcast_message Scenario.hello None Scenario.bob_gone = Ok tt w' /\
    sent w' = sent Scenario.bob_gone ++
              map (fun r => (r, frame Scenario.hello)) ([1%nat] ++ [3%nat]).
Proof.
  split; [reflexivity|]. split; [reflexivity|].
  apply (broadcast_outlives_one_failure Scenario.hello None [1%nat] [3%nat] 2%nat
           Scenario.bob_gone); try reflexivity.
  intros r [<-|[<-|[]]]; reflexivity.
Defined.

(** C2 as stated fails: bob's connection is gone and a chat line is
    broadcast.  Alice and carol get the line and nothing after it, no
    user_left notice; bob is still registered. *)
Lemma dead_session_stays_registered :
  (exists w',
     broadcast_message Scenario.hello None Scenario.bob_gone = Ok tt w' /\
     sent w' = [(1%nat, frame Scenario.hello); (3%nat, frame Scenario.hello)] /\
     Dict.has Nat.eqb 2%nat (clients w') = true) /\
  ~ Stated.failure_evicts_and_notifies Scenario.bob_gone Scenario.hello 2%nat.
Proof.
  split.
  - rewrite broadcast_message_eq by reflexivity.
    eexists; split; [reflexivity|]. split; reflexivity.
  - intros [w' [H [Hhas _]]]. apply broadcast_keeps_registry in H.
    rewrite H in Hhas. vm_compute in Hhas. discriminate.
Qed.

(** ** The frame reader *)

(** C3. Two frames reach the server in one segment: the first call of
    [receive_message] returns the first and leaves nothing to read, the
    second call finds no second frame.  The client's reader does the
    same. *)
Theorem second_frame_is_lost :
  (exists w1 w2,
     receive_message 1%nat Scenario.two_frames = Ok (Some Client.ping_message) w1 /\
     incoming (net w1 1%nat) = [] /\
     receive_message 1%nat w1 = Ok None w2) /\
  ~ Stated.remainder_is_retained 1%nat Scenario.two_frames
      (Client.chat_message (lit "hi")) /\
  fst (Client.receive_message Scenario.reader) = Some Client.ping_message /\
  fst (Client.receive_message (snd (Client.receive_message Scenario.reader)))
  = None.
Proof.
  split; [|split; [|split]].
  - eexists; eexists. split; [vm_compute; reflexivity|].
    split; [reflexivity | vm_compute; reflexivity].
  - intros (first & w1 & w2 & H1 & H2).
    rewrite receive_message_eq in H1. injection H1 as _ <-.
    vm_compute in H2. discriminate.
  - vm_compute. reflexivity.
  - vm_compute. reflexivity.
Qed.

(** ** Names *)

(** C4, as the code has it.  A join whose message names the string [u] is
    turned down with "Invalid username" exactly when [u], white space
    trimmed from both ends, is empty or longer than 20 characters; no
    character of the name is looked at, and a name that is neither, when
    it is free, is accepted as trimmed. *)
Theorem invalid_when_empty_or_long (s : sock) (d : list (str * json))
  (u : str) (w w1 : world) :
  lock_held w = false ->
  live w s = true ->
  receive_message s w = Ok (Some (JDict d)) w1 ->
  Dict.get str_eqb (lit "type") d = Some (JStr (lit "join")) ->
  Dict.get str_eqb (lit "username") d = Some (JStr u) ->
  (Stated.rejected_as_invalid s w <->
   strip u = [] \/ (20 < List.length (strip u))%nat) /\
  (strip u <> [] -> (List.length (strip u) <= 20)%nat ->
   name_in_use (strip u) w = false ->
   get_username s w = Ok (Some (strip u)) w1).
Proof.
  intros L Hl Hr Ht Hu.
  rewrite receive_message_eq in Hr. injection Hr as Hd Hw.
  pose proof (received_fields s w) as F. cbv zeta in F. rewrite Hw in F.
  destruct F as [Fc [_ [_ [Fs [_ Fl]]]]].
  assert (G : get_username s w =
              if negb (str_eqb (strip u) []) && Nat.leb (List.length (strip u)) 20
              then if name_in_use (strip u) w
                   then Ok None (deliver username_taken [s] w1)
                   else Ok (Some (strip u)) w1
              else Ok None (deliver invalid_username [s] w1)).
  { rewrite get_username_eq by exact L. cbv zeta. rewrite Hd, Hw.
    unfold verdict_of. destruct d as [|kv d']; [discriminate|].
    cbn [truthy negb]. rewrite Ht, Hu.
    change (is_str (lit "join") (Some (JStr (lit "join")))) with true.
    cbn [or_default]. cbv iota.
    unfold name_in_use at 1. rewrite Fc. fold (name_in_use (strip u) w).
    unfold reply. rewrite Fl, Hl.
    destruct (negb (str_eqb (strip u) []) && Nat.leb (List.length (strip u)) 20);
      [destruct (name_in_use (strip u) w)|]; reflexivity. }
  unfold Stated.rejected_as_invalid. rewrite G. split.
  - destruct (negb (str_eqb (strip u) []) && Nat.leb (List.length (strip u)) 20) eqn:V.
    + apply andb_true_iff in V. destruct V as [V1 V2].
      apply negb_true_iff, str_eqb_neq in V1. apply Nat.leb_le in V2.
      split; [|intros [H|H]; [contradiction | lia]].
      intros [w' [H Hs]]. exfalso.
      destruct (name_in_use (strip u) w); [|discriminate].
      injection H as <-. cbn [sent deliver map] in Hs. rewrite Fs in Hs.
      apply app_inv_head in Hs. apply frames_differ.
      set (a := frame invalid_username) in *. set (b := frame username_taken) in *.
      congruence.
    + split.
      * intros _. apply andb_false_iff in V. destruct V as [V|V].
        -- left. apply negb_false_iff, str_eqb_eq in V. exact V.
        -- right. apply Nat.leb_gt in V. exact V.
      * intros _. eexists; split; [reflexivity|].
        cbn [sent deliver map]. rewrite Fs. reflexivity.
  - intros Hne Hlen Hfree.
    replace (negb (str_eqb (strip u) [])) with true
      by (symmetry; apply negb_true_iff, str_eqb_neq; exact Hne).
    replace (Nat.leb (List.length (strip u)) 20) with true
      by (symmetry; apply Nat.leb_le; exact Hlen).
    rewrite Hfree. reflexivity.
Qed.

Lemma invalid_when_empty_or_long_witness :
  lock_held Scenario.bang = false /\
  live Scenario.bang 1%nat = true /\
  (Stated.rejected_as_invalid 1%nat Scenario.bang <->
   strip (lit "bob!") = [] \/ (20 < List.length (strip (lit "bob!")))%nat) /\
  (strip (lit "bob!") <> [] -> (List.length (strip (lit "bob!")) <= 20)%nat ->
   name_in_use (strip (lit "bob!")) Scenario.bang = false ->
   get_username 1%nat Scenario.bang
   = Ok (Some (strip (lit "bob!"))) (snd (received 1%nat Scenario.bang))).
Proof.
  split; [reflexivity|]. split; [reflexivity|].
  apply (invalid_when_empty_or_long 1%nat Scenario.bang_request (lit "bob!")
           Scenario.bang (snd (received 1%nat Scenario.bang))); reflexivity.
Defined.

(** C4 as stated fails: the name [bob!] holds a character that is no
    letter, digit, hyphen or underscore, and the server accepts it. *)
Lemma bang_is_accepted :
  Stated.spec_valid_name (lit "bob!") = false /\
  ~ Stated.rejected_as_invalid 1%nat Scenario.bang.
Proof.
  split; [reflexivity|]. intros [w' [H _]]. vm_compute in H. discriminate.
Qed.

(** ** The codec *)

(** C5. For every well-formed message value [m], what [receive_message]
    decodes from the bytes of [encode m] is [m], however the transport
    cuts those bytes into segments; in particular
    [json.loads(json.dumps(m)) == m]. *)
Theorem decode_encode_roundtrip (m : json) (bs : bytes) (chunks : list bytes)
  (s : sock) (w : world) (evs : list recv_event) :
  wf m ->
  encode m = Some bs ->
  List.concat chunks = bs ->
  Forall (fun c => c <> []) chunks ->
  closed (net w s) = false ->
  incoming (net w s) = map Data chunks ++ evs ->
  loads (dumps m) = Some m /\
  receive_message s w =
  Ok (Some m) (set_conn s (mkConn evs (broken (net w s)) false) w).
Proof.
  intros Hwf Hbs Hcat Hne Hopen Hin.
  split; [apply loads_dumps; exact Hwf|].
  rewrite encode_frame in Hbs. injection Hbs as Hbs. rewrite <- Hbs in Hcat.
  pose proof (printable_no_newline _ (dumps_printable m)) as N.
  assert (Hasc : Forall (fun c => c <> [] /\ ascii_only c) chunks).
  { pose proof (frame_ascii m) as A. rewrite <- Hcat in A. clear -A Hne.
    induction Hne as [|c cs Hc _ IH]; [constructor|].
    simpl in A. apply ascii_only_app_inv in A. destruct A as [A1 A2].
    constructor; [split; assumption | apply IH; exact A2]. }
  rewrite receive_message_eq. unfold received. rewrite Hopen, Hin.
  rewrite (read_loop_chunks chunks [] (dumps m) evs Hasc Hcat N).
  rewrite split_first_app by exact N. cbn [fst snd].
  rewrite loads_dumps by exact Hwf. reflexivity.
Qed.

Lemma decode_encode_roundtrip_witness :
  wf Scenario.greeting /\
  loads (dumps Scenario.greeting) = Some Scenario.greeting /\
  receive_message 1%nat Scenario.in_two_pieces =
  Ok (Some Scenario.greeting)
     (set_conn 1%nat
        (mkConn [] (broken (net Scenario.in_two_pieces 1%nat)) false)
        Scenario.in_two_pieces).
Proof.
  assert (W : wf Scenario.greeting).
  { split.
    - repeat (constructor; [cbn; intuition discriminate|]). constructor.
    - cbn. repeat split; try lia; try (intros [H1 H2]; discriminate). }
  split; [exact W|].
  apply (decode_encode_roundtrip Scenario.greeting (frame Scenario.greeting)
           [firstn 9 (frame Scenario.greeting); skipn 9 (frame Scenario.greeting)]
           1%nat Scenario.in_two_pieces []).
  - exact W.
  - apply encode_frame.
  - vm_compute. reflexivity.
  - repeat constructor; vm_compute; discriminate.
  - reflexivity.
  - reflexivity.
Defined.

(** C6. For every message value, [encode] (the bytes both [send_message]
    methods write) is the text of [json.dumps] followed by one line feed,
    and that text holds no line feed: the terminator occurs once, as the
    last byte.  A line feed inside a string is not dropped but written as
    the two characters of its escape, backslash and [n]: so it is for a
    string alone and for a string field wherever it stands in a
    dictionary, and a well-formed message is read back from the payload
    with its line feeds in place. *)
Theorem frame_has_one_terminator (data : json) :
  exists payload,
    encode data = Some (payload ++ [10]) /\
    ~ In 10 payload /\
    count_occ Z.eq_dec (payload ++ [10]) 10 = 1%nat /\
    escape_char 10 = [92; 110] /\
    payload = dumps data /\
    (forall a b : str,
       dumps (JStr (a ++ 10 :: b)) =
       34 :: flat_map escape_char a ++ [92; 110] ++ flat_map escape_char b ++ [34]) /\
    (forall (before after : list (str * json)) (k a b : str),
     exists p q,
       dumps (JDict (before ++ (k, JStr (a ++ 10 :: b)) :: after)) =
       p ++ (34 :: flat_map escape_char a ++ [92; 110]
                ++ flat_map escape_char b ++ [34]) ++ q) /\
    (wf data -> loads payload = Some data).
Proof.
  exists (dumps data). pose proof (printable_no_newline _ (dumps_printable data)) as N.
  assert (Q : forall a b : str,
            dumps (JStr (a ++ 10 :: b)) =
            34 :: flat_map escape_char a ++ [92; 110]
               ++ flat_map escape_char b ++ [34]).
  { intros a b. cbn [dumps]. unfold quote. rewrite flat_map_app.
    cbn [flat_map]. change (escape_char 10) with [92; 110].
    rewrite <- !app_assoc. reflexivity. }
  split; [apply encode_frame|]. split; [exact N|]. split.
  { rewrite count_occ_app. apply (count_occ_not_In Z.eq_dec) in N.
    rewrite N. reflexivity. }
  split; [reflexivity|]. split; [reflexivity|]. split; [exact Q|]. split.
  - intros before after k a b.
    change (dumps (JDict (before ++ (k, JStr (a ++ 10 :: b)) :: after)))
      with (123 :: Json.join (lit ", ")
                     (map (fun kv => quote (fst kv) ++ lit ": " ++ dumps (snd kv))
                          (before ++ (k, JStr (a ++ 10 :: b)) :: after))
                ++ [125]).
    rewrite map_app. cbn [map fst snd].
    match goal with
    | |- context [Json.join ?sep (?bs ++ ?x :: ?rest)] =>
        destruct (join_around sep bs x rest) as [p [q E]]
    end.
    exists (123 :: p ++ quote k ++ lit ": "), (q ++ [125]).
    transitivity (123 :: (p ++ (quote k ++ lit ": "
                                ++ dumps (JStr (a ++ 10 :: b))) ++ q) ++ [125]).
    + apply (f_equal (fun t => 123 :: t ++ [125])). exact E.
    + rewrite (Q a b).
      repeat (progress (cbn [app]; rewrite <- ?app_assoc)). reflexivity.
  - apply loads_dumps.
Qed.

(** The line feed of [hi], line feed, [there] in a chat line is written as
    backslash and [n], and the line is read back as it was. *)
Lemma frame_has_one_terminator_witness :
  wf Scenario.two_lines /\
  dumps Scenario.two_lines =
  lit "{" ++ quote (lit "type") ++ lit ": " ++ quote (lit "chat") ++ lit ", "
  ++ quote (lit "message") ++ lit ": "
  ++ (34 :: lit "hi" ++ [92; 110] ++ lit "there" ++ [34]) ++ lit "}" /\
  loads (dumps Scenario.two_lines) = Some Scenario.two_lines.
Proof.
  assert (W : wf Scenario.two_lines).
  { split.
    - repeat (constructor; [cbn; intuition discriminate|]). constructor.
    - cbn. repeat split; try lia; try (intros [H1 H2]; discriminate). }
  split; [exact W|]. split; [reflexivity|].
  destruct (frame_has_one_terminator Scenario.two_lines)
    as [payload [_ [_ [_ [_ [-> [_ [_ R]]]]]]]].
  exact (R W).
Defined.

(** ** Chat messages *)

(** C7. A chat message whose content is empty or all white space changes
    nothing: no frame is written to any socket and the clock is not read.
    A chat message with other content is broadcast: the clock is read
    once, and every live registered session is sent one frame, the
    dictionary of type chat whose [message] is the trimmed content, whose
    [username] is the name the handler holds for the sender (the one it
    registered) and whose [timestamp] is that reading. *)
Theorem chat_is_dropped_or_stamped (s : sock) (username : str)
  (d : list (str * json)) (content : str) (w : world) :
  Dict.get str_eqb (lit "type") d = Some (JStr (lit "chat")) ->
  or_default (JStr []) (Dict.get str_eqb (lit "message") d) = JStr content ->
  lock_held w = false ->
  (forallb isspace content = true ->
   process_message s username (JDict d) w = Ok tt w) /\
  (forallb isspace content = false ->
   exists w',
     process_message s username (JDict d) w = Ok tt w' /\
     clients w' = clients w /\
     ticks w' = S (ticks w) /\
     sent w' = sent w ++
               map (fun r =>
                      (r, frame (JDict [(lit "type", JStr (lit "chat"));
                                        (lit "username", JStr username);
                                        (lit "message", JStr (strip content));
                                        (lit "timestamp",
                                         JFloat (clock w (ticks w)))])))
                   (filter (live w) (Dict.keys (clients w)))).
Proof.
  intros Ht Hm L. rewrite (process_chat s username d content w Ht Hm).
  split; intros E; rewrite E; [reflexivity|].
  rewrite broadcast_message_eq by exact L.
  eexists; split; [reflexivity|]. split; [reflexivity|]. split; [reflexivity|].
  unfold deliver, recipients; cbn [sent]. reflexivity.
Qed.

Lemma chat_is_dropped_or_stamped_witness :
  lock_held Scenario.alice_inside = false /\
  (forallb isspace (lit "  hi  ") = true ->
   process_message 1%nat Scenario.alice (JDict Scenario.padded) Scenario.alice_inside
   = Ok tt Scenario.alice_inside) /\
  (forallb isspace (lit "  hi  ") = false ->
   exists w',
     process_message 1%nat Scenario.alice (JDict Scenario.padded)
       Scenario.alice_inside = Ok tt w' /\
     clients w' = clients Scenario.alice_inside /\
     ticks w' = 1%nat /\
     sent w' = [(1%nat,
                 frame (JDict [(lit "type", JStr (lit "chat"));
                               (lit "username", JStr Scenario.alice);
                               (lit "message", JStr (lit "hi"));
                               (lit "timestamp", JFloat Scenario.noon)]))]).
Proof.
  split; [reflexivity|].
  apply (chat_is_dropped_or_stamped 1%nat Scenario.alice Scenario.padded
           (lit "  hi  ") Scenario.alice_inside); reflexivity.
Defined.

(** C10. A chat message is broadcast with no session excluded: when the
    sender is registered and its socket live, the frame of the chat
    dictionary, with the sender's name, the trimmed content and the clock
    reading, is written to the sender too, as to every other live session;
    the user_joined notice of a join, on the contrary, goes to the others
    only, and the joiner gets the welcome, stamped with the next reading
    of the clock. *)
Theorem chat_comes_back_to_sender (s : sock) (username : str)
  (d : list (str * json)) (content : str) (w : world) :
  Dict.get str_eqb (lit "type") d = Some (JStr (lit "chat")) ->
  or_default (JStr []) (Dict.get str_eqb (lit "message") d) = JStr content ->
  forallb isspace content = false ->
  lock_held w = false ->
  In s (Dict.keys (clients w)) ->
  live w s = true ->
  (exists w',
     process_message s username (JDict d) w = Ok tt w' /\
     In (s, frame (JDict [(lit "type", JStr (lit "chat"));
                          (lit "username", JStr username);
                          (lit "message", JStr (strip content));
                          (lit "timestamp", JFloat (clock w (ticks w)))]))
        (sent w') /\
     forall r, In r (Dict.keys (clients w)) -> live w r = true ->
               In (r, frame (JDict [(lit "type", JStr (lit "chat"));
                                    (lit "username", JStr username);
                                    (lit "message", JStr (strip content));
                                    (lit "timestamp",
                                     JFloat (clock w (ticks w)))]))
                  (sent w')) /\
  (exists w' notified,
     accept s username w = Ok tt w' /\
     sent w' = sent w ++
               map (fun r =>
                      (r, frame (JDict [(lit "type", JStr (lit "user_joined"));
                                        (lit "username", JStr username);
                                        (lit "message",
                                         JStr (username ++ lit " joined the chat"));
                                        (lit "timestamp",
                                         JFloat (clock w (ticks w)))])))
                   notified ++
               [(s, frame (JDict [(lit "type", JStr (lit "welcome"));
                                  (lit "message",
                                   JStr (lit "Welcome to the chat, "
                                         ++ username ++ lit "!"));
                                  (lit "users",
                                   JList (map JStr (Dict.values (clients w'))));
                                  (lit "timestamp",
                                   JFloat (clock w (S (ticks w))))]))] /\
     ~ In s notified).
Proof.
  intros Ht Hm E L Hs Hl. split.
  - rewrite (process_chat s username d content w Ht Hm), E.
    rewrite broadcast_message_eq by exact L.
    eexists; split; [reflexivity|].
    assert (R : forall r, In r (Dict.keys (clients w)) -> live w r = true ->
                In (r, frame (chat_msg username (strip content) (clock w (ticks w))))
                   (sent (deliver (chat_msg username (strip content)
                                     (clock w (ticks w)))
                            (recipients (tick w) None) (tick w)))).
    { intros r Hr Hlr. unfold deliver; cbn [sent]. apply in_or_app; right.
      apply in_map_iff. exists r. split; [reflexivity|].
      unfold recipients. apply filter_In. split; [exact Hr | exact Hlr]. }
    split; [apply R; assumption | exact R].
  - rewrite accept_eq by exact L. cbv zeta. rewrite Hl.
    eexists; eexists; split; [reflexivity|]. split.
    + unfold deliver; cbn [sent map clients tick set_clients].
      rewrite <- app_assoc. reflexivity.
    + apply recipients_exclude.
Qed.

(** Alice and bob inside: a line of alice's comes back to her and goes to
    bob; when her socket goes through the join, the notice goes to bob
    alone and the welcome to her, one reading of the clock later. *)
Lemma chat_comes_back_to_sender_witness :
  In 1%nat (Dict.keys (clients Scenario.alice_and_bob)) /\
  live Scenario.alice_and_bob 1%nat = true /\
  (exists w',
     process_message 1%nat Scenario.alice (JDict Scenario.padded)
       Scenario.alice_and_bob = Ok tt w' /\
     sent w' =
     [(1%nat, frame (JDict [(lit "type", JStr (lit "chat"));
                            (lit "username", JStr Scenario.alice);
                            (lit "message", JStr (lit "hi"));
                            (lit "timestamp", JFloat (Scenario.readings 0))]));
      (2%nat, frame (JDict [(lit "type", JStr (lit "chat"));
                            (lit "username", JStr Scenario.alice);
                            (lit "message", JStr (lit "hi"));
                            (lit "timestamp", JFloat (Scenario.readings 0))]))]) /\
  (exists w',
     accept 1%nat Scenario.alice Scenario.alice_and_bob = Ok tt w' /\
     sent w' =
     [(2%nat, frame (JDict [(lit "type", JStr (lit "user_joined"));
                            (lit "username", JStr Scenario.alice);
                            (lit "message", JStr (lit "alice joined the chat"));
                            (lit "timestamp", JFloat (Scenario.readings 0))]));
      (1%nat, frame (JDict [(lit "type", JStr (lit "welcome"));
                            (lit "message", JStr (lit "Welcome to the chat, alice!"));
                            (lit "users",
                             JList [JStr Scenario.alice; JStr Scenario.bob]);
                            (lit "timestamp", JFloat (Scenario.readings 1))]))]).
Proof.
  assert (A : In 1%nat (Dict.keys (clients Scenario.alice_and_bob)))
    by (left; reflexivity).
  split; [exact A|]. split; [reflexivity|].
  destruct (chat_comes_back_to_sender 1%nat Scenario.alice Scenario.padded
              (lit "  hi  ") Scenario.alice_and_bob eq_refl eq_refl eq_refl
              eq_refl A eq_refl) as [[w1 [P _]] [w2 [notified [J _]]]].
  split.
  - exists w1. split; [exact P|].
    rewrite (process_chat 1%nat Scenario.alice Scenario.padded (lit "  hi  ")
               Scenario.alice_and_bob eq_refl eq_refl) in P.
    change (forallb isspace (lit "  hi  ")) with false in P. cbv iota in P.
    rewrite broadcast_message_eq in P by reflexivity.
    inversion P. reflexivity.
  - exists w2. split; [exact J|].
    rewrite accept_eq in J by reflexivity. inversion J. reflexivity.
Defined.


(** ** Joining and leaving *)

(** C8, as the code has it.  For every accepted join the server writes
    the user_joined notice, stamped with one reading of the clock, to the
    other live sessions, the joiner excluded, and after that the welcome
    to the joiner, stamped with the next reading, whose [users] are the
    names of the registry, the joiner's own among them; the first client
    to join, as alice, gets a welcome whose users are [alice] and nothing
    else is written. *)
Theorem join_notifies_then_welcomes (s : sock) (username : str) (w : world) :
  lock_held w = false ->
  live w s = true ->
  exists w',
    accept s username w = Ok tt w' /\
    clients w' = Dict.set Nat.eqb s username (clients w) /\
    In username (Dict.values (clients w')) /\
    ticks w' = S (S (ticks w)) /\
    (exists others,
       others = filter (fun r => negb (Nat.eqb r s) && live w r)
                       (Dict.keys (clients w')) /\
       ~ In s others /\
       sent w' = sent w ++
                 map (fun r =>
                        (r, frame (JDict [(lit "type", JStr (lit "user_joined"));
                                          (lit "username", JStr username);
                                          (lit "message",
                                           JStr (username ++ lit " joined the chat"));
                                          (lit "timestamp",
                                           JFloat (clock w (ticks w)))])))
                     others ++
                 [(s, frame (JDict [(lit "type", JStr (lit "welcome"));
                                    (lit "message",
                                     JStr (lit "Welcome to the chat, "
                                           ++ username ++ lit "!"));
                                    (lit "users",
                                     JList (map JStr (Dict.values (clients w'))));
                                    (lit "timestamp",
                                     JFloat (clock w (S (ticks w))))]))]) /\
    (clients w = [] ->
     sent w' = sent w ++
               [(s, frame (JDict [(lit "type", JStr (lit "welcome"));
                                  (lit "message",
                                   JStr (lit "Welcome to the chat, "
                                         ++ username ++ lit "!"));
                                  (lit "users", JList [JStr username]);
                                  (lit "timestamp",
                                   JFloat (clock w (S (ticks w))))]))]).
Proof.
  intros L Hl. rewrite accept_eq by exact L. cbv zeta. rewrite Hl.
  eexists; split; [reflexivity|]. cbn [clients deliver set_clients sent tick ticks].
  split; [reflexivity|]. split; [apply values_set_in|]. split; [reflexivity|].
  split.
  - eexists; split; [reflexivity|]. split.
    + apply (recipients_exclude
               (set_clients (Dict.set Nat.eqb s username (clients w)) w) s).
    + rewrite <- app_assoc. reflexivity.
  - intros E. rewrite E. unfold recipients; cbn [clients set_clients Dict.set tick].
    cbn [Dict.keys Dict.values map fst snd filter differs]. rewrite Nat.eqb_refl.
    cbn [negb andb map]. rewrite app_nil_r. reflexivity.
Qed.

(** Bob is inside when alice joins on connection 2: bob is sent the
    notice, then alice the welcome with both names, a reading later. *)
Lemma join_notifies_then_welcomes_witness :
  lock_held Scenario.bob_inside = false /\
  live Scenario.bob_inside 2%nat = true /\
  exists w',
    accept 2%nat Scenario.alice Scenario.bob_inside = Ok tt w' /\
    clients w' = [(1%nat, Scenario.bob); (2%nat, Scenario.alice)] /\
    ticks w' = 2%nat /\
    sent w' =
    [(1%nat, frame (JDict [(lit "type", JStr (lit "user_joined"));
                           (lit "username", JStr Scenario.alice);
                           (lit "message", JStr (lit "alice joined the chat"));
                           (lit "timestamp", JFloat (Scenario.readings 0))]));
     (2%nat, frame (JDict [(lit "type", JStr (lit "welcome"));
                           (lit "message", JStr (lit "Welcome to the chat, alice!"));
                           (lit "users",
                            JList [JStr Scenario.bob; JStr Scenario.alice]);
                           (lit "timestamp", JFloat (Scenario.readings 1))]))].
Proof.
  split; [reflexivity|]. split; [reflexivity|].
  destruct (join_notifies_then_welcomes 2%nat Scenario.alice Scenario.bob_inside
              eq_refl eq_refl)
    as [w' [A [C [_ [T [[others [O [_ S]]] _]]]]]].
  exists w'. split; [exact A|]. split; [exact C|]. split; [exact T|].
  rewrite S, O, C. reflexivity.
Defined.

(** C8 as stated fails: with bob inside, the first frame written after
    alice's name was accepted is bob's notice, not alice's welcome. *)
Lemma notice_comes_before_welcome :
  ~ Stated.welcome_comes_first 2%nat Scenario.alice Scenario.bob_inside.
Proof.
  intros (w' & users & t & rest & H & Hs).
  rewrite accept_eq in H by reflexivity. injection H as <-.
  apply (f_equal (fun l => map fst l)) in Hs.
  rewrite map_app in Hs. cbn [map fst] in Hs.
  lazy in Hs. discriminate.
Qed.

(** C9, as the code has it.  [disconnect_client] deletes the entry of the
    session if there is one and hands nothing back (the name that leaves is
    the one the caller passes in); on a session that is absent it leaves the
    registry as it is, so a second call changes nothing.  After a join under
    a free name the registry's values hold that name, and after the
    disconnection they do not. *)
Theorem removal_is_idempotent (s : sock) (username : option str)
  (notify : bool) (w : world) :
  lock_held w = false ->
  NoDup (Dict.keys (clients w)) ->
  exists w1,
    disconnect_client s username notify w = Ok None w1 /\
    clients w1 = Dict.del Nat.eqb s (clients w) /\
    Dict.has Nat.eqb s (clients w1) = false /\
    (Dict.has Nat.eqb s (clients w) = false -> clients w1 = clients w) /\
    (exists w2,
       disconnect_client s username notify w1 = Ok None w2 /\
       clients w2 = clients w1) /\
    (forall name,
       name_in_use name w = false ->
       exists wj wr,
         accept s name w = Ok tt wj /\
         In name (Dict.values (clients wj)) /\
         disconnect_client s (Some name) true wj = Ok None wr /\
         ~ In name (Dict.values (clients wr))).
Proof.
  intros L Hk.
  assert (C : forall u n w0, lock_held w0 = false ->
            exists w1, disconnect_client s u n w0 = Ok None w1 /\
                       clients w1 = Dict.del Nat.eqb s (clients w0) /\
                       lock_held w1 = false).
  { intros u n w0 L0. rewrite disconnect_client_eq by exact L0.
    eexists; split; [reflexivity|].
    destruct (name_set u && n); split; try reflexivity; exact L0. }
  destruct (C username notify w L) as [w1 [H1 [C1 L1]]].
  exists w1. split; [exact H1|]. split; [exact C1|].
  assert (A : Dict.has Nat.eqb s (clients w1) = false)
    by (rewrite C1; apply has_del; exact Hk).
  split; [exact A|]. split; [intros H; rewrite C1; apply del_absent; exact H|]. split.
  - destruct (C username notify w1 L1) as [w2 [H2 [C2 _]]].
    exists w2. split; [exact H2|]. rewrite C2. apply del_absent; exact A.
  - intros name Hfree. rewrite accept_eq by exact L. cbv zeta.
    set (wj := if live w s then _ else _).
    assert (Cj : clients wj = Dict.set Nat.eqb s name (clients w))
      by (unfold wj; destruct (live w s); reflexivity).
    assert (Lj : lock_held wj = false)
      by (unfold wj; destruct (live w s); exact L).
    destruct (C (Some name) true wj Lj) as [wr [Hr [Cr _]]].
    exists wj, wr. split; [reflexivity|].
    split; [rewrite Cj; apply values_set_in|]. split; [exact Hr|].
    rewrite Cr, Cj. intros Hin. apply values_del_set in Hin.
    apply name_in_use_false in Hfree. contradiction.
Qed.

Lemma removal_is_idempotent_witness :
  lock_held Scenario.alice_inside = false /\
  NoDup (Dict.keys (clients Scenario.alice_inside)) /\
  exists w1,
    disconnect_client 1%nat (Some Scenario.alice) true Scenario.alice_inside
    = Ok None w1 /\
    clients w1 = Dict.del Nat.eqb 1%nat (clients Scenario.alice_inside) /\
    Dict.has Nat.eqb 1%nat (clients w1) = false /\
    (Dict.has Nat.eqb 1%nat (clients Scenario.alice_inside) = false ->
     clients w1 = clients Scenario.alice_inside) /\
    (exists w2,
       disconnect_client 1%nat (Some Scenario.alice) true w1 = Ok None w2 /\
       clients w2 = clients w1) /\
    (forall name,
       name_in_use name Scenario.alice_inside = false ->
       exists wj wr,
         accept 1%nat name Scenario.alice_inside = Ok tt wj /\
         In name (Dict.values (clients wj)) /\
         disconnect_client 1%nat (Some name) true wj = Ok None wr /\
         ~ In name (Dict.values (clients wr))).
Proof.
  assert (K : NoDup (Dict.keys (clients Scenario.alice_inside)))
    by (constructor; [intros [] | constructor]).
  split; [reflexivity|]. split; [exact K|].
  apply (removal_is_idempotent 1%nat (Some Scenario.alice) true
           Scenario.alice_inside); [reflexivity | exact K].
Defined.

(** C9 as stated fails: alice's entry is deleted and the call returns
    [None], not her name. *)
Lemma removal_returns_nothing :
  ~ Stated.removal_returns_name 1%nat Scenario.alice_inside.
Proof.
  intros H. destruct (H Scenario.alice eq_refl) as [w' H'].
  rewrite disconnect_client_eq in H' by reflexivity. discriminate.
Qed.

End Claims.
(* ================================================================== *)
(** * More of what the code does *)
(* ================================================================== *)

Module Extras.
Import Text Json JsonAux TextFacts JsonFacts Server ServerAux ServerFacts.
Import Lifecycle MoreFacts.
Local Open Scope handler_scope.

(** Well-formedness of a message that is written out. *)
Ltac well_formed :=
  split;
  [ repeat (constructor; [cbn; intuition discriminate|]); constructor
  | cbn; repeat split; try lia; try reflexivity; try discriminate;
    try (intros [? ?]; discriminate) ].

(** ** The frame reader *)

(** X1. [receive_message] always returns: whatever [recv], the UTF-8
    decoding or [json.loads] raise ends as a plain result.  It changes
    neither the registry, nor the lock, nor what was written, nor any
    other connection, and never adds to what is still to be read. *)
Theorem receive_message_always_returns (s : sock) (w : world) :
  exists r w',
    receive_message s w = Ok r w' /\
    clients w' = clients w /\ lock_held w' = lock_held w /\
    sent w' = sent w /\
    (forall other, other <> s -> net w' other = net w other) /\
    (List.length (incoming (net w' s)) <= List.length (incoming (net w s)))%nat.
Proof.
  rewrite receive_message_eq. eexists; eexists; split; [reflexivity|].
  pose proof (received_fields s w) as F. cbv zeta in F.
  destruct F as [Fc [Fl [_ [Fs _]]]].
  repeat split; try assumption.
  - intros other Ho. rewrite received_net.
    apply Nat.eqb_neq in Ho. rewrite Ho. reflexivity.
  - apply received_shorter.
Qed.

(** X2. When nothing complete can be read, the result is [None]: the
    socket is closed, nothing is queued, or the next event is a timeout, a
    reset, the end of the stream or bytes that are not UTF-8. *)
Theorem receive_message_gives_up (s : sock) (w : world) :
  closed (net w s) = true \/
  incoming (net w s) = [] \/
  (exists e evs, incoming (net w s) = e :: evs /\
                 (e = TimedOut \/ e = PeerReset \/ e = Data [] \/
                  exists bs, e = Data bs /\ decode_utf8 bs = None)) ->
  exists w', receive_message s w = Ok None w'.
Proof.
  intros H. rewrite receive_message_eq. eexists.
  replace (fst (received s w)) with (@None json); [reflexivity|].
  unfold received. destruct (closed (net w s)); [reflexivity|].
  destruct H as [H|[H|[e [evs [H He]]]]]; [discriminate | rewrite H; reflexivity|].
  rewrite H. destruct He as [->|[->|[->|[bs [-> Hb]]]]]; try reflexivity.
  cbn [read_loop mem existsb]. rewrite Hb. reflexivity.
Qed.

Lemma receive_message_gives_up_witness :
  incoming (net (Scenes.pair [TimedOut]) 1%nat) = [TimedOut] /\
  exists w', receive_message 1%nat (Scenes.pair [TimedOut]) = Ok None w'.
Proof.
  split; [reflexivity|].
  apply (receive_message_gives_up 1%nat (Scenes.pair [TimedOut])).
  right; right. exists TimedOut, []. split; [reflexivity | left; reflexivity].
Defined.

(** X3. A frame whose first part arrives and whose rest is late is lost:
    the bytes read before the timeout are in a local buffer, the call
    returns [None], and the next call starts from what comes after. *)
Theorem partial_frame_is_lost (s : sock) (w : world) (part : bytes)
  (e : recv_event) (evs : list recv_event) :
  closed (net w s) = false ->
  ascii_only part -> part <> [] -> ~ In 10 part ->
  e = TimedOut \/ e = PeerReset ->
  incoming (net w s) = Data part :: e :: evs ->
  receive_message s w =
  Ok None (set_conn s (mkConn evs (broken (net w s)) false) w).
Proof.
  intros Hc Ha Hn Hl He Hi. rewrite receive_message_eq. unfold received.
  rewrite Hc, Hi. cbn [read_loop mem existsb].
  rewrite decode_utf8_ascii by exact Ha.
  destruct part as [|c part']; [congruence|]. cbn [app read_loop].
  apply mem_false in Hl. rewrite Hl.
  destruct He as [-> | ->]; reflexivity.
Qed.

Lemma partial_frame_is_lost_witness :
  closed (net (Scenes.pair [Data (lit "[1, 2"); TimedOut; Data (lit ", 3]")])
              1%nat) = false /\
  receive_message 1%nat
    (Scenes.pair [Data (lit "[1, 2"); TimedOut; Data (lit ", 3]")]) =
  Ok None (set_conn 1%nat (mkConn [Data (lit ", 3]")] false false)
             (Scenes.pair [Data (lit "[1, 2"); TimedOut; Data (lit ", 3]")])).
Proof.
  split; [reflexivity|].
  apply (partial_frame_is_lost 1%nat
           (Scenes.pair [Data (lit "[1, 2"); TimedOut; Data (lit ", 3]")])
           (lit "[1, 2") TimedOut [Data (lit ", 3]")]).
  - reflexivity.
  - repeat constructor; vm_compute; discriminate.
  - discriminate.
  - vm_compute. intuition discriminate.
  - left; reflexivity.
  - reflexivity.
Defined.

(** X4. Frames that do not share a segment are read in the order they
    were written, however each of them is cut: as many calls of
    [receive_message] as there are frames return the messages one after
    the other, leave what follows them on the socket, and touch nothing
    else. *)
Theorem frames_are_read_in_order (ms : list json) :
  forall (cuts : list (list bytes)) (s : sock) (w : world)
         (evs : list recv_event),
  Forall wf ms ->
  Forall2 (fun m chunks => List.concat chunks = frame m /\
                           Forall (fun c => c <> []) chunks) ms cuts ->
  closed (net w s) = false ->
  incoming (net w s) = map Data (List.concat cuts) ++ evs ->
  exists w',
    receive_many (List.length ms) s w = Ok (map Some ms) w' /\
    incoming (net w' s) = evs /\ closed (net w' s) = false /\
    clients w' = clients w /\ sent w' = sent w /\
    forall r, r <> s -> net w' r = net w r.
Proof.
  induction ms as [|m ms IH]; intros cuts s w evs Hwf Hcut Hc Hi.
  - inversion Hcut; subst. exists w.
    cbn [List.length receive_many map]. repeat split; assumption.
  - inversion Hwf as [|? ? Hm Hms]; subst.
    inversion Hcut as [|? chunks ? cuts' [Hcat Hne] Hcuts]; subst.
    cbn [List.concat] in Hi. rewrite map_app, <- app_assoc in Hi.
    cbn [List.length receive_many]. unfold bind at 1.
    assert (R : receive_message s w =
                Ok (Some m)
                   (set_conn s (mkConn (map Data (List.concat cuts') ++ evs)
                                       (broken (net w s)) false) w)).
    { rewrite receive_message_eq. unfold received. rewrite Hc, Hi.
      rewrite (read_loop_frame m chunks _ Hne Hcat).
      rewrite loads_frame by exact Hm. reflexivity. }
    rewrite R. unfold bind at 1.
    destruct (IH cuts' s
                (set_conn s (mkConn (map Data (List.concat cuts') ++ evs)
                                    (broken (net w s)) false) w) evs Hms Hcuts)
      as [w' [Hr [Hi' [Hc' [Hcl [Hs Hn]]]]]].
    + cbn. rewrite Nat.eqb_refl. reflexivity.
    + cbn. rewrite Nat.eqb_refl. reflexivity.
    + exists w'. rewrite Hr. unfold ret. cbn [map].
      repeat split; try assumption.
      intros r Hne'. rewrite (Hn r Hne'). cbn.
      apply Nat.eqb_neq in Hne'. rewrite Hne'. reflexivity.
Qed.

Lemma frames_are_read_in_order_witness :
  Forall wf [Client.ping_message; Client.chat_message (lit "hi")] /\
  exists w',
    receive_many 2 1%nat Scenes.ping_then_hi
    = Ok [Some Client.ping_message; Some (Client.chat_message (lit "hi"))] w' /\
    incoming (net w' 1%nat) = [TimedOut] /\ closed (net w' 1%nat) = false /\
    clients w' = clients Scenes.ping_then_hi /\
    sent w' = sent Scenes.ping_then_hi /\
    forall r, r <> 1%nat -> net w' r = net Scenes.ping_then_hi r.
Proof.
  assert (W : Forall wf [Client.ping_message; Client.chat_message (lit "hi")]).
  { repeat (constructor; [well_formed|]). constructor. }
  split; [exact W|].
  apply (frames_are_read_in_order
           [Client.ping_message; Client.chat_message (lit "hi")]
           [[firstn 5 (frame Client.ping_message);
             skipn 5 (frame Client.ping_message)];
            [frame (Client.chat_message (lit "hi"))]]
           1%nat Scenes.ping_then_hi [TimedOut] W).
  - repeat constructor; try reflexivity; discriminate.
  - reflexivity.
  - reflexivity.
Defined.

(** ** Writing *)

(** X5. [send_message] always returns and tells the caller nothing: on a
    socket that is closed or whose peer is gone the exception is dropped
    and nothing is written; otherwise one frame is written.  Registry,
    lock and connections stay as they were. *)
Theorem send_message_never_raises (s : sock) (data : json) (w : world) :
  exists w',
    send_message s data w = Ok tt w' /\
    sent w' = sent w ++ (if live w s then [(s, frame data)] else []) /\
    clients w' = clients w /\ lock_held w' = lock_held w /\ net w' = net w.
Proof.
  rewrite send_message_eq. eexists. split; [reflexivity|].
  destruct (live w s); cbn; repeat split; try reflexivity.
  symmetry; apply app_nil_r.
Qed.

(** X6. What the server's [send_message] writes for a well-formed message
    is what the client's [receive_message] returns when those bytes reach
    it, in whatever pieces; what follows them stays to be read. *)
Theorem client_reads_what_server_writes (s : sock) (data : json) (w : world)
  (k : conn) (chunks : list bytes) (evs : list recv_event)
  (out : list bytes) (run : bool) :
  wf data ->
  live w s = true ->
  closed k = false ->
  Forall (fun c => c <> []) chunks ->
  exists w' bs,
    send_message s data w = Ok tt w' /\
    sent w' = sent w ++ [(s, bs)] /\
    (List.concat chunks = bs ->
     incoming k = map Data chunks ++ evs ->
     Client.receive_message (Client.mkClient (Some k) out run) =
     (Some data, Client.mkClient (Some (mkConn evs (broken k) false)) out run)).
Proof.
  intros Hwf Hl Hk Hne. rewrite send_message_eq, Hl.
  exists (deliver data [s] w), (frame data).
  split; [reflexivity|]. split; [reflexivity|]. intros Hcat Hi.
  unfold Client.receive_message. cbn [Client.socket Client.outgoing Client.running].
  rewrite Hk, Hi, (read_loop_frame data chunks evs Hne Hcat).
  pose proof (loads_frame data Hwf) as L.
  destruct (split_first 10 (frame data)) as [message remaining].
  cbn [fst] in L. rewrite L. reflexivity.
Qed.

Lemma client_reads_what_server_writes_witness :
  wf Scenario.hello /\
  live Scenario.alice_inside 1%nat = true /\
  exists w' bs,
    send_message 1%nat Scenario.hello Scenario.alice_inside = Ok tt w' /\
    sent w' = sent Scenario.alice_inside ++ [(1%nat, bs)] /\
    (List.concat [firstn 20 (frame Scenario.hello);
                  skipn 20 (frame Scenario.hello)] = bs ->
     incoming (mkConn [Data (firstn 20 (frame Scenario.hello));
                       Data (skipn 20 (frame Scenario.hello))] false false)
     = map Data [firstn 20 (frame Scenario.hello);
                 skipn 20 (frame Scenario.hello)] ++ [] ->
     Client.receive_message
       (Client.mkClient
          (Some (mkConn [Data (firstn 20 (frame Scenario.hello));
                         Data (skipn 20 (frame Scenario.hello))] false false))
          [] true) =
     (Some Scenario.hello,
      Client.mkClient (Some (mkConn [] false false)) [] true)).
Proof.
  assert (W : wf Scenario.hello) by well_formed.
  split; [exact W|]. split; [reflexivity|].
  apply (client_reads_what_server_writes 1%nat Scenario.hello
           Scenario.alice_inside
           (mkConn [Data (firstn 20 (frame Scenario.hello));
                    Data (skipn 20 (frame Scenario.hello))] false false)
           [firstn 20 (frame Scenario.hello); skipn 20 (frame Scenario.hello)]
           [] [] true W).
  - reflexivity.
  - reflexivity.
  - repeat constructor; discriminate.
Defined.

(** X7. What the client's [send_message] writes for a well-formed message
    is what the server's [receive_message] returns when those bytes reach
    it, in whatever pieces; the client is told [True]. *)
Theorem server_reads_what_client_writes (data : json) (k : conn)
  (out : list bytes) (run : bool) (s : sock) (w : world)
  (chunks : list bytes) (evs : list recv_event) :
  wf data ->
  closed k = false -> broken k = false ->
  closed (net w s) = false ->
  Forall (fun c => c <> []) chunks ->
  exists bs,
    Client.send_message data (Client.mkClient (Some k) out run) =
    (true, Client.mkClient (Some k) (out ++ [bs]) run) /\
    (List.concat chunks = bs ->
     incoming (net w s) = map Data chunks ++ evs ->
     receive_message s w =
     Ok (Some data) (set_conn s (mkConn evs (broken (net w s)) false) w)).
Proof.
  intros Hwf Hk Hb Hc Hne. exists (frame data).
  split; [apply client_send_message_eq; assumption|]. intros Hcat Hi.
  rewrite receive_message_eq. unfold received.
  rewrite Hc, Hi, (read_loop_frame data chunks evs Hne Hcat).
  rewrite loads_frame by exact Hwf. reflexivity.
Qed.

Lemma server_reads_what_client_writes_witness :
  wf (Client.chat_message (lit "hi")) /\
  closed (net (Scenes.says (Client.chat_message (lit "hi"))) 1%nat) = false /\
  exists bs,
    Client.send_message (Client.chat_message (lit "hi"))
      (Client.mkClient (Some Scenario.quiet) [] true) =
    (true, Client.mkClient (Some Scenario.quiet) ([] ++ [bs]) true) /\
    (List.concat [frame (Client.chat_message (lit "hi"))] = bs ->
     incoming (net (Scenes.says (Client.chat_message (lit "hi"))) 1%nat)
     = map Data [frame (Client.chat_message (lit "hi"))] ++ [] ->
     receive_message 1%nat (Scenes.says (Client.chat_message (lit "hi"))) =
     Ok (Some (Client.chat_message (lit "hi")))
        (set_conn 1%nat
           (mkConn []
              (broken (net (Scenes.says (Client.chat_message (lit "hi"))) 1%nat))
              false)
           (Scenes.says (Client.chat_message (lit "hi"))))).
Proof.
  assert (W : wf (Client.chat_message (lit "hi"))) by well_formed.
  split; [exact W|]. split; [reflexivity|].
  apply (server_reads_what_client_writes (Client.chat_message (lit "hi"))
           Scenario.quiet [] true 1%nat
           (Scenes.says (Client.chat_message (lit "hi")))
           [frame (Client.chat_message (lit "hi"))] [] W).
  - reflexivity.
  - reflexivity.
  - reflexivity.
  - repeat constructor; discriminate.
Defined.

(** X8. A broadcast never removes a session: [send_message] raises
    nothing, so the list of failed sockets stays empty, and the broadcast
    leaves registry and connections as they were and writes nothing to the
    excluded socket. *)
Theorem broadcast_never_evicts (data : json) (exclude : option sock)
  (w : world) :
  lock_held w = false ->
  (forall socks v, exists v', broadcast_loop data exclude socks v = Ok [] v') /\
  exists w',
    broadcast_message data exclude w = Ok tt w' /\
    clients w' = clients w /\ net w' = net w /\ lock_held w' = false /\
    forall x bs, exclude = Some x -> In (x, bs) (sent w') -> In (x, bs) (sent w).
Proof.
  intros Hl. split.
  - intros socks v. rewrite broadcast_loop_eq. eexists; reflexivity.
  - rewrite broadcast_message_eq by exact Hl. eexists. split; [reflexivity|].
    repeat split; try assumption.
    intros x bs -> Hin. cbn in Hin. apply in_app_or in Hin.
    destruct Hin as [Hin|Hin]; [exact Hin|].
    apply in_map_iff in Hin. destruct Hin as [r [Hr Hin]].
    inversion Hr; subst r. exfalso. exact (recipients_exclude w x Hin).
Qed.

Lemma broadcast_never_evicts_witness :
  lock_held Scenario.bob_gone = false /\
  (forall socks v, exists v',
      broadcast_loop Scenario.hello (Some 1%nat) socks v = Ok [] v') /\
  exists w',
    broadcast_message Scenario.hello (Some 1%nat) Scenario.bob_gone = Ok tt w' /\
    clients w' = clients Scenario.bob_gone /\ net w' = net Scenario.bob_gone /\
    lock_held w' = false /\
    forall x bs, Some 1%nat = Some x -> In (x, bs) (sent w') ->
                 In (x, bs) (sent Scenario.bob_gone).
Proof.
  split; [reflexivity|].
  apply (broadcast_never_evicts Scenario.hello (Some 1%nat) Scenario.bob_gone).
  reflexivity.
Defined.

(** X9. The clean-up loop of [broadcast_message] runs with the registry
    lock held and calls [disconnect_client], which takes the same lock:
    with one socket to clean up it would wait for ever.  So does any call
    of [disconnect_client] or of [broadcast_message] made while the lock
    is held. *)
Theorem cleanup_would_block (s : sock) (rest : list sock)
  (username : option str) (notify : bool) (data : json)
  (exclude : option sock) (w : world) :
  lock_held w = true ->
  cleanup_loop (s :: rest) w = Blocked w /\
  disconnect_client s username notify w = Blocked w /\
  broadcast_message data exclude w = Blocked w.
Proof.
  intros Hl.
  assert (D : forall b u n, disconnect_with b s u n w = Blocked w).
  { intros b u n. unfold disconnect_with, try_except, bind, with_lock.
    rewrite Hl. reflexivity. }
  repeat split.
  - cbn [cleanup_loop]. unfold bind at 1. unfold gets. cbv beta iota.
    unfold bind. rewrite D. reflexivity.
  - apply D.
  - apply broadcast_message_blocked, Hl.
Qed.

Lemma cleanup_would_block_witness :
  lock_held (set_lock true Scenario.bob_gone) = true /\
  cleanup_loop [2%nat] (set_lock true Scenario.bob_gone)
  = Blocked (set_lock true Scenario.bob_gone) /\
  disconnect_client 2%nat (Some Scenario.bob) false (set_lock true Scenario.bob_gone)
  = Blocked (set_lock true Scenario.bob_gone) /\
  broadcast_message Scenario.hello None (set_lock true Scenario.bob_gone)
  = Blocked (set_lock true Scenario.bob_gone).
Proof.
  split; [reflexivity|].
  apply (cleanup_would_block 2%nat [] (Some Scenario.bob) false Scenario.hello
           None (set_lock true Scenario.bob_gone)).
  reflexivity.
Defined.

(** ** Messages of a session *)

(** X10. A ping is answered with a pong to the sender alone, whether or
    not the registry lock is free; on a socket that does not take it the
    pong is dropped. *)
Theorem ping_is_answered (s : sock) (username : str) (d : list (str * json))
  (w : world) :
  Dict.get str_eqb (lit "type") d = Some (JStr (lit "ping")) ->
  exists w',
    process_message s username (JDict d) w = Ok tt w' /\
    sent w' = sent w ++ (if live w s then [(s, frame pong_msg)] else []) /\
    clients w' = clients w /\ net w' = net w /\ lock_held w' = lock_held w.
Proof.
  intros Ht. rewrite process_message_dict, Ht.
  change (is_str (lit "chat") (Some (JStr (lit "ping")))) with false.
  change (is_str (lit "ping") (Some (JStr (lit "ping")))) with true.
  cbv iota. rewrite send_message_eq. eexists. split; [reflexivity|].
  destruct (live w s); cbn; repeat split; try reflexivity.
  symmetry; apply app_nil_r.
Qed.

Lemma ping_is_answered_witness :
  Dict.get str_eqb (lit "type") [(lit "type", JStr (lit "ping"))]
  = Some (JStr (lit "ping")) /\
  exists w',
    process_message 1%nat Scenario.alice Client.ping_message Scenario.bob_gone
    = Ok tt w' /\
    sent w' = sent Scenario.bob_gone ++
              (if live Scenario.bob_gone 1%nat
               then [(1%nat, frame pong_msg)] else []) /\
    clients w' = clients Scenario.bob_gone /\ net w' = net Scenario.bob_gone /\
    lock_held w' = lock_held Scenario.bob_gone.
Proof.
  split; [reflexivity|].
  apply (ping_is_answered 1%nat Scenario.alice [(lit "type", JStr (lit "ping"))]
           Scenario.bob_gone).
  reflexivity.
Defined.

(** X11. A dictionary whose type is neither chat nor ping, or that has no
    type, is ignored: nothing is written, nothing changes, and no error
    goes back to the sender. *)
Theorem other_types_are_ignored (s : sock) (username : str)
  (d : list (str * json)) (w : world) :
  Dict.get str_eqb (lit "type") d <> Some (JStr (lit "chat")) ->
  Dict.get str_eqb (lit "type") d <> Some (JStr (lit "ping")) ->
  process_message s username (JDict d) w = Ok tt w.
Proof.
  intros Hc Hp. rewrite process_message_dict.
  apply is_str_false in Hc. apply is_str_false in Hp.
  rewrite Hc, Hp. reflexivity.
Qed.

Lemma other_types_are_ignored_witness :
  process_message 1%nat Scenario.alice (Client.join_message Scenario.bob)
    Scenario.alice_inside = Ok tt Scenario.alice_inside.
Proof.
  apply (other_types_are_ignored 1%nat Scenario.alice
           [(lit "type", JStr (lit "join")); (lit "username", JStr Scenario.bob)]
           Scenario.alice_inside); discriminate.
Defined.

(** X12. [process_message] raises in two cases only, both with
    [AttributeError] and before anything is written: the message is not a
    dictionary, or it is a chat whose [message] is there and is not a
    string.  In every other case it returns. *)
Theorem process_message_raises_iff (s : sock) (username : str) (data : json)
  (w : world) :
  lock_held w = false ->
  (process_message s username data w = Raised AttributeError w <->
   (forall d, data <> JDict d) \/
   exists d v,
     data = JDict d /\
     Dict.get str_eqb (lit "type") d = Some (JStr (lit "chat")) /\
     Dict.get str_eqb (lit "message") d = Some v /\
     forall content, v <> JStr content) /\
  ((exists w', process_message s username data w = Ok tt w') \/
   process_message s username data w = Raised AttributeError w).
Proof.
  intros Hl. split.
  - split.
    + intros Hr. destruct data as [| | | | |l|d];
        try (left; intros d' Hd; discriminate).
      right. rewrite process_message_dict in Hr.
      destruct (is_str (lit "chat") (Dict.get str_eqb (lit "type") d)) eqn:Ec.
      * apply is_str_true in Ec.
        destruct (Dict.get str_eqb (lit "message") d) as [v|] eqn:Em.
        -- exists d, v. repeat split; try assumption.
           intros content ->. cbn [or_default] in Hr.
           destruct (negb (str_eqb (strip content) [])).
           ++ rewrite broadcast_message_eq in Hr by exact Hl. discriminate.
           ++ discriminate.
        -- cbn [or_default] in Hr.
           change (strip []) with (@nil Z) in Hr. cbn in Hr. discriminate.
      * destruct (is_str (lit "ping") (Dict.get str_eqb (lit "type") d)).
        -- rewrite send_message_eq in Hr. discriminate.
        -- discriminate.
    + intros [Hn | [d [v [-> [Ht [Hm Hv]]]]]].
      * apply process_message_other, Hn.
      * rewrite process_message_dict, Ht, Hm.
        change (is_str (lit "chat") (Some (JStr (lit "chat")))) with true.
        cbn [or_default]. destruct v; try reflexivity.
        exfalso. exact (Hv s0 eq_refl).
  - destruct (process_message_cases s username data w Hl)
      as [[to [msg [w0 [_ H]]]]|H].
    + left. eexists; exact H.
    + right; exact H.
Qed.

Lemma process_message_raises_iff_witness :
  lock_held Scenario.alice_inside = false /\
  process_message 1%nat Scenario.alice
    (JDict [(lit "type", JStr (lit "chat")); (lit "message", JInt 7)])
    Scenario.alice_inside = Raised AttributeError Scenario.alice_inside.
Proof.
  split; [reflexivity|].
  apply (process_message_raises_iff 1%nat Scenario.alice
           (JDict [(lit "type", JStr (lit "chat")); (lit "message", JInt 7)])
           Scenario.alice_inside eq_refl).
  right. exists [(lit "type", JStr (lit "chat")); (lit "message", JInt 7)], (JInt 7).
  repeat split; try reflexivity. discriminate.
Defined.

(** ** The message loop and the end of a session *)

(** X13. A message that [process_message] cannot handle ends the session:
    the [AttributeError] is caught in the loop, which is left; nothing is
    written to anyone, the sender is told nothing. *)
Theorem malformed_message_ends_session (s : sock) (username : str)
  (data : json) (w w1 : world) :
  running w = true ->
  receive_message s w = Ok (Some data) w1 ->
  truthy data = true ->
  (forall d, data <> JDict d) \/
  (exists d v,
     data = JDict d /\
     Dict.get str_eqb (lit "type") d = Some (JStr (lit "chat")) /\
     Dict.get str_eqb (lit "message") d = Some v /\
     forall content, v <> JStr content) ->
  loop_turn s username w = Ok false w1 /\
  thread_step s (Active username) w = Ok (Closing (Some username)) w1 /\
  sent w1 = sent w.
Proof.
  intros Hr Hrecv Ht Hbad.
  destruct (receive_message_inv _ _ _ _ Hrecv) as [Hf Hs].
  pose proof (received_fields s w) as F. cbv zeta in F. rewrite Hs in F.
  destruct F as [_ [Fl [_ [Fs _]]]].
  assert (P : process_message s username data w1 = Raised AttributeError w1).
  { destruct Hbad as [Hn | [d [v [-> [Hty [Hm Hv]]]]]].
    - apply process_message_other, Hn.
    - rewrite process_message_dict, Hty, Hm.
      change (is_str (lit "chat") (Some (JStr (lit "chat")))) with true.
      cbn [or_default]. destruct v; try reflexivity.
      exfalso. exact (Hv s0 eq_refl). }
  assert (L : loop_turn s username w = Ok false w1).
  { rewrite loop_turn_eq, Hf, Ht, Hs, P. reflexivity. }
  repeat split; [exact L | | exact Fs].
  cbn [thread_step]. unfold bind at 1. unfold gets. rewrite Hr.
  unfold bind. rewrite L. reflexivity.
Qed.

Lemma malformed_message_ends_session_witness :
  running (Scenes.says (JList [JInt 1])) = true /\
  truthy (JList [JInt 1]) = true /\
  loop_turn 1%nat Scenario.alice (Scenes.says (JList [JInt 1]))
  = Ok false (snd (received 1%nat (Scenes.says (JList [JInt 1])))) /\
  thread_step 1%nat (Active Scenario.alice)
    (Scenes.says (JList [JInt 1]))
  = Ok (Closing (Some Scenario.alice))
       (snd (received 1%nat (Scenes.says (JList [JInt 1])))) /\
  sent (snd (received 1%nat (Scenes.says (JList [JInt 1]))))
  = sent (Scenes.says (JList [JInt 1])).
Proof.
  split; [reflexivity|]. split; [reflexivity|].
  apply (malformed_message_ends_session 1%nat Scenario.alice (JList [JInt 1])
           (Scenes.says (JList [JInt 1]))
           (snd (received 1%nat (Scenes.says (JList [JInt 1]))))).
  - reflexivity.
  - vm_compute. reflexivity.
  - reflexivity.
  - left. intros d H. discriminate.
Defined.

(** X14. The loop goes round again only after a message was received and
    processed; in particular never after a timeout, which
    [receive_message] has turned into [None] before the loop's own
    [except socket.timeout: continue] could see it. *)
Theorem loop_goes_on_only_after_a_message (s : sock) (username : str)
  (w w' : world) :
  lock_held w = false ->
  loop_turn s username w = Ok true w' ->
  exists data w1,
    receive_message s w = Ok (Some data) w1 /\
    truthy data = true /\
    process_message s username data w1 = Ok tt w' /\
    (List.length (incoming (net w' s)) < List.length (incoming (net w s)))%nat.
Proof.
  intros Hl H. rewrite loop_turn_eq in H.
  destruct (fst (received s w)) as [data|] eqn:Ef; [|discriminate].
  destruct (truthy data) eqn:Et; [|discriminate].
  pose proof (received_fields s w) as F. cbv zeta in F.
  destruct F as [_ [Fl _]].
  assert (Hl1 : lock_held (snd (received s w)) = false) by congruence.
  destruct (process_message_cases s username data _ Hl1)
    as [[to [msg [w0 [Hw0 P]]]]|P]; rewrite P in H; [|discriminate].
  inversion H; subst w'.
  exists data, (snd (received s w)). rewrite receive_message_eq, Ef.
  repeat split; try assumption.
  replace (net (deliver msg to w0)) with (net (snd (received s w)))
    by (destruct Hw0; subst w0; reflexivity).
  apply (received_some_consumes s w data Ef).
Qed.

Lemma loop_goes_on_only_after_a_message_witness :
  lock_held (Scenes.says Client.ping_message) = false /\
  exists data w1,
    receive_message 1%nat (Scenes.says Client.ping_message)
    = Ok (Some data) w1 /\
    truthy data = true /\
    process_message 1%nat Scenario.alice data w1
    = Ok tt (reply 1%nat pong_msg
               (snd (received 1%nat
                       (Scenes.says Client.ping_message)))) /\
    (List.length
       (incoming (net (reply 1%nat pong_msg
                         (snd (received 1%nat
                                 (Scenes.says Client.ping_message))))
                      1%nat))
     < List.length
         (incoming (net (Scenes.says Client.ping_message) 1%nat)))%nat.
Proof.
  split; [reflexivity|].
  apply (loop_goes_on_only_after_a_message 1%nat Scenario.alice
           (Scenes.says Client.ping_message)).
  - reflexivity.
  - vm_compute. reflexivity.
Defined.

(** X15. A session that is silent for one wait is dropped: a timeout, a
    reset or the end of the stream on the socket of a session in the loop
    takes its handler to the clean-up, the lock held or not. *)
Theorem silent_session_is_dropped (s : sock) (username : str) (w : world)
  (e : recv_event) (evs : list recv_event) :
  running w = true ->
  closed (net w s) = false ->
  incoming (net w s) = e :: evs ->
  e = TimedOut \/ e = PeerReset \/ e = Data [] ->
  thread_step s (Active username) w =
  Ok (Closing (Some username))
     (set_conn s (mkConn evs (broken (net w s)) false) w).
Proof.
  intros Hr Hc Hi He. cbn [thread_step]. unfold bind at 1. unfold gets.
  rewrite Hr. unfold bind. rewrite loop_turn_eq. unfold received.
  rewrite Hc, Hi. destruct He as [->|[->| ->]]; reflexivity.
Qed.

Lemma silent_session_is_dropped_witness :
  running (Scenes.pair [TimedOut; Data (frame Client.ping_message)]) = true /\
  thread_step 1%nat (Active Scenario.alice)
    (Scenes.pair [TimedOut; Data (frame Client.ping_message)]) =
  Ok (Closing (Some Scenario.alice))
     (set_conn 1%nat
        (mkConn [Data (frame Client.ping_message)]
           (broken (net (Scenes.pair [TimedOut; Data (frame Client.ping_message)])
                        1%nat)) false)
        (Scenes.pair [TimedOut; Data (frame Client.ping_message)])).
Proof.
  split; [reflexivity|].
  apply (silent_session_is_dropped 1%nat Scenario.alice
           (Scenes.pair [TimedOut; Data (frame Client.ping_message)])
           TimedOut [Data (frame Client.ping_message)]);
    try reflexivity.
  left; reflexivity.
Defined.

(** X16. [handle_client] always comes to its [finally] and through it:
    run alone from a state where the lock is free, whatever arrives on the
    socket, the handler ends, with the socket closed, no entry of the
    socket in the registry and the lock free. *)
Theorem handler_always_cleans_up (s : sock) (turns : nat) (w : world) :
  settled w ->
  (List.length (incoming (net w s)) + 5 <= turns)%nat ->
  exists w',
    handle_client turns s w = Ok Closed w' /\
    closed (net w' s) = true /\
    Dict.has Nat.eqb s (clients w') = false /\
    settled w'.
Proof.
  intros Hs Ht.
  destruct (run_thread_ends s turns Connected w Hs) as [w' [H [Hs' [Hc Hh]]]].
  - discriminate.
  - exact Ht.
  - exists w'. repeat split; try assumption; apply Hs'.
Qed.

Lemma handler_always_cleans_up_witness :
  settled Scenario.visit /\
  exists w',
    handle_client 8 1%nat Scenario.visit = Ok Closed w' /\
    closed (net w' 1%nat) = true /\
    Dict.has Nat.eqb 1%nat (clients w') = false /\
    settled w'.
Proof.
  assert (S : settled Scenario.visit).
  { split; [reflexivity | constructor]. }
  split; [exact S|].
  apply (handler_always_cleans_up 1%nat 8 Scenario.visit S).
  cbn. lia.
Defined.

(** ** The handshake *)

(** X17. [get_username] always returns, the name or [None]: it changes
    neither the registry nor any other connection, leaves the lock free,
    and writes at most one frame, to the asking socket, and none when it
    returns a name.  The name is not registered by it. *)
Theorem get_username_is_contained (s : sock) (w : world) :
  lock_held w = false ->
  exists r w' replies,
    get_username s w = Ok r w' /\
    clients w' = clients w /\ lock_held w' = false /\
    (forall other, other <> s -> net w' other = net w other) /\
    sent w' = sent w ++ map (fun bs => (s, bs)) replies /\
    (List.length replies <= 1)%nat /\
    (r <> None -> replies = []).
Proof.
  intros Hl. rewrite get_username_eq by exact Hl. cbv zeta.
  pose proof (received_fields s w) as F. cbv zeta in F.
  destruct F as [Fc [Fl [_ [Fs _]]]].
  assert (N : forall other, other <> s ->
                net (snd (received s w)) other = net w other).
  { intros other Ho. rewrite received_net.
    apply Nat.eqb_neq in Ho. rewrite Ho. reflexivity. }
  set (w1 := snd (received s w)) in *.
  assert (R : forall msg, exists replies,
              clients (reply s msg w1) = clients w /\
              lock_held (reply s msg w1) = false /\
              (forall other, other <> s -> net (reply s msg w1) other = net w other) /\
              sent (reply s msg w1) = sent w ++ map (fun bs => (s, bs)) replies /\
              (List.length replies <= 1)%nat).
  { intros msg. unfold reply. destruct (live w1 s).
    - exists [frame msg]. cbn. rewrite Fs.
      repeat split; try assumption; try congruence. lia.
    - exists []. cbn. rewrite app_nil_r.
      repeat split; try assumption; try congruence. lia. }
  destruct (verdict_of (fst (received s w)) w1) as [n| | |].
  - exists (Some n), w1, []. cbn. rewrite app_nil_r.
    repeat split; try assumption; try congruence. lia.
  - destruct (R username_taken) as [replies [H1 [H2 [H3 [H4 H5]]]]].
    exists None, (reply s username_taken w1), replies.
    repeat split; try assumption. intros H; congruence.
  - destruct (R invalid_username) as [replies [H1 [H2 [H3 [H4 H5]]]]].
    exists None, (reply s invalid_username w1), replies.
    repeat split; try assumption. intros H; congruence.
  - exists None, w1, []. cbn. rewrite app_nil_r.
    repeat split; try assumption; try congruence. lia.
Qed.

Lemma get_username_is_contained_witness :
  lock_held (Scenes.asks (Client.join_message Scenario.alice))
  = false /\
  exists r w' replies,
    get_username 2%nat
      (Scenes.asks (Client.join_message Scenario.alice))
    = Ok r w' /\
    clients w'
    = clients (Scenes.asks (Client.join_message Scenario.alice)) /\
    lock_held w' = false /\
    (forall other, other <> 2%nat ->
       net w' other
       = net (Scenes.asks (Client.join_message Scenario.alice))
             other) /\
    sent w'
    = sent (Scenes.asks (Client.join_message Scenario.alice))
      ++ map (fun bs => (2%nat, bs)) replies /\
    (List.length replies <= 1)%nat /\
    (r <> None -> replies = []).
Proof.
  split; [reflexivity|].
  apply (get_username_is_contained 2%nat
           (Scenes.asks (Client.join_message Scenario.alice))).
  reflexivity.
Defined.

(** X18. A name is accepted only from a join message: the message read is
    a dictionary of type join, the name returned is its [username] with
    the white space trimmed from both ends, so a name that trimming would
    change is never accepted; the name is not empty, at most 20 characters
    long, and no session holds it at that moment.  Nothing was written. *)
Theorem accepted_name_comes_from_join (s : sock) (w w' : world) (n : str) :
  lock_held w = false ->
  get_username s w = Ok (Some n) w' ->
  (exists d u,
     receive_message s w = Ok (Some (JDict d)) w' /\
     Dict.get str_eqb (lit "type") d = Some (JStr (lit "join")) /\
     Dict.get str_eqb (lit "username") d = Some (JStr u) /\
     n = strip u) /\
  strip n = n /\ n <> [] /\ (List.length n <= 20)%nat /\
  ~ In n (Dict.values (clients w)) /\
  sent w' = sent w.
Proof.
  intros Hl H.
  destruct (get_username_accepted s w n w' Hl H) as [Hu [Hc [Hs [_ [Hne Hlen]]]]].
  assert (Hfree : ~ In n (Dict.values (clients w))).
  { rewrite <- Hc. apply name_in_use_false. exact Hu. }
  rewrite get_username_eq in H by exact Hl. cbv zeta in H.
  rewrite receive_message_eq.
  destruct (fst (received s w)) as [data|] eqn:Ef; [|discriminate].
  assert (V : exists d u,
             data = JDict d /\
             Dict.get str_eqb (lit "type") d = Some (JStr (lit "join")) /\
             Dict.get str_eqb (lit "username") d = Some (JStr u) /\
             n = strip u /\ snd (received s w) = w').
  { unfold verdict_of in H.
    destruct data as [| | | | |l|d];
      try (destruct (truthy _); discriminate).
    destruct (negb (truthy (JDict d))); [discriminate|].
    destruct (is_str (lit "join") (Dict.get str_eqb (lit "type") d)) eqn:Et;
      [|discriminate].
    apply is_str_true in Et.
    destruct (Dict.get str_eqb (lit "username") d) as [v|] eqn:Eu.
    - cbn [or_default] in H. destruct v; try discriminate.
      destruct (negb (str_eqb (strip s0) []) && Nat.leb (List.length (strip s0)) 20);
        [|discriminate].
      destruct (name_in_use (strip s0) (snd (received s w))); [discriminate|].
      inversion H; subst. exists d, s0. repeat split; assumption.
    - cbn [or_default] in H. change (strip []) with (@nil Z) in H.
      cbn in H. discriminate. }
  destruct V as [d [u [-> [Ht [Hu' [Hn Hw]]]]]].
  split; [exists d, u; rewrite Hw; repeat split; assumption|].
  repeat split; try assumption.
  rewrite Hn. apply strip_idem.
Qed.

Lemma accepted_name_comes_from_join_witness :
  lock_held Scenario.bang = false /\
  (exists d u,
     receive_message 1%nat Scenario.bang
     = Ok (Some (JDict d)) (snd (received 1%nat Scenario.bang)) /\
     Dict.get str_eqb (lit "type") d = Some (JStr (lit "join")) /\
     Dict.get str_eqb (lit "username") d = Some (JStr u) /\
     lit "bob!" = strip u) /\
  strip (lit "bob!") = lit "bob!" /\ lit "bob!" <> [] /\
  (List.length (lit "bob!") <= 20)%nat /\
  ~ In (lit "bob!") (Dict.values (clients Scenario.bang)) /\
  sent (snd (received 1%nat Scenario.bang)) = sent Scenario.bang.
Proof.
  split; [reflexivity|].
  apply (accepted_name_comes_from_join 1%nat Scenario.bang
           (snd (received 1%nat Scenario.bang)) (lit "bob!")).
  - reflexivity.
  - vm_compute. reflexivity.
Defined.

(** X19. A join for a name that a session holds is answered with
    "Username already taken" and [None]; the comparison is on the trimmed
    name and exact, and the registry is left as it was. *)
Theorem taken_name_is_refused (s : sock) (d : list (str * json)) (u : str)
  (w w1 : world) :
  lock_held w = false ->
  receive_message s w = Ok (Some (JDict d)) w1 ->
  Dict.get str_eqb (lit "type") d = Some (JStr (lit "join")) ->
  Dict.get str_eqb (lit "username") d = Some (JStr u) ->
  strip u <> [] ->
  (List.length (strip u) <= 20)%nat ->
  In (strip u) (Dict.values (clients w)) ->
  get_username s w = Ok None (reply s username_taken w1) /\
  clients (reply s username_taken w1) = clients w /\
  sent (reply s username_taken w1)
  = sent w ++ (if live w s then [(s, frame username_taken)] else []).
Proof.
  intros Hl Hr Ht Hu Hne Hlen Hin.
  destruct (receive_message_inv _ _ _ _ Hr) as [Hf Hs].
  pose proof (received_fields s w) as F. cbv zeta in F. rewrite Hs in F.
  destruct F as [Fc [_ [_ [Fs [_ Fv]]]]].
  split.
  - rewrite get_username_eq by exact Hl. cbv zeta. rewrite Hf, Hs.
    unfold verdict_of. destruct d as [|kv d']; [discriminate|].
    cbn [truthy negb]. rewrite Ht, Hu.
    change (is_str (lit "join") (Some (JStr (lit "join")))) with true.
    cbn [or_default]. cbv iota.
    replace (negb (str_eqb (strip u) [])) with true
      by (symmetry; apply negb_true_iff, str_eqb_neq; exact Hne).
    replace (Nat.leb (List.length (strip u)) 20) with true
      by (symmetry; apply Nat.leb_le; exact Hlen).
    cbn [andb].
    replace (name_in_use (strip u) w1) with true; [reflexivity|].
    symmetry. destruct (name_in_use (strip u) w1) eqn:X; [reflexivity|].
    apply name_in_use_false in X. rewrite Fc in X. contradiction.
  - unfold reply. rewrite Fv. destruct (live w s); cbn.
    + split; [exact Fc | rewrite Fs; reflexivity].
    + split; [exact Fc | rewrite Fs, app_nil_r; reflexivity].
Qed.

Lemma taken_name_is_refused_witness :
  lock_held (Scenes.asks (Client.join_message (lit "  alice ")))
  = false /\
  In (strip (lit "  alice "))
     (Dict.values
        (clients (Scenes.knock
                    [Data (frame (Client.join_message (lit "  alice ")))]))) /\
  get_username 2%nat
    (Scenes.asks (Client.join_message (lit "  alice ")))
  = Ok None
       (reply 2%nat username_taken
          (snd (received 2%nat
                  (Scenes.knock
                     [Data (frame (Client.join_message (lit "  alice ")))])))) /\
  clients (reply 2%nat username_taken
             (snd (received 2%nat
                     (Scenes.knock
                        [Data (frame (Client.join_message (lit "  alice ")))]))))
  = clients (Scenes.asks (Client.join_message (lit "  alice "))) /\
  sent (reply 2%nat username_taken
          (snd (received 2%nat
                  (Scenes.knock
                     [Data (frame (Client.join_message (lit "  alice ")))]))))
  = sent (Scenes.asks (Client.join_message (lit "  alice ")))
    ++ (if live (Scenes.knock
                   [Data (frame (Client.join_message (lit "  alice ")))]) 2%nat
        then [(2%nat, frame username_taken)] else []).
Proof.
  split; [reflexivity|]. split; [left; reflexivity|].
  apply (taken_name_is_refused 2%nat
           [(lit "type", JStr (lit "join")); (lit "username", JStr (lit "  alice "))]
           (lit "  alice ")
           (Scenes.asks (Client.join_message (lit "  alice ")))
           (snd (received 2%nat
                   (Scenes.knock
                      [Data (frame (Client.join_message (lit "  alice ")))])))).
  - reflexivity.
  - vm_compute. reflexivity.
  - reflexivity.
  - reflexivity.
  - vm_compute. discriminate.
  - vm_compute. lia.
  - left; reflexivity.
Defined.

(** X20. A connection that sends no join in its first wait is told
    "Invalid username": nothing arrives in time, the connection is reset,
    the text is no JSON, the value is falsy, or it is a dictionary of
    another type. *)
Theorem no_join_is_invalid (s : sock) (r : option json) (w w1 : world) :
  lock_held w = false ->
  receive_message s w = Ok r w1 ->
  r = None \/
  (exists data, r = Some data /\ truthy data = false) \/
  (exists d, r = Some (JDict d) /\
             Dict.get str_eqb (lit "type") d <> Some (JStr (lit "join"))) ->
  get_username s w = Ok None (reply s invalid_username w1) /\
  sent (reply s invalid_username w1)
  = sent w ++ (if live w s then [(s, frame invalid_username)] else []).
Proof.
  intros Hl Hr Hcase.
  destruct (receive_message_inv _ _ _ _ Hr) as [Hf Hs].
  pose proof (received_fields s w) as F. cbv zeta in F. rewrite Hs in F.
  destruct F as [_ [_ [_ [Fs [_ Fv]]]]].
  split.
  - rewrite get_username_eq by exact Hl. cbv zeta. rewrite Hf, Hs.
    destruct Hcase as [-> | [[data [-> Ht]] | [d [-> Ht]]]].
    + reflexivity.
    + unfold verdict_of. destruct data; rewrite ?Ht; reflexivity.
    + unfold verdict_of. apply is_str_false in Ht. rewrite Ht.
      destruct (negb (truthy (JDict d))); reflexivity.
  - unfold reply. rewrite Fv. destruct (live w s); cbn.
    + rewrite Fs; reflexivity.
    + rewrite Fs, app_nil_r; reflexivity.
Qed.

Lemma no_join_is_invalid_witness :
  lock_held (Scenes.knock [TimedOut]) = false /\
  receive_message 2%nat (Scenes.knock [TimedOut])
  = Ok None (snd (received 2%nat (Scenes.knock [TimedOut]))) /\
  get_username 2%nat (Scenes.knock [TimedOut])
  = Ok None (reply 2%nat invalid_username
               (snd (received 2%nat (Scenes.knock [TimedOut])))) /\
  sent (reply 2%nat invalid_username
          (snd (received 2%nat (Scenes.knock [TimedOut]))))
  = sent (Scenes.knock [TimedOut])
    ++ (if live (Scenes.knock [TimedOut]) 2%nat
        then [(2%nat, frame invalid_username)] else []).
Proof.
  split; [reflexivity|]. split; [reflexivity|].
  apply (no_join_is_invalid 2%nat None (Scenes.knock [TimedOut])
           (snd (received 2%nat (Scenes.knock [TimedOut])))).
  - reflexivity.
  - reflexivity.
  - left; reflexivity.
Defined.

(** X21. A first message that makes the handshake raise gets no answer at
    all: a truthy value that is no dictionary ([.get] is missing), or a
    join whose [username] is there and is not a string ([.strip] is
    missing).  [None] is returned and nothing is written. *)
Theorem broken_join_gets_no_answer (s : sock) (data : json) (w w1 : world) :
  lock_held w = false ->
  receive_message s w = Ok (Some data) w1 ->
  truthy data = true ->
  (forall d, data <> JDict d) \/
  (exists d v,
     data = JDict d /\
     Dict.get str_eqb (lit "type") d = Some (JStr (lit "join")) /\
     Dict.get str_eqb (lit "username") d = Some v /\
     forall u, v <> JStr u) ->
  get_username s w = Ok None w1 /\ sent w1 = sent w.
Proof.
  intros Hl Hr Ht Hcase.
  destruct (receive_message_inv _ _ _ _ Hr) as [Hf Hs].
  pose proof (received_fields s w) as F. cbv zeta in F. rewrite Hs in F.
  destruct F as [_ [_ [_ [Fs _]]]].
  split; [|exact Fs].
  rewrite get_username_eq by exact Hl. cbv zeta. rewrite Hf, Hs.
  destruct Hcase as [Hn | [d [v [-> [Hty [Hu Hv]]]]]].
  - unfold verdict_of. destruct data; rewrite ?Ht; try reflexivity.
    exfalso. exact (Hn _ eq_refl).
  - unfold verdict_of. rewrite Ht, Hty, Hu.
    change (is_str (lit "join") (Some (JStr (lit "join")))) with true.
    cbn [negb or_default]. cbv iota. destruct v; try reflexivity.
    exfalso. exact (Hv _ eq_refl).
Qed.

Lemma broken_join_gets_no_answer_witness :
  lock_held (Scenes.asks (JInt 7)) = false /\
  truthy (JInt 7) = true /\
  get_username 2%nat (Scenes.asks (JInt 7))
  = Ok None (snd (received 2%nat (Scenes.asks (JInt 7)))) /\
  sent (snd (received 2%nat (Scenes.asks (JInt 7))))
  = sent (Scenes.asks (JInt 7)).
Proof.
  split; [reflexivity|]. split; [reflexivity|].
  apply (broken_join_gets_no_answer 2%nat (JInt 7)
           (Scenes.asks (JInt 7))
           (snd (received 2%nat (Scenes.asks (JInt 7))))).
  - reflexivity.
  - vm_compute. reflexivity.
  - reflexivity.
  - left. intros d H. discriminate.
Defined.

(** ** Joining and leaving, one handler at a time *)

(** X22. A join that no other handler cuts into keeps the registry sound:
    it always returns, one socket still has one entry, no two sessions
    share a name, and the lock is free again; an accepted name is the
    entry of the socket, a refusal leaves the registry as it was. *)
Theorem join_keeps_registry_sound (s : sock) (w : world) :
  settled w -> unique_names w ->
  exists r w',
    join s w = Ok r w' /\ settled w' /\ unique_names w' /\
    match r with
    | Some n => clients w' = Dict.set Nat.eqb s n (clients w) /\
                Dict.get Nat.eqb s (clients w') = Some n
    | None => clients w' = clients w
    end.
Proof.
  intros [Hl Hn] Hu.
  destruct (get_username_returns s w Hl) as [r [w1 [G [Gc Gl]]]].
  assert (J : exists w', join s w = Ok match r with
                                       | Some (c :: n) => r
                                       | _ => None
                                       end w' /\
                         lock_held w' = false /\
                         clients w' = match r with
                                      | Some (c :: n) =>
                                          Dict.set Nat.eqb s (c :: n) (clients w)
                                      | _ => clients w
                                      end).
  { unfold join. unfold bind at 1. rewrite G.
    destruct r as [[|c n]|]; try (exists w1; repeat split; assumption).
    unfold bind. rewrite accept_eq by exact Gl. cbv zeta.
    eexists. split; [reflexivity|].
    destruct (live w1 s); cbn [lock_held clients deliver set_clients];
      rewrite Gc; split; [exact Gl | reflexivity | exact Gl | reflexivity]. }
  destruct J as [w' [J [Jl Jc]]].
  eexists; exists w'. split; [exact J|].
  split; [|split; [exact (join_keeps_names_unique s w _ w' Hl Hu J)|]].
  - split; [exact Jl|]. rewrite Jc.
    destruct r as [[|c n]|]; try exact Hn. apply keys_set_nodup, Hn.
  - destruct r as [[|c n]|]; try exact Jc.
    split; [exact Jc|]. rewrite Jc. apply get_set_same.
Qed.

Lemma join_keeps_registry_sound_witness :
  settled (Scenes.asks (Client.join_message Scenario.bob)) /\
  unique_names (Scenes.asks (Client.join_message Scenario.bob)) /\
  exists r w',
    join 2%nat (Scenes.asks (Client.join_message Scenario.bob))
    = Ok r w' /\
    settled w' /\ unique_names w' /\
    match r with
    | Some n =>
        clients w'
        = Dict.set Nat.eqb 2%nat n
            (clients (Scenes.knock
                        [Data (frame (Client.join_message Scenario.bob))])) /\
        Dict.get Nat.eqb 2%nat (clients w') = Some n
    | None =>
        clients w'
        = clients (Scenes.asks (Client.join_message Scenario.bob))
    end.
Proof.
  assert (S : settled (Scenes.knock
                         [Data (frame (Client.join_message Scenario.bob))])).
  { split; [reflexivity|]. repeat constructor. intros []. }
  assert (U : unique_names (Scenes.knock
                              [Data (frame (Client.join_message Scenario.bob))])).
  { repeat constructor. intros []. }
  split; [exact S|]. split; [exact U|].
  exact (join_keeps_registry_sound 2%nat
           (Scenes.asks (Client.join_message Scenario.bob)) S U).
Defined.

(** X23. When a named session leaves, the clock is read once and the
    user_left notice, the dictionary of type user_left with the leaver's
    name, the text [name left the chat] and that reading, is written to
    every other session whose socket is live, in registry order, and to
    no one else; the leaver's socket is closed and its entry gone before
    the notice is sent. *)
Theorem leaving_is_announced_to_the_others (s : sock) (name : str) (w : world) :
  settled w ->
  name <> [] ->
  exists w',
    disconnect_client s (Some name) true w = Ok None w' /\
    sent w' = sent w ++
              map (fun r =>
                     (r, frame (JDict [(lit "type", JStr (lit "user_left"));
                                       (lit "username", JStr name);
                                       (lit "message",
                                        JStr (name ++ lit " left the chat"));
                                       (lit "timestamp",
                                        JFloat (clock w (ticks w)))])))
                  (filter (fun r => negb (Nat.eqb r s) && live w r)
                          (Dict.keys (clients w))) /\
    ticks w' = S (ticks w) /\
    closed (net w' s) = true /\
    Dict.has Nat.eqb s (clients w') = false /\
    (forall r, r <> s -> net w' r = net w r) /\
    settled w'.
Proof.
  intros [Hl Hn] Hne. rewrite disconnect_client_eq by exact Hl.
  destruct name as [|c name]; [congruence|]. cbn [name_set andb].
  rewrite recipients_unregister by exact Hn.
  eexists. split; [reflexivity|]. cbn.
  rewrite Nat.eqb_refl.
  repeat split; try assumption.
  - apply has_del, Hn.
  - intros r Hr. apply Nat.eqb_neq in Hr. rewrite Hr. reflexivity.
  - apply keys_del_nodup, Hn.
Qed.

(** Alice leaves while bob's connection is gone: carol alone is told. *)
Lemma leaving_is_announced_to_the_others_witness :
  settled Scenario.bob_gone /\
  exists w',
    disconnect_client 1%nat (Some Scenario.alice) true Scenario.bob_gone
    = Ok None w' /\
    sent w' =
    [(3%nat, frame (JDict [(lit "type", JStr (lit "user_left"));
                           (lit "username", JStr Scenario.alice);
                           (lit "message", JStr (lit "alice left the chat"));
                           (lit "timestamp", JFloat (Scenario.readings 0))]))] /\
    ticks w' = 1%nat /\
    closed (net w' 1%nat) = true /\
    Dict.has Nat.eqb 1%nat (clients w') = false.
Proof.
  assert (S : settled Scenario.bob_gone).
  { split; [reflexivity|].
    repeat (constructor; [cbn; intuition discriminate|]). constructor. }
  split; [exact S|].
  destruct (leaving_is_announced_to_the_others 1%nat Scenario.alice
              Scenario.bob_gone S) as [w' [D [Hs [T [C [H _]]]]]];
    [discriminate|].
  exists w'. split; [exact D|]. split; [rewrite Hs; reflexivity|].
  split; [exact T|]. split; [exact C | exact H].
Defined.

(** X24. A connection whose handshake is refused leaves in silence: the
    handler goes from [get_username] straight to its [finally], where no
    name is known, so the socket is closed and nothing is written after
    the reply of the handshake; the sessions inside never hear of it and
    the registry is as it was. *)
Theorem refused_connection_leaves_in_silence (s : sock) (turns : nat)
  (w w1 : world) :
  settled w ->
  Dict.has Nat.eqb s (clients w) = false ->
  get_username s w = Ok None w1 ->
  (2 <= turns)%nat ->
  exists w',
    handle_client turns s w = Ok Closed w' /\
    sent w' = sent w1 /\
    clients w' = clients w /\
    closed (net w' s) = true.
Proof.
  intros [Hl Hn] Habs G Ht.
  destruct (get_username_returns s w Hl) as [r [v [G' [Gc Gl]]]].
  rewrite G in G'. inversion G'; subst r v. clear G'.
  destruct turns as [|[|n]]; try lia.
  exists (unregister s w1).
  assert (S1 : thread_step s Connected w = Ok (Closing None) w1).
  { cbn [thread_step]. unfold bind. rewrite G. reflexivity. }
  assert (S2 : thread_step s (Closing None) w1 = Ok Closed (unregister s w1)).
  { cbn [thread_step]. unfold bind.
    rewrite disconnect_client_eq by exact Gl. reflexivity. }
  unfold handle_client.
  change (run_thread (S (S n)) s Connected)
    with (bind (thread_step s Connected) (fun p => run_thread (S n) s p)).
  unfold bind at 1. rewrite S1.
  change (run_thread (S n) s (Closing None))
    with (bind (thread_step s (Closing None)) (fun p => run_thread n s p)).
  unfold bind at 1. rewrite S2, run_thread_closed.
  repeat split.
  - cbn. rewrite Gc. apply del_absent, Habs.
  - cbn. rewrite Nat.eqb_refl. reflexivity.
Qed.

Lemma refused_connection_leaves_in_silence_witness :
  settled (Scenes.knock [TimedOut]) /\
  Dict.has Nat.eqb 2%nat (clients (Scenes.knock [TimedOut])) = false /\
  exists w',
    handle_client 2 2%nat (Scenes.knock [TimedOut]) = Ok Closed w' /\
    sent w' = sent (reply 2%nat invalid_username
                      (snd (received 2%nat (Scenes.knock [TimedOut])))) /\
    clients w' = clients (Scenes.knock [TimedOut]) /\
    closed (net w' 2%nat) = true.
Proof.
  assert (S : settled (Scenes.knock [TimedOut])).
  { split; [reflexivity|]. repeat constructor. intros []. }
  split; [exact S|]. split; [reflexivity|].
  apply (refused_connection_leaves_in_silence 2%nat 2 (Scenes.knock [TimedOut])
           (reply 2%nat invalid_username
              (snd (received 2%nat (Scenes.knock [TimedOut])))) S).
  - reflexivity.
  - reflexivity.
  - lia.
Defined.

(** ** Shutting down *)

(** X25. [stop] with the lock free: the server no longer runs, every
    registered socket is closed and so is the listening socket, the
    registry is empty and the lock free again; nothing is written, no
    client is told, and what was still to be read stays unread. *)
Theorem stop_closes_everything (server_socket : option sock) (w : world) :
  lock_held w = false ->
  exists w',
    stop server_socket w = Ok tt w' /\
    running w' = false /\ clients w' = [] /\ lock_held w' = false /\
    sent w' = sent w /\
    (forall r, In r (Dict.keys (clients w)) -> closed (net w' r) = true) /\
    (forall l, server_socket = Some l -> closed (net w' l) = true) /\
    (forall r, incoming (net w' r) = incoming (net w r)) /\
    (forall r, ~ In r (Dict.keys (clients w)) -> server_socket <> Some r ->
               closed (net w' r) = closed (net w r)).
Proof.
  intros Hl. unfold stop. unfold bind at 1. unfold modify at 1.
  unfold bind at 1. unfold with_lock.
  cbn [lock_held set_running]. rewrite Hl.
  unfold bind at 1. unfold gets at 1. unfold bind at 1.
  destruct (close_all_effect (Dict.keys (clients w))
              (set_lock true (set_running false w)))
    as [v [H [Hc [Hlk [Hr [Hs [Hk Hn]]]]]]].
  cbn [clients set_lock set_running] in H. cbn [clients set_lock set_running].
  rewrite H. unfold modify.
  assert (K : forall r, In r (Dict.keys (clients w)) -> closed (net v r) = true).
  { intros r Hin. destruct (Hn r) as [_ [_ ->]].
    apply existsb_eqb_in in Hin. cbn [clients set_lock set_running].
    rewrite Hin. apply orb_true_r. }
  assert (U : forall r, ~ In r (Dict.keys (clients w)) ->
                        closed (net v r) = closed (net w r)).
  { intros r Hin. destruct (Hn r) as [_ [_ ->]].
    cbn [clients set_lock set_running net].
    destruct (existsb (Nat.eqb r) (Dict.keys (clients w))) eqn:E.
    - apply existsb_eqb_in in E. contradiction.
    - apply orb_false_r. }
  assert (I : forall r, incoming (net v r) = incoming (net w r)).
  { intros r. destruct (Hn r) as [-> _]. reflexivity. }
  destruct server_socket as [l|].
  - unfold try_except, sock_close, modify. eexists. split; [reflexivity|].
    cbn. repeat split; try assumption.
    + intros r Hin. destruct (Nat.eqb r l); [reflexivity | apply K, Hin].
    + intros l' E. inversion E; subst l'. rewrite Nat.eqb_refl. reflexivity.
    + intros r. destruct (Nat.eqb r l) eqn:E; [|apply I].
      apply Nat.eqb_eq in E. subst r. cbn. apply I.
    + intros r Hin Hne. destruct (Nat.eqb r l) eqn:E; [|apply U, Hin].
      apply Nat.eqb_eq in E. subst r. congruence.
  - unfold ret. eexists. split; [reflexivity|].
    cbn. repeat split; try assumption.
    + intros l E. discriminate.
    + intros r Hin _. apply U, Hin.
Qed.

Lemma stop_closes_everything_witness :
  lock_held Scenario.bob_gone = false /\
  exists w',
    stop (Some 0%nat) Scenario.bob_gone = Ok tt w' /\
    running w' = false /\ clients w' = [] /\ lock_held w' = false /\
    sent w' = sent Scenario.bob_gone /\
    (forall r, In r (Dict.keys (clients Scenario.bob_gone)) ->
               closed (net w' r) = true) /\
    (forall l, Some 0%nat = Some l -> closed (net w' l) = true) /\
    (forall r, incoming (net w' r) = incoming (net Scenario.bob_gone r)) /\
    (forall r, ~ In r (Dict.keys (clients Scenario.bob_gone)) ->
               Some 0%nat <> Some r ->
               closed (net w' r) = closed (net Scenario.bob_gone r)).
Proof.
  split; [reflexivity|].
  apply (stop_closes_everything (Some 0%nat) Scenario.bob_gone).
  reflexivity.
Defined.

(** X26. After [stop] a handler that stood in its message loop winds down
    in two pieces without a word: the loop sees [running] false, and the
    user_left notice of its clean-up finds the registry empty.  No client
    is ever told that the server stops. *)
Theorem stopped_server_says_nothing (server_socket : option sock) (s : sock)
  (username : str) (w : world) :
  lock_held w = false ->
  exists w' w'',
    stop server_socket w = Ok tt w' /\
    run_thread 2 s (Active username) w' = Ok Closed w'' /\
    sent w'' = sent w /\ clients w'' = [] /\ closed (net w'' s) = true.
Proof.
  intros Hl.
  destruct (stop_effect server_socket w Hl) as [w' [H [Hr [Hc [Hlk Hs]]]]].
  exists w'.
  assert (S1 : thread_step s (Active username) w'
               = Ok (Closing (Some username)) w').
  { cbn [thread_step]. unfold bind, gets. rewrite Hr. reflexivity. }
  assert (S2 : exists w'', thread_step s (Closing (Some username)) w'
                           = Ok Closed w'' /\
                           sent w'' = sent w /\ clients w'' = [] /\
                           closed (net w'' s) = true).
  { cbn [thread_step]. unfold bind.
    rewrite disconnect_client_eq by exact Hlk.
    eexists. split; [reflexivity|].
    assert (R : recipients (unregister s w') None = []).
    { unfold recipients. cbn [clients unregister set_conn set_clients].
      rewrite Hc. reflexivity. }
    rewrite R. destruct (name_set (Some username) && true); cbn;
      rewrite ?app_nil_r, ?Nat.eqb_refl, Hc; repeat split; assumption. }
  destruct S2 as [w'' [S2 [Hs2 [Hc2 Hk2]]]]. exists w''.
  split; [exact H|]. split; [|repeat split; assumption].
  change (run_thread 2 s (Active username))
    with (bind (thread_step s (Active username)) (fun p => run_thread 1 s p)).
  unfold bind at 1. rewrite S1.
  change (run_thread 1 s (Closing (Some username)))
    with (bind (thread_step s (Closing (Some username)))
               (fun p => run_thread 0 s p)).
  unfold bind at 1. rewrite S2. reflexivity.
Qed.

Lemma stopped_server_says_nothing_witness :
  lock_held Scenario.bob_gone = false /\
  exists w' w'',
    stop (Some 0%nat) Scenario.bob_gone = Ok tt w' /\
    run_thread 2 1%nat (Active Scenario.alice) w' = Ok Closed w'' /\
    sent w'' = sent Scenario.bob_gone /\ clients w'' = [] /\
    closed (net w'' 1%nat) = true.
Proof.
  split; [reflexivity|].
  apply (stopped_server_says_nothing (Some 0%nat) 1%nat Scenario.alice
           Scenario.bob_gone).
  reflexivity.
Defined.

(** ** The client's name check and the codec *)

(** X27. The check of [main] lets a name through exactly when, trimmed,
    it is 1 to 20 characters long, each of them a hyphen, an underscore or
    alphanumeric, and at least one of them neither hyphen nor underscore:
    a name made of hyphens and underscores alone is turned down, since the
    empty string is not alphanumeric.  The name that goes on is the
    trimmed one. *)
Theorem client_name_check_accepts_iff (isalnum_char : Z -> bool)
  (raw u : str) :
  ClientMain.check_username isalnum_char raw = ClientMain.NameOk u <->
  u = strip raw /\ u <> [] /\ (List.length u <= 20)%nat /\
  (forall c, In c u -> c = 45 \/ c = 95 \/ isalnum_char c = true) /\
  (exists c, In c u /\ c <> 45 /\ c <> 95).
Proof.
  unfold ClientMain.check_username. cbv zeta.
  set (n := strip raw).
  assert (F : forall l,
            ClientMain.isalnum isalnum_char
              (ClientMain.remove_char 45 (ClientMain.remove_char 95 l)) = true <->
            (forall c, In c l -> c = 45 \/ c = 95 \/ isalnum_char c = true) /\
            (exists c, In c l /\ c <> 45 /\ c <> 95)).
  { intros l. unfold ClientMain.isalnum, ClientMain.remove_char.
    rewrite andb_true_iff, negb_true_iff, str_eqb_neq, forallb_forall.
    split.
    - intros [Hne Hall]. split.
      + intros c Hc.
        destruct (Z.eqb_spec c 45) as [->|N1]; [left; reflexivity|].
        destruct (Z.eqb_spec c 95) as [->|N2]; [right; left; reflexivity|].
        right; right. apply Hall.
        apply filter_In. split.
        * apply filter_In. split; [exact Hc|].
          apply negb_true_iff, Z.eqb_neq, N2.
        * apply negb_true_iff, Z.eqb_neq, N1.
      + destruct (filter _ (filter _ l)) as [|c r] eqn:E; [congruence|].
        assert (Hc : In c (c :: r)) by (left; reflexivity).
        rewrite <- E in Hc. apply filter_In in Hc. destruct Hc as [Hc H45].
        apply filter_In in Hc. destruct Hc as [Hc H95].
        exists c. repeat split; [exact Hc| |].
        * apply negb_true_iff, Z.eqb_neq in H45. exact H45.
        * apply negb_true_iff, Z.eqb_neq in H95. exact H95.
    - intros [Hall [c [Hc [N1 N2]]]].
      assert (Hin : forall x, In x (filter (fun x => negb (x =? 45))
                                      (filter (fun x => negb (x =? 95)) l)) <->
                              In x l /\ x <> 95 /\ x <> 45).
      { intros x. rewrite filter_In, filter_In, !negb_true_iff, !Z.eqb_neq.
        tauto. }
      split.
      + intros E. assert (H : In c []); [|exact H].
        rewrite <- E. apply Hin. repeat split; assumption.
      + intros x Hx. apply Hin in Hx. destruct Hx as [Hx [M1 M2]].
        destruct (Hall x Hx) as [?|[?|?]]; [contradiction|contradiction|assumption]. }
  destruct (str_eqb n [] || Nat.ltb 20 (List.length n)) eqn:E1.
  - split; [discriminate|]. intros [-> [Hne [Hlen _]]].
    apply orb_true_iff in E1. destruct E1 as [E1|E1].
    + apply str_eqb_eq in E1. contradiction.
    + apply Nat.ltb_lt in E1. fold n in Hlen. lia.
  - apply orb_false_iff in E1. destruct E1 as [E1 E2].
    apply str_eqb_neq in E1. apply Nat.ltb_ge in E2.
    destruct (ClientMain.isalnum isalnum_char
                (ClientMain.remove_char 45 (ClientMain.remove_char 95 n))) eqn:E3;
      cbn [negb].
    + apply F in E3. split.
      * intros H. inversion H; subst u. repeat split; try assumption; apply E3.
      * intros [-> _]. reflexivity.
    + split; [discriminate|]. intros [-> [_ [_ H]]].
      apply F in H. fold n in H. congruence.
Qed.

(** X28. A name that the client's check lets through is the name the
    server registers: the join message the client sends for it is
    accepted as it is when the name is free, with nothing more to trim,
    and no error is written. *)
Theorem checked_name_passes_the_server (isalnum_char : Z -> bool)
  (raw u : str) (s : sock) (w : world) (evs : list recv_event) :
  ClientMain.check_username isalnum_char raw = ClientMain.NameOk u ->
  wf_str u ->
  lock_held w = false ->
  closed (net w s) = false ->
  incoming (net w s) = Data (frame (Client.join_message u)) :: evs ->
  ~ In u (Dict.values (clients w)) ->
  exists w1,
    get_username s w = Ok (Some u) w1 /\
    sent w1 = sent w /\ clients w1 = clients w /\
    incoming (net w1 s) = evs.
Proof.
  intros Hck Hwf Hl Hc Hi Hfree.
  destruct (check_username_accepted _ _ _ Hck) as [Hu [Hne Hlen]].
  assert (Hs : strip u = u) by (rewrite Hu; apply strip_idem).
  assert (W : wf (Client.join_message u)).
  { split.
    - repeat (constructor; [cbn; intuition discriminate|]). constructor.
    - cbn. repeat split; try lia; try exact Hwf;
        try (intros [H1 H2]; discriminate). }
  assert (R : received s w =
              (Some (Client.join_message u),
               set_conn s (mkConn evs (broken (net w s)) false) w)).
  { unfold received. rewrite Hc, Hi. unfold frame.
    rewrite (read_loop_segment (dumps (Client.join_message u)) [] _)
      by (apply (frame_ascii (Client.join_message u))).
    rewrite split_first_app by (apply printable_no_newline, dumps_printable).
    cbn [fst]. rewrite loads_dumps by exact W. reflexivity. }
  exists (set_conn s (mkConn evs (broken (net w s)) false) w).
  split.
  - rewrite get_username_eq by exact Hl. cbv zeta. rewrite R. cbn [fst snd].
    unfold verdict_of, Client.join_message. cbn [truthy negb].
    change (Dict.get str_eqb (lit "type")
              [(lit "type", JStr (lit "join")); (lit "username", JStr u)])
      with (Some (JStr (lit "join"))).
    change (Dict.get str_eqb (lit "username")
              [(lit "type", JStr (lit "join")); (lit "username", JStr u)])
      with (Some (JStr u)).
    change (is_str (lit "join") (Some (JStr (lit "join")))) with true.
    cbn [or_default]. cbv iota. rewrite Hs.
    replace (negb (str_eqb u [])) with true
      by (symmetry; apply negb_true_iff, str_eqb_neq; exact Hne).
    replace (Nat.leb (List.length u) 20) with true
      by (symmetry; apply Nat.leb_le; exact Hlen).
    cbn [andb].
    replace (name_in_use u (set_conn s (mkConn evs (broken (net w s)) false) w))
      with false; [reflexivity|].
    symmetry. apply name_in_use_false. exact Hfree.
  - cbn. rewrite Nat.eqb_refl. repeat split.
Qed.

Lemma checked_name_passes_the_server_witness :
  ClientMain.check_username Scenes.ascii_alnum (lit "  bob_2 ")
  = ClientMain.NameOk (lit "bob_2") /\
  wf_str (lit "bob_2") /\
  exists w1,
    get_username 2%nat
      (Scenes.asks (Client.join_message (lit "bob_2")))
    = Ok (Some (lit "bob_2")) w1 /\
    sent w1
    = sent (Scenes.asks (Client.join_message (lit "bob_2"))) /\
    clients w1
    = clients (Scenes.asks (Client.join_message (lit "bob_2"))) /\
    incoming (net w1 2%nat) = [].
Proof.
  assert (C : ClientMain.check_username Scenes.ascii_alnum (lit "  bob_2 ")
              = ClientMain.NameOk (lit "bob_2")) by (vm_compute; reflexivity).
  assert (W : wf_str (lit "bob_2")).
  { cbn. repeat split; try lia; try (intros [H1 H2]; discriminate). }
  split; [exact C|]. split; [exact W|].
  apply (checked_name_passes_the_server Scenes.ascii_alnum (lit "  bob_2 ")
           (lit "bob_2") 2%nat
           (Scenes.asks (Client.join_message (lit "bob_2")))
           [] C W).
  - reflexivity.
  - reflexivity.
  - reflexivity.
  - vm_compute. intuition discriminate.
Defined.

(** X29. Two well-formed messages that differ are never written as the
    same bytes: [encode] is one to one on them, and so is the text of
    [json.dumps]. *)
Theorem different_messages_have_different_frames (a b : json) :
  wf a -> wf b ->
  (encode a = encode b -> a = b) /\ (dumps a = dumps b -> a = b).
Proof.
  intros Ha Hb.
  assert (D : dumps a = dumps b -> a = b).
  { intros E. pose proof (loads_dumps a Ha) as La.
    rewrite E, (loads_dumps b Hb) in La. congruence. }
  split; [|exact D].
  rewrite !encode_frame. intros E. apply D.
  unfold frame in E. injection E as E. apply app_inv_tail in E. exact E.
Qed.

Lemma different_messages_have_different_frames_witness :
  wf Client.ping_message /\ wf pong_msg /\
  (encode Client.ping_message = encode pong_msg -> Client.ping_message = pong_msg) /\
  (dumps Client.ping_message = dumps pong_msg -> Client.ping_message = pong_msg).
Proof.
  assert (A : wf Client.ping_message) by well_formed.
  assert (B : wf pong_msg) by well_formed.
  split; [exact A|]. split; [exact B|].
  exact (different_messages_have_different_frames Client.ping_message pong_msg
           A B).
Defined.

End Extras.
